(** * pyOptSparseDriver: the OpenMDAO adapter for pyoptsparse

    A shallow embedding of [pyoptsparse_driver.py].  The adapter is glue
    between two external parties, and the embedding keeps that shape:

    - the host framework (OpenMDAO: parameters, objectives, constraints,
      [run_iteration], [set_parameter_by_name], [workflow.calc_gradient])
      is an interface, a record of operations over an abstract host state;
    - the external solver (pyoptsparse) is a finite interaction tree that
      calls back into [objfunc] and [gradfunc] and finally returns a
      solution;
    - the adapter's own methods ([execute], [objfunc], [gradfunc]) are
      written in a state-and-exception monad over the driver's attributes,
      the host state and a log of the calls that leave the adapter.

    Python dictionaries are [gmap]s, ordered dictionaries and lists are
    [list]s, exceptions are values of [PyExc] carried by [Raise]. *)

From Stdlib Require Import ZArith QArith Qround Qabs String List Lia Lqa.
From stdpp Require Import gmap strings list fin_maps.

Set Warnings "-register-all".
Local Open Scope string_scope.

(* ===================================================================== *)
(** * Python values, types and exceptions *)
(* ===================================================================== *)

Module Py.

(** A Python float: a finite double denotes a rational number; the three
    special values are kept apart because [int] refuses them. *)
Inductive PyFloat : Type :=
| Fin (q : Q)
| PInf
| NInf
| NaN.

(** The classes the driver can meet in a parameter value or in metadata. *)
Inductive PyType : Type :=
| ty_NoneType
| ty_bool
| ty_int
| ty_long
| ty_int32
| ty_int64
| ty_float
| ty_float32
| ty_float64
| ty_str
| ty_list
| ty_tuple
| ty_set
| ty_ndarray.

(** The values.  An integer is a [Z], of one of the four integer classes
    that the driver can meet: the [int] and the [long] of Python 2 and
    the [int32] and [int64] of numpy.  The elements of a container are
    kept in order. *)
Inductive PyVal : Type :=
| VNone
| VBool (b : bool)
| VInt (z : Z)
| VLong (z : Z)
| VInt32 (z : Z)
| VInt64 (z : Z)
| VFloat (f : PyFloat)
| VFloat32 (f : PyFloat)
| VFloat64 (f : PyFloat)
| VStr (s : string)
| VList (l : list PyVal)
| VTuple (l : list PyVal)
| VSet (l : list PyVal)
| VNdarray (l : list PyVal).

(** [type(val)] *)
Definition type_ (v : PyVal) : PyType :=
  match v with
  | VNone => ty_NoneType
  | VBool _ => ty_bool
  | VInt _ => ty_int
  | VLong _ => ty_long
  | VInt32 _ => ty_int32
  | VInt64 _ => ty_int64
  | VFloat _ => ty_float
  | VFloat32 _ => ty_float32
  | VFloat64 _ => ty_float64
  | VStr _ => ty_str
  | VList _ => ty_list
  | VTuple _ => ty_tuple
  | VSet _ => ty_set
  | VNdarray _ => ty_ndarray
  end.

(** [str(type(val))], as it appears in the driver's error message. *)
Definition type_repr (t : PyType) : string :=
  match t with
  | ty_NoneType => "<type 'NoneType'>"
  | ty_bool => "<type 'bool'>"
  | ty_int => "<type 'int'>"
  | ty_long => "<type 'long'>"
  | ty_int32 => "<type 'numpy.int32'>"
  | ty_int64 => "<type 'numpy.int64'>"
  | ty_float => "<type 'float'>"
  | ty_float32 => "<type 'numpy.float32'>"
  | ty_float64 => "<type 'numpy.float64'>"
  | ty_str => "<type 'str'>"
  | ty_list => "<type 'list'>"
  | ty_tuple => "<type 'tuple'>"
  | ty_set => "<type 'set'>"
  | ty_ndarray => "<type 'numpy.ndarray'>"
  end.

Definition PyType_eqb (a b : PyType) : bool :=
  match a, b with
  | ty_NoneType, ty_NoneType | ty_bool, ty_bool | ty_int, ty_int
  | ty_long, ty_long | ty_int32, ty_int32 | ty_int64, ty_int64 | ty_float, ty_float
  | ty_float32, ty_float32 | ty_float64, ty_float64 | ty_str, ty_str
  | ty_list, ty_list | ty_tuple, ty_tuple | ty_set, ty_set
  | ty_ndarray, ty_ndarray => true
  | _, _ => false
  end.

(** [issubclass]: [bool] derives from [int] and [numpy.float64] from
    [float]; every other class of the model only derives from itself
    ([long] does not derive from [int]). *)
Definition issubclass (c base : PyType) : bool :=
  PyType_eqb c base ||
  match c, base with
  | ty_bool, ty_int => true
  | ty_float64, ty_float => true
  | _, _ => false
  end.

(** Exception classes.  [KeyboardInterrupt] and [SystemExit] derive from
    [BaseException] only, the others from [Exception]. *)
Inductive ExcClass : Type :=
| ValueError
| TypeError
| KeyError
| IndexError
| ImportError
| OverflowError
| RuntimeError
| KeyboardInterrupt
| SystemExit.

(** [issubclass(c, Exception)] *)
Definition is_Exception (c : ExcClass) : bool :=
  match c with
  | KeyboardInterrupt | SystemExit => false
  | _ => true
  end.

(** An exception: its class and [str] of it. *)
Record PyExc : Type := mkExc { exc_class : ExcClass; exc_msg : string }.

(** The outcome of a Python call: a value, or an exception in flight. *)
Inductive Res (A : Type) : Type :=
| Ok (a : A)
| Raise (e : PyExc).
Arguments Ok {A} a.
Arguments Raise {A} e.

(** The second argument of [isinstance] is a tuple of objects; an entry
    that is not a class makes the test raise when it is reached. *)
Inductive ClassInfo : Type :=
| Cls (t : PyType)
| NotAClass (what : string).

(** [isinstance(v, (c1, ..., cn))]: the entries are tried from left to
    right and the first match answers. *)
Fixpoint isinstance (v : PyVal) (classinfo : list ClassInfo) : Res bool :=
  match classinfo with
  | [] => Ok false
  | Cls t :: rest =>
      if issubclass (type_ v) t then Ok true else isinstance v rest
  | NotAClass _ :: _ =>
      Raise (mkExc TypeError
        "isinstance() arg 2 must be a class, type, or tuple of classes and types")
  end.

(** [numpy.array] is the array factory, a built-in function; the class of
    its results is [numpy.ndarray]. *)
Definition array_function : ClassInfo := NotAClass "numpy.array".

(** ** Sequencing of calls that may raise *)

Definition res_bind {A B} (r : Res A) (k : A -> Res B) : Res B :=
  match r with
  | Ok a => k a
  | Raise e => Raise e
  end.

(** ** The numeric built-ins behind [int(round(val))] *)

(** Conversion of a machine integer to a double: exact up to 53 bits,
    beyond that the low bits are rounded away, ties to even. *)
Definition double_of_Z (z : Z) : Z :=
  let a := Z.abs z in
  let k := (Z.log2 a - 52)%Z in
  if (k <=? 0)%Z then z
  else
    let m := Z.shiftr a k in
    let r := Z.land a (Z.ones k) in
    let half := Z.shiftl 1 (k - 1) in
    let m' := if (half <? r)%Z || ((half =? r)%Z && Z.odd m)
              then (m + 1)%Z else m in
    (Z.sgn z * Z.shiftl m' k)%Z.

(** The conversion of an integer to a float: the nearest double, or an
    [OverflowError] when that is beyond the range of the doubles, as for
    a [long] of more than 1024 bits. *)
Definition float_of_integer (z : Z) : Res PyFloat :=
  let d := double_of_Z z in
  if (Z.abs d <? 2 ^ 1024)%Z then Ok (Fin (inject_Z d))
  else Raise (mkExc OverflowError "long int too large to convert to float").

(** The argument conversion of [round] (and of [float]): numbers convert,
    a one-element array converts as its element, anything else is a
    [TypeError]. *)
Fixpoint float_ (v : PyVal) : Res PyFloat :=
  match v with
  | VBool b => Ok (Fin (inject_Z (Z.b2z b)))
  | VInt z | VLong z | VInt32 z | VInt64 z => float_of_integer z
  | VFloat f | VFloat32 f | VFloat64 f => Ok f
  | VNdarray [x] => float_ x
  | VNdarray _ =>
      Raise (mkExc TypeError
        "only length-1 arrays can be converted to Python scalars")
  | VNone | VStr _ | VList _ | VTuple _ | VSet _ =>
      Raise (mkExc TypeError "a float is required")
  end.

(** The integer nearest to [q], halfway cases away from zero, as [round]
    does in Python 2; on a double the result is exact. *)
Definition round_half_away (q : Q) : Z :=
  if Qle_bool 0 q then Qfloor (q + (1 # 2)) else Qceiling (q - (1 # 2)).

(** The integer part of [q], towards zero. *)
Definition Qtruncate (q : Q) : Z :=
  if Qle_bool 0 q then Qfloor q else Qceiling q.

(** [round(val)]: a float again; infinities and NaN round to themselves. *)
Definition round_ (v : PyVal) : Res PyFloat :=
  res_bind (float_ v) (fun f =>
    match f with
    | Fin q => Ok (Fin (inject_Z (round_half_away q)))
    | other => Ok other
    end).

(** [int(f)] on a float: the integer part.  Python 2 makes it an [int]
    up to [sys.maxint] and a [long] of the same value beyond; it is
    written [VInt] in both cases, since the bound depends on the platform
    and the driver passes the result to the host without looking at its
    class. *)
Definition int_ (f : PyFloat) : Res PyVal :=
  match f with
  | Fin q => Ok (VInt (Qtruncate q))
  | PInf | NInf =>
      Raise (mkExc OverflowError "cannot convert float infinity to integer")
  | NaN => Raise (mkExc ValueError "cannot convert float NaN to integer")
  end.

(** [numpy.zeros((size))] *)
Definition zeros (size : nat) : PyVal :=
  VNdarray (repeat (VFloat64 (Fin 0)) size).

End Py.
Import Py.

(* ===================================================================== *)
(** * A state-and-exception monad *)
(* ===================================================================== *)

(** A method runs on a state [S] and ends with a value or with an
    exception; in both cases the mutations made so far stay. *)
Definition M (S A : Type) : Type := S -> Res A * S.

Definition ret {S A} (a : A) : M S A := fun s => (Ok a, s).

Definition raise {S A} (e : PyExc) : M S A := fun s => (Raise e, s).

Definition bind {S A B} (m : M S A) (k : A -> M S B) : M S B :=
  fun s =>
    match m s with
    | (Ok a, s') => k a s'
    | (Raise e, s') => (Raise e, s')
    end.

Notation "'let*' x ':=' m 'in' k" := (bind m (fun x => k))
  (at level 10, x name, m at level 100, k at level 200).
Notation "'let*' ' p ':=' m 'in' k" := (bind m (fun p => k))
  (at level 10, p strict pattern, m at level 100, k at level 200).

Definition gets {S A} (f : S -> A) : M S A := fun s => (Ok (f s), s).

Definition modify {S} (f : S -> S) : M S unit := fun s => (Ok tt, f s).

(** A call that may raise but leaves the state alone. *)
Definition lift_res {S A} (r : Res A) : M S A := fun s => (r, s).

(** [for x in l: body(x)] *)
Fixpoint for_each {S X} (l : list X) (body : X -> M S unit) : M S unit :=
  match l with
  | [] => ret tt
  | x :: rest => let* _ := body x in for_each rest body
  end.

(** A method of the object run from a frame that also has locals [L]. *)
Definition on_self {S L A} (m : M S A) : M (S * L) A :=
  fun '(s, l) => let '(r, s') := m s in (r, (s', l)).

Definition get_local {S L} : M (S * L) L := fun '(s, l) => (Ok l, (s, l)).

Definition set_local {S L} (f : L -> L) : M (S * L) unit :=
  fun '(s, l) => (Ok tt, (s, f l)).

(** [d[key]] *)
Definition getitem {S A} (d : gmap string A) (key : string) : M S A :=
  match d !! key with
  | Some a => ret a
  | None => raise (mkExc KeyError ("'" ++ key ++ "'"))
  end.

(** [try: body  except Exception as msg: handler(msg)]: an exception that
    is not an instance of [Exception] is not caught. *)
Definition try_except_Exception {S} (body : M S unit)
    (handler : PyExc -> M S unit) : M S unit :=
  fun s =>
    match body s with
    | (Ok tt, s') => (Ok tt, s')
    | (Raise msg, s') =>
        if is_Exception (exc_class msg) then handler msg s'
        else (Raise msg, s')
    end.

(** [n * s] on strings *)
Fixpoint string_mul (n : nat) (s : string) : string :=
  match n with
  | O => ""
  | S n' => s ++ string_mul n' s
  end.

(* ===================================================================== *)
(** * The solver side: pyoptsparse *)
(* ===================================================================== *)

(** The variable kinds ['c'], ['i'] and ['d']. *)
Inductive vartype : Type := vt_c | vt_i | vt_d.

Definition vartype_eqb (a b : vartype) : bool :=
  match a, b with
  | vt_c, vt_c | vt_i, vt_i | vt_d, vt_d => true
  | _, _ => false
  end.

Module pyoptsparse.

(** One call [addVarGroup(name, nVars, type, lower, upper, value, choices)]. *)
Record VarGroup : Type := mkVarGroup {
  vg_name : string;
  vg_nVars : nat;
  vg_type : vartype;
  vg_lower : PyVal;
  vg_upper : PyVal;
  vg_value : list PyVal;
  vg_choices : PyVal
}.

(** One call [addConGroup(name, nCon, lower=None, upper=None,
    linear=False, wrt=None, jac=None)]. *)
Record ConGroup : Type := mkConGroup {
  cg_name : string;
  cg_nCon : nat;
  cg_lower : option PyVal;
  cg_upper : option PyVal;
  cg_linear : bool;
  cg_wrt : option (list string);
  cg_jac : option (gmap string PyVal)
}.

(** The problem object: what has been registered so far, in order. *)
Record Optimization : Type := mkOptimization {
  op_title : string;
  op_vars : list VarGroup;
  op_objs : list string;
  op_cons : list ConGroup
}.

(** [Optimization(title, objfunc)] *)
Definition Optimization_ (title : string) : Optimization :=
  mkOptimization title [] [] [].

Definition addVarGroup (g : VarGroup) (p : Optimization) : Optimization :=
  mkOptimization (op_title p) (op_vars p ++ [g]) (op_objs p) (op_cons p).

Definition addObj (name : string) (p : Optimization) : Optimization :=
  mkOptimization (op_title p) (op_vars p) (op_objs p ++ [name]) (op_cons p).

Definition addConGroup (g : ConGroup) (p : Optimization) : Optimization :=
  mkOptimization (op_title p) (op_vars p) (op_objs p) (op_cons p ++ [g]).

(** What the optimizer hands back. *)
Record Solution : Type := mkSolution {
  getDVs : gmap string PyVal;
  sol_report : string
}.

(** The [sens] argument of the optimizer call. *)
Inductive SensArg : Type :=
| sens_FD (sensStep : PyVal)
| sens_gradfunc.

(** One run of an optimizer, seen from the adapter: it probes design
    points through the objective callback, asks for gradients through the
    gradient callback when it was given one ([G] is inhabited), and ends
    with a solution or an exception of its own. *)
Inductive SolverRun (G : Type) : Type :=
| SolReturn (sol : Solution)
| SolRaise (e : PyExc)
| SolObjfunc (dv_dict : gmap string PyVal)
    (k : gmap string PyVal * Z -> SolverRun G)
| SolGradfunc (g : G) (dv_dict func_dict : gmap string PyVal)
    (k : gmap string (gmap string PyVal) * Z -> SolverRun G).
Arguments SolReturn {G} sol.
Arguments SolRaise {G} e.
Arguments SolObjfunc {G} dv_dict k.
Arguments SolGradfunc {G} g dv_dict func_dict k.

(** An optimizer class: the behaviour of its instances once the options
    are set, with internal finite differences or with a gradient
    callback. *)
Record Optimizer : Type := mkOptimizer {
  call_FD : list (string * PyVal) -> Optimization -> PyVal ->
            SolverRun Empty_set;
  call_sens : list (string * PyVal) -> Optimization -> SolverRun unit
}.

End pyoptsparse.
Import pyoptsparse.

(* ===================================================================== *)
(** * The host side: OpenMDAO *)
(* ===================================================================== *)

Module openmdao.

(** A registered parameter.  Its declaration is fixed; its current value
    lives in the host state. *)
Record ParameterObj (H : Type) : Type := mkParameter {
  get_metadata : gmap string PyVal;        (* get_metadata()[1] *)
  par_evaluate : H -> Res (list PyVal);
  get_low : PyVal;
  get_high : PyVal
}.

Record ObjectiveObj (H : Type) : Type := mkObjective {
  obj_pcomp_name : string;
  obj_evaluate : H -> Res PyVal
}.

Record ConstraintObj (H : Type) : Type := mkConstraint {
  con_pcomp_name : string;
  con_size : nat;
  con_linear : PyVal;
  con_evaluate : H -> Res PyVal            (* evaluate(self.parent) *)
}.

Arguments get_metadata {H} _.
Arguments par_evaluate {H} _ _.
Arguments get_low {H} _.
Arguments get_high {H} _.
Arguments obj_pcomp_name {H} _.
Arguments obj_evaluate {H} _ _.
Arguments con_pcomp_name {H} _.
Arguments con_size {H} _.
Arguments con_linear {H} _.
Arguments con_evaluate {H} _ _.

(** What the driver inherits from [Driver] and from its delegates
    [HasParameters], [HasConstraints] and [HasObjectives].  The
    registrations are ordered dictionaries and do not change during a
    run; the three operations that touch the model work on the host
    state and may raise. *)
Record Host (H : Type) : Type := mkHost {
  get_parameters : list (string * ParameterObj H);
  total_parameters : Z;
  get_objectives : list (string * ObjectiveObj H);
  list_objective_targets : list string;
  get_constraints : option bool -> list (string * ConstraintObj H);
  get_eq_constraints : list (string * ConstraintObj H);
  get_ineq_constraints : list (string * ConstraintObj H);
  host_run_iteration : H -> Res unit * H;
  host_set_parameter_by_name : string -> PyVal -> H -> Res unit * H;
  host_calc_gradient :
    list string -> list string -> H -> Res (gmap string (gmap string PyVal)) * H
}.

Arguments get_parameters {H} _.
Arguments total_parameters {H} _.
Arguments get_objectives {H} _.
Arguments list_objective_targets {H} _.
Arguments get_constraints {H} _ _.
Arguments get_eq_constraints {H} _.
Arguments get_ineq_constraints {H} _.
Arguments host_run_iteration {H} _ _.
Arguments host_set_parameter_by_name {H} _ _ _ _.
Arguments host_calc_gradient {H} _ _ _ _.

End openmdao.
Import openmdao.

(* ===================================================================== *)
(** * The driver *)
(* ===================================================================== *)

(** [_check_imports]: the optimizer names offered to the user, those of
    the list that [pyOpt] can import. *)
Definition _check_imports (from_pyOpt_import : string -> bool) : list string :=
  let optlist := ["ALPSO"; "CONMIN"; "FSQP"; "IPOPT";
                  "NLPQL"; "NLPY_AUGLAG"; "NSGA2"; "PSQP"; "SLSQP";
                  "SNOPT"] in
  filter (fun optimizer => from_pyOpt_import optimizer = true) optlist.

(** The public traits of the driver. *)
Record Traits : Type := mkTraits {
  optimizer : string;
  title : string;
  options : list (string * PyVal);
  print_results : bool;
  pyopt_diff : bool;
  fd_step : PyVal                          (* gradient_options.fd_step *)
}.

(** The attributes set in [__init__]. *)
Record Self : Type := mkSelf {
  pyOpt_solution : option Solution;
  param_type : gmap string vartype;
  nparam : option Z;
  objs : option (list string);
  nlcons : option (list string);
  lin_jacs : gmap string (gmap string PyVal)
}.

Definition __init__ : Self := mkSelf None ∅ None None None ∅.

(** The calls that leave the adapter, in the order they are made. *)
Inductive Event : Type :=
| EvRunIteration
| EvSetParameter (name : string) (val : PyVal)
| EvCalcGradient (wrt of_ : list string)
| EvInstantiate (optimizer : string)
| EvSetOption (option : string) (value : PyVal)
| EvSolve (opt_prob : Optimization) (sens : SensArg)
| EvPrint (line : string)
| EvPrintSolution (sol : Solution)
| EvTraceback (e : PyExc).

(** The state a method runs on. *)
Record St (H : Type) : Type := mkSt {
  host_state : H;
  self : Self;
  log : list Event
}.
Arguments mkSt {H} _ _ _.
Arguments host_state {H} _.
Arguments self {H} _.
Arguments log {H} _.

Definition set_pyOpt_solution (v : option Solution) (s : Self) : Self :=
  mkSelf v (param_type s) (nparam s) (objs s) (nlcons s) (lin_jacs s).
Definition set_param_type (v : gmap string vartype) (s : Self) : Self :=
  mkSelf (pyOpt_solution s) v (nparam s) (objs s) (nlcons s) (lin_jacs s).
Definition set_nparam (v : option Z) (s : Self) : Self :=
  mkSelf (pyOpt_solution s) (param_type s) v (objs s) (nlcons s) (lin_jacs s).
Definition set_objs (v : option (list string)) (s : Self) : Self :=
  mkSelf (pyOpt_solution s) (param_type s) (nparam s) v (nlcons s) (lin_jacs s).
Definition set_nlcons (v : option (list string)) (s : Self) : Self :=
  mkSelf (pyOpt_solution s) (param_type s) (nparam s) (objs s) v (lin_jacs s).
Definition set_lin_jacs (v : gmap string (gmap string PyVal)) (s : Self) : Self :=
  mkSelf (pyOpt_solution s) (param_type s) (nparam s) (objs s) (nlcons s) v.

(** The locals of [execute] that are built up by its loops. *)
Record ExecuteFrame : Type := mkFrame {
  opt_prob : Optimization;
  param_list : list string;
  nlcons_ : list string
}.

Definition on_opt_prob (f : Optimization -> Optimization) (l : ExecuteFrame) :=
  mkFrame (f (opt_prob l)) (param_list l) (nlcons_ l).
Definition param_list_append (name : string) (l : ExecuteFrame) :=
  mkFrame (opt_prob l) (param_list l ++ [name]) (nlcons_ l).
Definition nlcons_append (name : string) (l : ExecuteFrame) :=
  mkFrame (opt_prob l) (param_list l) (nlcons_ l ++ [name]).

(** The locals of a callback: the result dictionary and the flag. *)
Record CallbackFrame (D : Type) : Type := mkCallbackFrame {
  cb_dict : D;
  cb_fail : Z
}.
Arguments mkCallbackFrame {D} _ _.
Arguments cb_dict {D} _.
Arguments cb_fail {D} _.

Section Driver.

Context {H : Type}.
Variable host : Host H.
Variable traits : Traits.

(** What [from pyoptsparse import <name>] finds in this installation;
    [None] stands for the [ImportError]. *)
Variable from_pyoptsparse_import : string -> option Optimizer.

(** [numpy.array(x)], the conversion applied to every evaluated output. *)
Variable array : PyVal -> PyVal.

(** ** Attribute access and calls into the host *)

Definition get_self {A} (f : Self -> A) : M (St H) A :=
  gets (fun st => f (self st)).

Definition set_self (f : Self -> Self) : M (St H) unit :=
  modify (fun st => mkSt (host_state st) (f (self st)) (log st)).

Definition emit (evs : list Event) : M (St H) unit :=
  modify (fun st => mkSt (host_state st) (self st) (log st ++ evs)).

(** A read of the host state that may raise. *)
Definition read {A} (f : H -> Res A) : M (St H) A :=
  fun st => (f (host_state st), st).

(** A host operation: logged when it is called, then run. *)
Definition call (ev : Event) {A} (f : H -> Res A * H) : M (St H) A :=
  fun st =>
    let '(r, h') := f (host_state st) in
    (r, mkSt h' (self st) (log st ++ [ev])).

(** [self.run_iteration()] *)
Definition run_iteration : M (St H) unit :=
  call EvRunIteration (host_run_iteration host).

Definition set_parameter_by_name (name : string) (val : PyVal) : M (St H) unit :=
  call (EvSetParameter name val) (host_set_parameter_by_name host name val).

(** [self.workflow.calc_gradient(wrt, of, return_format='dict')] *)
Definition calc_gradient (wrt of_ : list string)
  : M (St H) (gmap string (gmap string PyVal)) :=
  call (EvCalcGradient wrt of_) (host_calc_gradient host wrt of_).

(** [self.raise_exception(msg, cls)]: the host raises an exception of
    class [cls] that carries [msg]. *)
Definition raise_exception {S A} (msg : string) (cls : ExcClass) : M S A :=
  raise (mkExc cls msg).

(** ** [execute], lines 87-109: the kind of one parameter *)

(** [values[0]] *)
Definition first_value (values : list PyVal) : Res PyVal :=
  match values with
  | val :: _ => Ok val
  | [] => Raise (mkExc IndexError "list index out of range")
  end.

(** Lines 98-108: the [elif] chain on the first value. *)
Definition classify_by_value (name : string) (val : PyVal)
  : Res (vartype * PyVal) :=
  let choices := VList [] in
  res_bind (isinstance val [Cls ty_bool]) (fun is_bool =>
  if is_bool then
    Ok (vt_d, VList [VBool true; VBool false])
  else
  res_bind (isinstance val [Cls ty_int; Cls ty_int32; Cls ty_int64])
    (fun is_int =>
  if is_int then
    Ok (vt_i, choices)
  else
  res_bind (isinstance val [Cls ty_float; Cls ty_float32; Cls ty_float64])
    (fun is_float =>
  if is_float then
    Ok (vt_c, choices)
  else
    let msg := "Only continuous, discrete, or enumerated variables" ++
               " are supported. " ++ name ++ " is " ++
               type_repr (type_ val) ++ "." in
    Raise (mkExc ValueError msg)))).

(** Lines 93-108: the kind and the choices of a parameter, or the
    exception that ends the run.  The test on the metadata comes first
    and is only made when the key ['values'] is present. *)
Definition classify (name : string) (metadata : gmap string PyVal)
    (val : PyVal) : Res (vartype * PyVal) :=
  match metadata !! "values" with
  | Some metadata_values =>
      res_bind
        (isinstance metadata_values
           [Cls ty_list; Cls ty_tuple; array_function; Cls ty_set])
        (fun is_choice_set =>
           if is_choice_set then Ok (vt_d, metadata_values)
           else classify_by_value name val)
  | None => classify_by_value name val
  end.

(** Lines 85-116: the body of the loop over the parameters. *)
Definition add_parameter (item : string * ParameterObj H)
  : M (St H * ExecuteFrame) unit :=
  let '(name, param) := item in
  let metadata := get_metadata param in
  let* values := on_self (read (par_evaluate param)) in
  let* val := lift_res (first_value values) in
  let* '(vartype, choices) := lift_res (classify name metadata val) in
  let* _ := on_self (set_self (fun s =>
              set_param_type (<[name := vartype]> (param_type s)) s)) in
  let lower_bounds := get_low param in
  let upper_bounds := get_high param in
  let* _ := set_local (on_opt_prob (addVarGroup
              (mkVarGroup name (length values) vartype
                          lower_bounds upper_bounds values choices))) in
  set_local (param_list_append name).

(** Lines 119-121. *)
Definition add_objective (item : string * ObjectiveObj H)
  : M (St H * ExecuteFrame) unit :=
  let '(_, obj) := item in
  let name := obj_pcomp_name obj ++ ".out0" in
  set_local (on_opt_prob (addObj name)).

(** [x is True] *)
Definition is_True (x : PyVal) : bool :=
  match x with
  | VBool true => true
  | _ => false
  end.

(** Lines 132-143: the body of the loop over the equality constraints. *)
Definition add_eq_constraint (item : string * ConstraintObj H)
  : M (St H * ExecuteFrame) unit :=
  let '(_, con) := item in
  let size := con_size con in
  let lower := zeros size in
  let upper := zeros size in
  let name := con_pcomp_name con ++ ".out0" in
  if is_True (con_linear con) then
    let* l := get_local in
    let* jacs := on_self (get_self lin_jacs) in
    let* jac := getitem jacs name in
    set_local (on_opt_prob (addConGroup
      (mkConGroup name size (Some lower) (Some upper) true
                  (Some (param_list l)) (Some jac))))
  else
    let* _ := set_local (on_opt_prob (addConGroup
      (mkConGroup name size (Some lower) (Some upper) false None None))) in
    set_local (nlcons_append name).

(** Lines 146-155: the body of the loop over the inequality constraints. *)
Definition add_ineq_constraint (item : string * ConstraintObj H)
  : M (St H * ExecuteFrame) unit :=
  let '(_, con) := item in
  let size := con_size con in
  let upper := zeros size in
  let name := con_pcomp_name con ++ ".out0" in
  if is_True (con_linear con) then
    let* l := get_local in
    let* jacs := on_self (get_self lin_jacs) in
    let* jac := getitem jacs name in
    set_local (on_opt_prob (addConGroup
      (mkConGroup name size None (Some upper) true
                  (Some (param_list l)) (Some jac))))
  else
    let* _ := set_local (on_opt_prob (addConGroup
      (mkConGroup name size None (Some upper) false None None))) in
    set_local (nlcons_append name).

(** Lines 123-128: the gradient of the linear constraints. *)
Definition save_linear_jacobians : M (St H * ExecuteFrame) unit :=
  let lcons := get_constraints host (Some true) in
  if (0 <? length lcons)%nat then
    let lcon_names := map (fun obj => con_pcomp_name obj ++ ".out0")
                          (map snd lcons) in
    let* l := get_local in
    let* jacs := on_self (calc_gradient (param_list l) lcon_names) in
    on_self (set_self (set_lin_jacs jacs))
  else ret tt.

(** Lines 75-158 of [execute]: everything up to the choice of the
    optimizer.  The frame starts with [opt_prob = Optimization(title,
    objfunc)], [param_list = []] and [nlcons = []]. *)
Definition setup_problem : M (St H * ExecuteFrame) unit :=
  let* _ := on_self (set_self (set_pyOpt_solution None)) in
  let* _ := on_self run_iteration in
  let* _ := on_self (set_self (set_param_type ∅)) in
  let* _ := on_self (set_self (set_nparam (Some (total_parameters host)))) in
  let* _ := for_each (get_parameters host) add_parameter in
  let* _ := for_each (get_objectives host) add_objective in
  let* _ := save_linear_jacobians in
  let* _ := for_each (get_eq_constraints host) add_eq_constraint in
  let* _ := for_each (get_ineq_constraints host) add_ineq_constraint in
  let* l := get_local in
  let* _ := on_self (set_self (set_objs (Some (list_objective_targets host)))) in
  on_self (set_self (set_nlcons (Some (nlcons_ l)))).

Definition execute_frame : ExecuteFrame :=
  mkFrame (Optimization_ (title traits)) [] [].

(** ** The callbacks *)

(** Lines 252-260 and 297-305: the handler shared by both callbacks. *)
Definition print_traceback {L} (msg : PyExc) : M (St H * L) unit :=
  on_self (emit [EvPrint ("Exception: " ++ exc_msg msg);
                 EvPrint (string_mul 70 "=");
                 EvTraceback msg;
                 EvPrint (string_mul 70 "=")]).

(** [val = int(round(val))] *)
Definition int_round (val : PyVal) : Res PyVal :=
  res_bind (round_ val) int_.

(** Lines 229-235: the design point is pushed into the host. *)
Definition objfunc_set_parameter (dv_dict : gmap string PyVal)
    (param_types : gmap string vartype) (item : string * ParameterObj H)
  : M (St H) unit :=
  let '(name, _) := item in
  let* val := getitem dv_dict name in
  let* kind := getitem param_types name in
  let* val := (if vartype_eqb kind vt_i then lift_res (int_round val)
               else ret val) in
  set_parameter_by_name name val.

(** Lines 241-243 and 246-248: one output is evaluated and stored. *)
Definition store_output (pcomp_name : string) (evaluate : H -> Res PyVal)
  : M (St H * CallbackFrame (gmap string PyVal)) unit :=
  let name := pcomp_name ++ ".out0" in
  let* v := on_self (read evaluate) in
  set_local (fun l => mkCallbackFrame (<[name := array v]> (cb_dict l))
                                      (cb_fail l)).

(** Lines 225-250: the body of the [try]. *)
Definition objfunc_try (dv_dict : gmap string PyVal)
  : M (St H * CallbackFrame (gmap string PyVal)) unit :=
  let* param_types := on_self (get_self param_type) in
  let* _ := for_each (get_parameters host)
              (fun item => on_self (objfunc_set_parameter dv_dict param_types item)) in
  let* _ := on_self run_iteration in
  let* _ := for_each (get_objectives host)
              (fun '(_, obj) => store_output (obj_pcomp_name obj)
                                             (obj_evaluate obj)) in
  let* _ := for_each (get_constraints host None)
              (fun '(_, con) => store_output (con_pcomp_name con)
                                             (con_evaluate con)) in
  set_local (fun l => mkCallbackFrame (cb_dict l) 0).

(** [objfunc(dv_dict)]: returns [(func_dict, fail)]. *)
Definition objfunc (dv_dict : gmap string PyVal)
  : M (St H) (gmap string PyVal * Z) :=
  fun st =>
    let frame := mkCallbackFrame (∅ : gmap string PyVal) 1 in
    let '(r, (st', l)) :=
      try_except_Exception (objfunc_try dv_dict) print_traceback (st, frame) in
    match r with
    | Ok tt => (Ok (cb_dict l, cb_fail l), st')
    | Raise e => (Raise e, st')
    end.

(** The [TypeError] of [a + b] when one of the two is [None] and the
    other [None] or a list. *)
Definition list_add_error (a b : option (list string)) : PyExc :=
  let quote := String (Ascii.ascii_of_nat 34) EmptyString in
  mkExc TypeError
    match a, b with
    | Some _, _ =>
        "can only concatenate list (not " ++ quote ++ "NoneType" ++ quote ++
        ") to list"
    | None, Some _ =>
        "unsupported operand type(s) for +: 'NoneType' and 'list'"
    | None, None =>
        "unsupported operand type(s) for +: 'NoneType' and 'NoneType'"
    end.

(** [self.objs + self.nlcons] *)
Definition list_add {S} (a b : option (list string)) : M S (list string) :=
  match a, b with
  | Some x, Some y => ret (x ++ y)%list
  | _, _ => raise (list_add_error a b)
  end.

(** [dv_dict.keys()] *)
Definition keys {A} (d : gmap string A) : list string :=
  map fst (map_to_list d).

(** Lines 289-295: the body of the [try]. *)
Definition gradfunc_try (dv_dict func_dict : gmap string PyVal)
  : M (St H * CallbackFrame (gmap string (gmap string PyVal))) unit :=
  let* objs_ := on_self (get_self objs) in
  let* nlcons_ := on_self (get_self nlcons) in
  let* of_ := list_add objs_ nlcons_ in
  let* sens_dict := on_self (calc_gradient (keys dv_dict) of_) in
  let* _ := set_local (fun l => mkCallbackFrame sens_dict (cb_fail l)) in
  set_local (fun l => mkCallbackFrame (cb_dict l) 0).

(** [gradfunc(dv_dict, func_dict)]: returns [(sens_dict, fail)]. *)
Definition gradfunc (dv_dict func_dict : gmap string PyVal)
  : M (St H) (gmap string (gmap string PyVal) * Z) :=
  fun st =>
    let frame := mkCallbackFrame (∅ : gmap string (gmap string PyVal)) 1 in
    let '(r, (st', l)) :=
      try_except_Exception (gradfunc_try dv_dict func_dict) print_traceback
                           (st, frame) in
    match r with
    | Ok tt => (Ok (cb_dict l, cb_fail l), st')
    | Raise e => (Raise e, st')
    end.

(** ** The optimizer at work *)

(** The optimizer owns the control: each of its requests runs the
    callback on the current state, and an exception that leaves a
    callback leaves the optimizer call too. *)
Fixpoint run_solver {G} (t : SolverRun G) : M (St H) Solution :=
  match t with
  | SolReturn sol => ret sol
  | SolRaise e => raise e
  | SolObjfunc dv_dict k =>
      fun st =>
        match objfunc dv_dict st with
        | (Ok r, st') => run_solver (k r) st'
        | (Raise e, st') => (Raise e, st')
        end
  | SolGradfunc _ dv_dict func_dict k =>
      fun st =>
        match gradfunc dv_dict func_dict st with
        | (Ok r, st') => run_solver (k r) st'
        | (Raise e, st') => (Raise e, st')
        end
  end.

(** ** [execute], lines 160-202 *)

(** Lines 160-174: the optimizer is imported and instantiated, and the
    options are set. *)
Definition instantiate_optimizer : M (St H) Optimizer :=
  let optimizer := optimizer traits in
  let* optname :=
    match from_pyoptsparse_import optimizer with
    | Some cls => ret cls
    | None =>
        let msg := "Optimizer " ++ optimizer ++
                   " is not available in this installation." in
        raise_exception msg ImportError
    end in
  let* _ := emit [EvInstantiate optimizer] in
  let* _ := for_each (options traits)
              (fun '(option, value) => emit [EvSetOption option value]) in
  ret optname.

(** Lines 176-182: the optimization problem is executed. *)
Definition run_optimizer (opt : Optimizer) (opt_prob : Optimization)
  : M (St H) Solution :=
  if pyopt_diff traits then
    let* _ := emit [EvSolve opt_prob (sens_FD (fd_step traits))] in
    run_solver (call_FD opt (options traits) opt_prob (fd_step traits))
  else
    let* _ := emit [EvSolve opt_prob sens_gradfunc] in
    run_solver (call_sens opt (options traits) opt_prob).

(** Lines 192-197: the optimum is pulled back into the framework. *)
Definition execute_set_parameter (dv_dict : gmap string PyVal)
    (param_types : gmap string vartype) (item : string * ParameterObj H)
  : M (St H) unit :=
  let '(name, _) := item in
  let* val := getitem dv_dict name in
  let* kind := getitem param_types name in
  let* val := (if vartype_eqb kind vt_i then lift_res (int_round val)
               else ret val) in
  set_parameter_by_name name val.

(** Lines 184-202. *)
Definition finish_run (sol : Solution) : M (St H) unit :=
  let* _ := (if print_results traits then emit [EvPrintSolution sol]
             else ret tt) in
  let dv_dict := getDVs sol in
  let* param_types := get_self param_type in
  let* _ := for_each (get_parameters host)
              (execute_set_parameter dv_dict param_types) in
  let* _ := run_iteration in
  set_self (set_pyOpt_solution (Some sol)).

(** [execute()] *)
Definition execute : M (St H) unit :=
  fun st =>
    let '(r, (st', l)) :=
      (let* _ := setup_problem in
       let* opt := on_self instantiate_optimizer in
       let* l := get_local in
       let* sol := on_self (run_optimizer opt (opt_prob l)) in
       on_self (finish_run sol)) (st, execute_frame) in
    (r, st').

End Driver.

(* ===================================================================== *)
(** * A small model to run the driver on *)
(* ===================================================================== *)

(** A host whose state is the store of its parameter values: a float
    [x], an integer [n], one objective, a linear equality constraint and
    a nonlinear inequality constraint of size two; and an installation
    with one optimizer that probes one point, asks for one gradient and
    reports an optimum. *)
Module Demo.

Definition current (name : string) (h : gmap string PyVal) : Res (list PyVal) :=
  match h !! name with
  | Some v => Ok [v]
  | None => Raise (mkExc RuntimeError ("no value for " ++ name))
  end.

Definition float_of (z : Z) : PyVal := VFloat (Fin (inject_Z z)).

Definition x : ParameterObj (gmap string PyVal) :=
  mkParameter _ ∅ (current "x") (float_of (-50)) (float_of 50).

Definition n : ParameterObj (gmap string PyVal) :=
  mkParameter _ ∅ (current "n") (VInt 0) (VInt 10).

Definition objective : ObjectiveObj (gmap string PyVal) :=
  mkObjective _ "_pseudo_0" (fun h => res_bind (current "x" h) first_value).

Definition eq_con : ConstraintObj (gmap string PyVal) :=
  mkConstraint _ "_pseudo_1" 1 (VBool true)
    (fun h => res_bind (current "n" h) first_value).

Definition ineq_con : ConstraintObj (gmap string PyVal) :=
  mkConstraint _ "_pseudo_2" 2 (VBool false)
    (fun h => Ok (VList [float_of (-1); float_of (-2)])).

(** A Jacobian with one unit entry per requested pair. *)
Definition unit_jacobian (wrt of_ : list string)
  : gmap string (gmap string PyVal) :=
  list_to_map
    (map (fun o => (o, list_to_map (map (fun w => (w, float_of 1)) wrt)))
         of_).

Definition host_with (params : list (string * ParameterObj (gmap string PyVal)))
    (run : gmap string PyVal -> Res unit * gmap string PyVal)
    (grad : list string -> list string -> gmap string PyVal ->
            Res (gmap string (gmap string PyVal)) * gmap string PyVal)
  : Host (gmap string PyVal) :=
  mkHost _
    params
    (Z.of_nat (length params))
    [("f", objective)]
    ["_pseudo_0.out0"]
    (fun linear =>
       match linear with
       | Some true => [("c1", eq_con)]
       | Some false => [("c2", ineq_con)]
       | None => [("c1", eq_con); ("c2", ineq_con)]
       end)
    [("c1", eq_con)]
    [("c2", ineq_con)]
    run
    (fun name val h => (Ok tt, <[name := val]> h))
    grad.

Definition run (h : gmap string PyVal) : Res unit * gmap string PyVal :=
  (Ok tt, h).

Definition grad (wrt of_ : list string) (h : gmap string PyVal)
  : Res (gmap string (gmap string PyVal)) * gmap string PyVal :=
  (Ok (unit_jacobian wrt of_), h).

Definition host : Host (gmap string PyVal) :=
  host_with [("x", x); ("n", n)] run grad.

(** The same model, interrupted from the keyboard while it runs, or
    while it differentiates. *)
Definition interrupt {A} (h : gmap string PyVal) : Res A * gmap string PyVal :=
  (Raise (mkExc KeyboardInterrupt ""), h).

Definition interrupted_host : Host (gmap string PyVal) :=
  host_with [("x", x); ("n", n)] interrupt grad.

Definition interrupted_gradient_host : Host (gmap string PyVal) :=
  host_with [("x", x); ("n", n)] run (fun _ _ => interrupt).

(** The same model with a parameter whose choices are given as a set. *)
Definition choice : ParameterObj (gmap string PyVal) :=
  mkParameter _ {["values" := VSet [VInt 1; VInt 2; VInt 3]]}
    (current "k") (VInt 1) (VInt 3).

Definition host_with_choice_set : Host (gmap string PyVal) :=
  host_with [("k", choice)] run grad.

Definition traits : Traits :=
  mkTraits "SLSQP" "Optimization using pyOpt" [("ACC", float_of 0)]
           true false (float_of 0).

(** The same traits, asking for an optimizer that is not installed. *)
Definition traits_SNOPT : Traits :=
  mkTraits "SNOPT" "Optimization using pyOpt" [] true false (float_of 0).

(** A parameter whose vector mixes a float and a string. *)
Definition mixed : ParameterObj (gmap string PyVal) :=
  mkParameter _ ∅ (fun _ => Ok [float_of 1; VStr "abc"])
              (float_of 0) (float_of 1).

(** The point the optimizer probes, and the optimum it reports. *)
Definition probe : gmap string PyVal :=
  {["x" := VNdarray [VFloat64 (Fin (3 # 2))];
    "n" := VNdarray [VFloat64 (Fin (13 # 5))]]}.

Definition optimum : gmap string PyVal :=
  {["x" := VNdarray [VFloat64 (Fin (7 # 4))];
    "n" := VNdarray [VFloat64 (Fin (5 # 2))]]}.

Definition SLSQP : Optimizer :=
  mkOptimizer
    (fun _ _ _ =>
       SolObjfunc probe (fun _ => SolReturn (mkSolution optimum "done")))
    (fun _ _ =>
       SolObjfunc probe (fun '(func_dict, _) =>
       SolGradfunc tt probe func_dict (fun _ =>
       SolReturn (mkSolution optimum "done")))).

(** An installation that only has [SLSQP]. *)
Definition installation (name : string) : option Optimizer :=
  if String.eqb name "SLSQP" then Some SLSQP else None.

(** [numpy.array] on the outputs of this model: sequences become arrays,
    a scalar becomes an array around it. *)
Definition array (v : PyVal) : PyVal :=
  match v with
  | VList l | VTuple l | VNdarray l => VNdarray l
  | scalar => VNdarray [scalar]
  end.

Definition start : St (gmap string PyVal) :=
  mkSt {["x" := float_of 1; "n" := VInt 4; "k" := VInt 1]} __init__ [].

(** The state in which the optimizer finds the driver when it makes its
    first request. *)
Definition running : St (gmap string PyVal) :=
  mkSt {["x" := float_of 1; "n" := VInt 4]}
       (mkSelf None {["x" := vt_c; "n" := vt_i]} (Some 2%Z)
               (Some ["_pseudo_0.out0"]) (Some ["_pseudo_2.out0"])
               (unit_jacobian ["x"; "n"] ["_pseudo_1.out0"]))
       [EvRunIteration].

(** Where the set-up of [execute] leaves the driver and the frame. *)
Definition after_setup : St (gmap string PyVal) * ExecuteFrame :=
  snd (setup_problem host (start, execute_frame traits)).

(** Where a whole run of [execute] leaves the driver. *)
Definition finished : St (gmap string PyVal) :=
  snd (execute host traits installation array start).

(** The parameters of this host, read from its store. *)
Definition stored (h : gmap string PyVal) (name : string) : option PyVal :=
  h !! name.

End Demo.

(* ===================================================================== *)
(** * Vocabulary of the statements *)
(* ===================================================================== *)

(** The integer classes and the floating-point classes the driver tests
    for (lines 101 and 103). *)
Definition is_int_type (t : PyType) : bool :=
  match t with
  | ty_int | ty_int32 | ty_int64 => true
  | _ => false
  end.

Definition is_float_type (t : PyType) : bool :=
  match t with
  | ty_float | ty_float32 | ty_float64 => true
  | _ => false
  end.

(** The message of the [ValueError] of line 106. *)
Definition unsupported_msg (name : string) (val : PyVal) : string :=
  "Only continuous, discrete, or enumerated variables are supported. " ++
  name ++ " is " ++ type_repr (type_ val) ++ ".".

(** The message of the [TypeError] that [isinstance] raises. *)
Definition isinstance_msg : string :=
  "isinstance() arg 2 must be a class, type, or tuple of classes and types".

(** ['%s.out0' % pcomp_name] *)
Definition out0 (pcomp_name : string) : string := pcomp_name ++ ".out0".

(** The state and the frame after a parameter of kind [kind] has been
    registered. *)
Definition registered {H} (name : string) (param : ParameterObj H)
    (values : list PyVal) (kind : vartype) (choices : PyVal)
    (st : St H) (fr : ExecuteFrame) : St H * ExecuteFrame :=
  (mkSt (host_state st)
        (set_param_type (<[name := kind]> (param_type (self st))) (self st))
        (log st),
   mkFrame (addVarGroup
              (mkVarGroup name (length values) kind (get_low param)
                          (get_high param) values choices)
              (opt_prob fr))
           (param_list fr ++ [name]) (nlcons_ fr)).

(** The variable group that the loop of [execute] registers for a
    parameter whose values are read in the host state [h]. *)
Definition var_group_of {H} (h : H) (item : string * ParameterObj H)
    (g : VarGroup) : Prop :=
  exists values val kind choices,
    par_evaluate (snd item) h = Ok values /\
    first_value values = Ok val /\
    classify (fst item) (get_metadata (snd item)) val = Ok (kind, choices) /\
    g = mkVarGroup (fst item) (length values) kind (get_low (snd item))
                   (get_high (snd item)) values choices.

(** The kinds recorded in [self.param_type] once the groups [groups]
    have been registered, starting from [types]. *)
Definition record_kinds (groups : list VarGroup) (types : gmap string vartype)
  : gmap string vartype :=
  fold_left (fun m g => <[vg_name g := vg_type g]> m) groups types.

(** The constraint group that [execute] registers for a constraint: with
    the Jacobian saved in [jacs] when the constraint is linear, without
    one otherwise; an equality constraint has a lower bound too. *)
Definition con_group_of {H} (equality : bool)
    (jacs : gmap string (gmap string PyVal)) (wrt : list string)
    (item : string * ConstraintObj H) (g : ConGroup) : Prop :=
  let con := snd item in
  let name := out0 (con_pcomp_name con) in
  let size := con_size con in
  let lower := if equality then Some (zeros size) else None in
  if is_True (con_linear con) then
    exists jac, jacs !! name = Some jac /\
      g = mkConGroup name size lower (Some (zeros size)) true
                     (Some wrt) (Some jac)
  else
    g = mkConGroup name size lower (Some (zeros size)) false None None.

(** The names that the loops over the constraints append to [nlcons]. *)
Definition nonlinear_names {H} (cons : list (string * ConstraintObj H))
  : list string :=
  map (fun item => out0 (con_pcomp_name (snd item)))
      (List.filter (fun item => negb (is_True (con_linear (snd item)))) cons).

(** What the handler of the callbacks prints for the exception [e]. *)
Definition traceback_report (e : PyExc) : list Event :=
  [EvPrint ("Exception: " ++ exc_msg e);
   EvPrint (string_mul 70 "=");
   EvTraceback e;
   EvPrint (string_mul 70 "=")].

(** The state [st] after the events [evs]. *)
Definition logged {H} (evs : list Event) (st : St H) : St H :=
  mkSt (host_state st) (self st) (log st ++ evs)%list.

(** An action keeps the relation [P] between the state it starts in and
    the state it leaves, whether it returns or raises. *)
Definition preserves {S A} (P : S -> S -> Prop) (m : M S A) : Prop :=
  forall s r s', m s = (r, s') -> P s s'.

(** The output names under which [objfunc] stores its evaluations. *)
Definition output_names {H} (host : Host H) : list string :=
  (map (fun item => out0 (obj_pcomp_name (snd item))) (get_objectives host) ++
   map (fun item => out0 (con_pcomp_name (snd item))) (get_constraints host None))%list.

(** The log has only grown, and by events that satisfy [ok]. *)
Definition emits {H} (ok : Event -> Prop) (st st' : St H) : Prop :=
  exists evs, log st' = (log st ++ evs)%list /\ Forall ok evs.

(** The attributes of the driver are the same. *)
Definition self_kept {H} (st st' : St H) : Prop := self st' = self st.

(** A relation on the object, seen from a frame with locals. *)
Definition on_fst {S L} (P : S -> S -> Prop) (a b : S * L) : Prop :=
  P (fst a) (fst b).

(** The events by which an optimizer shows in the log. *)
Definition is_solver_event (ev : Event) : bool :=
  match ev with
  | EvInstantiate _ | EvSetOption _ _ | EvSolve _ _ => true
  | _ => false
  end.

(** The value that the loops of lines 192-197 and 230-235 write for the
    parameter [name] when the optimizer supplies [dv_dict]. *)
Definition pulled (dv_dict : gmap string PyVal) (types : gmap string vartype)
    (name : string) (w : PyVal) : Prop :=
  exists v kind,
    dv_dict !! name = Some v /\ types !! name = Some kind /\
    if vartype_eqb kind vt_i then int_round v = Ok w else w = v.

(** An event is no write of a parameter, or it writes what [pulled]
    says. *)
Definition writes_pulled (dv_dict : gmap string PyVal)
    (types : gmap string vartype) (ev : Event) : Prop :=
  match ev with
  | EvSetParameter name w => pulled dv_dict types name w
  | _ => True
  end.


(** The message of the [ImportError] of line 165. *)
Definition unavailable_msg (optimizer : string) : string :=
  "Optimizer " ++ optimizer ++ " is not available in this installation.".

(** The contract of [get_constraints(linear=True)]: it lists every
    registered constraint whose [linear] flag is [True]. *)
Definition lists_linear_constraints {H} (host : Host H) : Prop :=
  forall item,
    In item (get_eq_constraints host ++ get_ineq_constraints host)%list ->
    is_True (con_linear (snd item)) = true ->
    In item (get_constraints host (Some true)).

(** The length-[n] zero vector. *)
Definition zero_vector (n : nat) : PyVal :=
  VNdarray (repeat (VFloat64 (Fin 0)) n).

(** The locals of the frame are the same. *)
Definition frame_kept {S L} (a b : S * L) : Prop := snd b = snd a.

(** The attributes are the same, and the log has grown by events that
    satisfy [ok]. *)
Definition only_logs {H} (ok : Event -> Prop) (st st' : St H) : Prop :=
  self_kept st st' /\ emits ok st st'.


(** The writes of the values [vals] into the parameters [names]. *)
Definition write_events (names : list string) (vals : list PyVal)
  : list Event :=
  zip_with EvSetParameter names vals.

(** The contract of the host for an observation [current] of its
    parameters: setting a parameter makes it hold the value and leaves
    the others alone, and an evaluation cycle changes no parameter. *)
Definition observes_parameters {H} (host : Host H)
    (current : H -> string -> option PyVal) : Prop :=
  (forall name v h h',
     host_set_parameter_by_name host name v h = (Ok tt, h') ->
     current h' name = Some v /\
     forall other, other <> name -> current h' other = current h other) /\
  (forall h h',
     host_run_iteration host h = (Ok tt, h') ->
     forall name, current h' name = current h name).

(* ===================================================================== *)
(** * The import probe, statement by statement *)
(* ===================================================================== *)

(** [l.remove(x)]: the first occurrence of [x] goes; a [ValueError] when
    there is none. *)
Fixpoint list_remove (x : string) (l : list string) : Res (list string) :=
  match l with
  | [] => Raise (mkExc ValueError "list.remove(x): x not in list")
  | y :: rest =>
      if String.eqb x y then Ok rest
      else res_bind (list_remove x rest) (fun rest' => Ok (y :: rest'))
  end.

(** Lines 31-35: the loop runs over a copy of the list and removes from
    the list itself each name whose import fails. *)
Fixpoint remove_unavailable (from_pyOpt_import : string -> bool)
    (copy optlist : list string) : Res (list string) :=
  match copy with
  | [] => Ok optlist
  | optimizer :: rest =>
      if from_pyOpt_import optimizer then
        remove_unavailable from_pyOpt_import rest optlist
      else
        res_bind (list_remove optimizer optlist)
                 (remove_unavailable from_pyOpt_import rest)
  end.

(** Lines 27-29. *)
Definition optlist : list string :=
  ["ALPSO"; "CONMIN"; "FSQP"; "IPOPT";
   "NLPQL"; "NLPY_AUGLAG"; "NSGA2"; "PSQP"; "SLSQP";
   "SNOPT"].

(** [_check_imports()] as its statements run. *)
Definition check_imports_loop (from_pyOpt_import : string -> bool)
  : Res (list string) :=
  remove_unavailable from_pyOpt_import optlist optlist.

(* ===================================================================== *)
(** * More vocabulary *)
(* ===================================================================== *)

(** The registered outputs by their names: what [objfunc] evaluates, in
    the order it does. *)
Definition outputs {H} (host : Host H) : list (string * (H -> Res PyVal)) :=
  (map (fun item => (out0 (obj_pcomp_name (snd item)), obj_evaluate (snd item)))
       (get_objectives host) ++
   map (fun item => (out0 (con_pcomp_name (snd item)), con_evaluate (snd item)))
       (get_constraints host None))%list.

(** [v] is [array(evaluate())] for a registered output called [name],
    evaluated in the host state [h]. *)
Definition output_at {H} (host : Host H) (array : PyVal -> PyVal) (h : H)
    (name : string) (v : PyVal) : Prop :=
  exists evaluate u,
    In (name, evaluate) (outputs host) /\ evaluate h = Ok u /\ v = array u.

(** The event is a write of a parameter. *)
Definition is_write (ev : Event) : Prop :=
  match ev with
  | EvSetParameter _ _ => True
  | _ => False
  end.

(** An event is no write of a parameter whose recorded kind is not
    ['i'], or it writes the very value the optimizer supplied. *)
Definition writes_verbatim (dv_dict : gmap string PyVal)
    (types : gmap string vartype) (ev : Event) : Prop :=
  match ev with
  | EvSetParameter name w =>
      forall kind, types !! name = Some kind -> kind <> vt_i ->
                   dv_dict !! name = Some w
  | _ => True
  end.

(** More runs of the model of [Demo]. *)
Module Cases.

(** What [objfunc] returns for the probe, and where it leaves the
    driver. *)
Definition probe_state : St (gmap string PyVal) :=
  snd (objfunc Demo.host Demo.array Demo.probe Demo.running).

Definition probe_dict : gmap string PyVal :=
  match fst (objfunc Demo.host Demo.array Demo.probe Demo.running) with
  | Ok (func_dict, _) => func_dict
  | Raise _ => ∅
  end.

(** A parameter whose value is a string, and one whose value vector is
    empty, each registered after [x]. *)
Definition label : ParameterObj (gmap string PyVal) :=
  mkParameter _ ∅ (fun _ => Ok [VStr "abc"]) VNone VNone.

Definition nothing : ParameterObj (gmap string PyVal) :=
  mkParameter _ ∅ (fun _ => Ok []) VNone VNone.

Definition host_with_label : Host (gmap string PyVal) :=
  Demo.host_with [("x", Demo.x); ("label", label); ("n", Demo.n)]
                 Demo.run Demo.grad.

Definition host_with_nothing : Host (gmap string PyVal) :=
  Demo.host_with [("x", Demo.x); ("nothing", nothing)] Demo.run Demo.grad.

(** The traits of [Demo], with [pyopt_diff] set: the optimizer is to
    take its own finite differences. *)
Definition traits_FD : Traits :=
  mkTraits "SLSQP" "Optimization using pyOpt" [("ACC", Demo.float_of 0)]
           true true (Demo.float_of 0).

(** The probe of [Demo] with an entry that names no parameter. *)
Definition probe_and_more : gmap string PyVal :=
  <["unused" := VStr "abc"]> Demo.probe.

(** The optimum of [Demo], with a whole number for the integer
    parameter. *)
Definition whole_optimum : gmap string PyVal :=
  <["n" := VNdarray [VFloat64 (Fin (inject_Z 3))]]> Demo.optimum.








(** Where the write-back of the optimum of [Demo] leaves the driver,
    from the state in which the optimizer works. *)
Definition written_back : St (gmap string PyVal) :=
  snd (finish_run Demo.host Demo.traits (mkSolution Demo.optimum "done")
                  Demo.running).

End Cases.

(** [self.pyOpt_solution] is the same. *)
Definition solution_kept {H} (st st' : St H) : Prop :=
  pyOpt_solution (self st') = pyOpt_solution (self st).

(** Lines 88-108 for one parameter, in the host state [h]: its values
    are read, the first one is taken, and the kind is decided. *)
Definition kind_of_parameter {H} (h : H) (item : string * ParameterObj H)
  : Res (vartype * PyVal) :=
  res_bind (par_evaluate (snd item) h) (fun values =>
  res_bind (first_value values) (fun val =>
  classify (fst item) (get_metadata (snd item)) val)).

(** The contract of [get_constraints()] without argument: it lists every
    equality and every inequality constraint. *)
Definition lists_all_constraints {H} (host : Host H) : Prop :=
  forall item,
    In item (get_eq_constraints host ++ get_ineq_constraints host)%list ->
    In item (get_constraints host None).

(** What [objfunc] may leave in the log: writes of parameters, runs of
    the model, and the prints of its handler. *)
Definition objfunc_event (ev : Event) : Prop :=
  match ev with
  | EvRunIteration | EvSetParameter _ _ | EvPrint _ | EvTraceback _ => True
  | _ => False
  end.

(** What [gradfunc] may leave in the log: gradient calls, and the prints
    of its handler. *)
Definition gradfunc_event (ev : Event) : Prop :=
  match ev with
  | EvCalcGradient _ _ | EvPrint _ | EvTraceback _ => True
  | _ => False
  end.

(** What the end of [execute] may leave in the log. *)
Definition finish_event (ev : Event) : Prop :=
  match ev with
  | EvPrintSolution _ | EvSetParameter _ _ | EvRunIteration => True
  | _ => False
  end.

(** [opt.setOption(option, value)] for every item of [self.options]. *)
Definition option_events (options : list (string * PyVal)) : list Event :=
  map (fun item => EvSetOption (fst item) (snd item)) options.

(** The [sens] argument that [execute] passes, by [self.pyopt_diff]. *)
Definition sens_of (traits : Traits) : SensArg :=
  if pyopt_diff traits then sens_FD (fd_step traits) else sens_gradfunc.



(* ===================================================================== *)
(** * Reasoning about the monad *)
(* ===================================================================== *)

Local Open Scope list_scope.

Section MonadFacts.

Context {S : Type}.

Lemma bind_Ok_inv {A B} (m : M S A) (k : A -> M S B) s b s'' :
  bind m k s = (Ok b, s'') ->
  exists a s', m s = (Ok a, s') /\ k a s' = (Ok b, s'').
Proof.
  unfold bind. destruct (m s) as [[a|e] s'] eqn:Hm; intros Heq.
  - exists a, s'. split; [reflexivity | exact Heq].
  - discriminate.
Qed.

Lemma for_each_cons {X} (x : X) l (body : X -> M S unit) s :
  for_each (x :: l) body s =
  match body x s with
  | (Ok _, s') => for_each l body s'
  | (Raise e, s') => (Raise e, s')
  end.
Proof. reflexivity. Qed.

(** A relation between the state before and after that is reflexive,
    transitive and kept by every round of a loop is kept by the loop,
    whatever its outcome. *)
Lemma for_each_preserves {X} (P : S -> S -> Prop) (body : X -> M S unit) l :
  (forall s, P s s) ->
  (forall s1 s2 s3, P s1 s2 -> P s2 s3 -> P s1 s3) ->
  (forall x s r s', In x l -> body x s = (r, s') -> P s s') ->
  forall s r s', for_each l body s = (r, s') -> P s s'.
Proof.
  intros Hrefl Htrans. induction l as [|x l IH]; intros Hbody s r s' Hrun.
  - inversion Hrun; subst. apply Hrefl.
  - rewrite for_each_cons in Hrun.
    destruct (body x s) as [[[]|e] s1] eqn:Hx.
    + eapply Htrans.
      * eapply Hbody; [left; reflexivity | exact Hx].
      * eapply IH; [| exact Hrun].
        intros y t r' t' Hin. apply Hbody. right. exact Hin.
    + inversion Hrun; subst. eapply Hbody; [left; reflexivity | exact Hx].
Qed.

End MonadFacts.

(* ===================================================================== *)
(** * The kind of a parameter *)
(* ===================================================================== *)

(** The [elif] chain decides on the class of the value alone. *)
Lemma classify_by_value_spec name val :
  classify_by_value name val =
  match type_ val with
  | ty_bool => Ok (vt_d, VList [VBool true; VBool false])
  | ty_int | ty_int32 | ty_int64 => Ok (vt_i, VList [])
  | ty_float | ty_float32 | ty_float64 => Ok (vt_c, VList [])
  | _ => Raise (mkExc ValueError (unsupported_msg name val))
  end.
Proof. destruct val; reflexivity. Qed.

Lemma classify_no_values name metadata val :
  metadata !! "values" = None ->
  classify name metadata val = classify_by_value name val.
Proof. intros Hm. unfold classify. rewrite Hm. reflexivity. Qed.

(** A list or a tuple of choices makes the parameter discrete, whatever
    its value. *)
Lemma classify_choice_list name metadata val l :
  metadata !! "values" = Some (VList l) ->
  classify name metadata val = Ok (vt_d, VList l).
Proof. intros Hm. unfold classify. rewrite Hm. reflexivity. Qed.

Lemma classify_choice_tuple name metadata val l :
  metadata !! "values" = Some (VTuple l) ->
  classify name metadata val = Ok (vt_d, VTuple l).
Proof. intros Hm. unfold classify. rewrite Hm. reflexivity. Qed.

(** Any other object under the key ['values'] stops the test at
    [numpy.array]. *)
Lemma classify_values_not_a_sequence name metadata val mv :
  metadata !! "values" = Some mv ->
  type_ mv <> ty_list -> type_ mv <> ty_tuple ->
  classify name metadata val = Raise (mkExc TypeError isinstance_msg).
Proof.
  intros Hm Hl Ht. unfold classify. rewrite Hm.
  destruct mv; simpl in *; try reflexivity; congruence.
Qed.

Lemma classify_bool name metadata val :
  metadata !! "values" = None -> type_ val = ty_bool ->
  classify name metadata val = Ok (vt_d, VList [VBool true; VBool false]).
Proof.
  intros Hm Ht. rewrite classify_no_values, classify_by_value_spec, Ht;
    [reflexivity | exact Hm].
Qed.

Lemma classify_int name metadata val :
  metadata !! "values" = None -> is_int_type (type_ val) = true ->
  classify name metadata val = Ok (vt_i, VList []).
Proof.
  intros Hm Ht. rewrite classify_no_values, classify_by_value_spec by exact Hm.
  destruct (type_ val); simpl in Ht; try discriminate; reflexivity.
Qed.

Lemma classify_float name metadata val :
  metadata !! "values" = None -> is_float_type (type_ val) = true ->
  classify name metadata val = Ok (vt_c, VList []).
Proof.
  intros Hm Ht. rewrite classify_no_values, classify_by_value_spec by exact Hm.
  destruct (type_ val); simpl in Ht; try discriminate; reflexivity.
Qed.

Lemma classify_other name metadata val :
  metadata !! "values" = None ->
  type_ val <> ty_bool -> is_int_type (type_ val) = false ->
  is_float_type (type_ val) = false ->
  classify name metadata val = Raise (mkExc ValueError (unsupported_msg name val)).
Proof.
  intros Hm Hb Hi Hf.
  rewrite classify_no_values, classify_by_value_spec by exact Hm.
  destruct (type_ val); simpl in Hi, Hf; try discriminate;
    try reflexivity; congruence.
Qed.

(** The rule at work. *)
Example classify_examples :
  classify "b" ∅ (VBool true) = Ok (vt_d, VList [VBool true; VBool false]) /\
  classify "n" ∅ (VInt64 3) = Ok (vt_i, VList []) /\
  classify "x" ∅ (VFloat32 (Fin 1)) = Ok (vt_c, VList []) /\
  classify "e" {["values" := VTuple [VInt 1; VInt 2]]} (VFloat (Fin 1))
    = Ok (vt_d, VTuple [VInt 1; VInt 2]) /\
  classify "s" ∅ (VStr "a")
    = Raise (mkExc ValueError
        "Only continuous, discrete, or enumerated variables are supported. s is <type 'str'>.").
Proof. repeat split. Qed.

(** With only [SLSQP] and [SNOPT] importable from [pyOpt], these two are
    offered, in the order of the list. *)
Example check_imports_example :
  _check_imports (fun name => String.eqb name "SNOPT" || String.eqb name "SLSQP")
  = ["SLSQP"; "SNOPT"].
Proof. reflexivity. Qed.

(** One round of the loop over the parameters. *)
Lemma add_parameter_spec {H} name (param : ParameterObj H) st fr :
  add_parameter (name, param) (st, fr) =
  match par_evaluate param (host_state st) with
  | Raise e => (Raise e, (st, fr))
  | Ok values =>
      match first_value values with
      | Raise e => (Raise e, (st, fr))
      | Ok val =>
          match classify name (get_metadata param) val with
          | Raise e => (Raise e, (st, fr))
          | Ok (kind, choices) =>
              (Ok tt, registered name param values kind choices st fr)
          end
      end
  end.
Proof.
  unfold add_parameter, bind, on_self, read, lift_res. destruct st as [h sf lg].
  simpl. destruct (par_evaluate param h) as [values|e]; [|reflexivity].
  destruct (first_value values) as [val|e]; [|reflexivity].
  destruct (classify name (get_metadata param) val) as [[kind choices]|e];
    reflexivity.
Qed.

(* ===================================================================== *)
(** * The loops of [execute] *)
(* ===================================================================== *)

(** The loop over the parameters: it reads the host, records the kinds
    and appends one group per parameter. *)
Lemma add_parameters_inv {H} (params : list (string * ParameterObj H)) :
  forall st fr st' fr',
  for_each params add_parameter (st, fr) = (Ok tt, (st', fr')) ->
  host_state st' = host_state st /\ log st' = log st /\
  exists groups,
    Forall2 (var_group_of (host_state st)) params groups /\
    self st' = set_param_type (record_kinds groups (param_type (self st)))
                              (self st) /\
    op_title (opt_prob fr') = op_title (opt_prob fr) /\
    op_vars (opt_prob fr') = op_vars (opt_prob fr) ++ groups /\
    op_objs (opt_prob fr') = op_objs (opt_prob fr) /\
    op_cons (opt_prob fr') = op_cons (opt_prob fr) /\
    param_list fr' = param_list fr ++ map fst params /\
    nlcons_ fr' = nlcons_ fr.
Proof.
  induction params as [|[name param] params IH]; intros st fr st' fr' Hrun.
  - inversion Hrun; subst. repeat split; try reflexivity.
    exists []. rewrite !app_nil_r.
    repeat split; try constructor. destruct (self st'); reflexivity.
  - rewrite for_each_cons, add_parameter_spec in Hrun.
    destruct (par_evaluate param (host_state st)) as [values|e] eqn:Hev;
      [|discriminate].
    destruct (first_value values) as [val|e] eqn:Hval; [|discriminate].
    destruct (classify name (get_metadata param) val) as [[kind choices]|e]
      eqn:Hk; [|discriminate].
    unfold registered in Hrun. apply IH in Hrun. simpl in Hrun.
    destruct Hrun as (Hh & Hl & groups & HF & Hty & Ht & Hv & Ho & Hc & Hp & Hn).
    repeat split; try assumption.
    eexists (_ :: groups). split; [|split; [|repeat split]].
    + constructor; [|exact HF].
      exists values, val, kind, choices. simpl. repeat split; assumption.
    + rewrite Hty. reflexivity.
    + exact Ht.
    + rewrite Hv, <- app_assoc. reflexivity.
    + exact Ho.
    + exact Hc.
    + rewrite Hp, <- app_assoc. reflexivity.
    + exact Hn.
Qed.

(** The loop over the objectives only appends their names. *)
Lemma add_objectives_spec {H} (objectives : list (string * ObjectiveObj H)) :
  forall (st : St H) fr,
  for_each objectives add_objective (st, fr) =
  (Ok tt, (st, mkFrame
     (mkOptimization (op_title (opt_prob fr)) (op_vars (opt_prob fr))
        (op_objs (opt_prob fr) ++
           map (fun item => out0 (obj_pcomp_name (snd item))) objectives)
        (op_cons (opt_prob fr)))
     (param_list fr) (nlcons_ fr))).
Proof.
  induction objectives as [|[key obj] objectives IH]; intros st fr.
  - simpl. rewrite app_nil_r. destruct fr as [[] ? ?]. reflexivity.
  - rewrite for_each_cons. simpl. rewrite IH. simpl.
    rewrite <- app_assoc. reflexivity.
Qed.

(** One round of the loops over the constraints. *)
Lemma add_eq_constraint_spec {H} key (con : ConstraintObj H) (st : St H) fr :
  add_eq_constraint (key, con) (st, fr) =
  let name := out0 (con_pcomp_name con) in
  let z := Some (zeros (con_size con)) in
  if is_True (con_linear con) then
    match lin_jacs (self st) !! name with
    | Some jac =>
        (Ok tt, (st, on_opt_prob (addConGroup
           (mkConGroup name (con_size con) z z true
                       (Some (param_list fr)) (Some jac))) fr))
    | None => (Raise (mkExc KeyError ("'" +:+ name +:+ "'")), (st, fr))
    end
  else
    (Ok tt, (st, nlcons_append name (on_opt_prob (addConGroup
       (mkConGroup name (con_size con) z z false None None)) fr))).
Proof.
  unfold add_eq_constraint, out0. simpl.
  destruct (is_True (con_linear con)); [|reflexivity].
  unfold bind, get_local, on_self, get_self, gets, getitem. simpl.
  destruct (lin_jacs (self st) !! _); reflexivity.
Qed.

Lemma add_ineq_constraint_spec {H} key (con : ConstraintObj H) (st : St H) fr :
  add_ineq_constraint (key, con) (st, fr) =
  let name := out0 (con_pcomp_name con) in
  let z := Some (zeros (con_size con)) in
  if is_True (con_linear con) then
    match lin_jacs (self st) !! name with
    | Some jac =>
        (Ok tt, (st, on_opt_prob (addConGroup
           (mkConGroup name (con_size con) None z true
                       (Some (param_list fr)) (Some jac))) fr))
    | None => (Raise (mkExc KeyError ("'" +:+ name +:+ "'")), (st, fr))
    end
  else
    (Ok tt, (st, nlcons_append name (on_opt_prob (addConGroup
       (mkConGroup name (con_size con) None z false None None)) fr))).
Proof.
  unfold add_ineq_constraint, out0. simpl.
  destruct (is_True (con_linear con)); [|reflexivity].
  unfold bind, get_local, on_self, get_self, gets, getitem. simpl.
  destruct (lin_jacs (self st) !! _); reflexivity.
Qed.

(** Both loops over the constraints: the state is left alone, one group
    is appended per constraint and the nonlinear names are collected. *)
Lemma add_constraints_inv {H} (equality : bool)
    (body : string * ConstraintObj H -> M (St H * ExecuteFrame) unit) :
  body = (if equality then add_eq_constraint else add_ineq_constraint) ->
  forall cons (st : St H) fr st' fr',
  for_each cons body (st, fr) = (Ok tt, (st', fr')) ->
  st' = st /\
  exists groups,
    Forall2 (con_group_of equality (lin_jacs (self st)) (param_list fr))
            cons groups /\
    op_title (opt_prob fr') = op_title (opt_prob fr) /\
    op_vars (opt_prob fr') = op_vars (opt_prob fr) /\
    op_objs (opt_prob fr') = op_objs (opt_prob fr) /\
    op_cons (opt_prob fr') = op_cons (opt_prob fr) ++ groups /\
    param_list fr' = param_list fr /\
    nlcons_ fr' = nlcons_ fr ++ nonlinear_names cons.
Proof.
  intros Hbody. induction cons as [|[key con] cons IH]; intros st fr st' fr' Hrun.
  - inversion Hrun; subst. split; [reflexivity|].
    exists []. rewrite !app_nil_r. repeat split; constructor.
  - rewrite for_each_cons in Hrun.
    assert (Hstep : (exists g,
      con_group_of equality (lin_jacs (self st)) (param_list fr) (key, con) g /\
      body (key, con) (st, fr) =
        (Ok tt, (st, mkFrame (addConGroup g (opt_prob fr)) (param_list fr)
                   (nlcons_ fr ++ nonlinear_names [(key, con)])))) \/
      exists e s, body (key, con) (st, fr) = (Raise e, s)).
    { subst body. unfold con_group_of, nonlinear_names. simpl.
      destruct equality;
        [rewrite add_eq_constraint_spec | rewrite add_ineq_constraint_spec];
        simpl; destruct (is_True (con_linear con)); simpl;
        try destruct (lin_jacs (self st) !! out0 (con_pcomp_name con)) eqn:Hj;
        try (right; eauto; fail);
        left; eexists; (split; [eauto | rewrite ?app_nil_r; reflexivity]). }
    destruct Hstep as [(g & Hg & Hb) | (e & s & Hb)]; rewrite Hb in Hrun;
      [|discriminate].
    apply IH in Hrun. simpl in Hrun.
    destruct Hrun as (-> & groups & HF & Ht & Hv & Ho & Hc & Hp & Hn).
    split; [reflexivity|].
    exists (g :: groups). repeat split; try assumption.
    + constructor; assumption.
    + rewrite Hc, <- app_assoc. reflexivity.
    + rewrite Hn, <- app_assoc. unfold nonlinear_names. simpl.
      destruct (is_True (con_linear con)); reflexivity.
Qed.

(** The gradient of the linear constraints: one call when there are
    any, none otherwise. *)
Lemma save_linear_jacobians_spec {H} (host : Host H) (st : St H) fr :
  save_linear_jacobians host (st, fr) =
  match get_constraints host (Some true) with
  | [] => (Ok tt, (st, fr))
  | _ :: _ =>
      let lcon_names :=
        map (fun obj => out0 (con_pcomp_name obj))
            (map snd (get_constraints host (Some true))) in
      let ev := EvCalcGradient (param_list fr) lcon_names in
      match host_calc_gradient host (param_list fr) lcon_names (host_state st) with
      | (Ok jacs, h') =>
          (Ok tt, (mkSt h' (set_lin_jacs jacs (self st)) (log st ++ [ev]), fr))
      | (Raise e, h') =>
          (Raise e, (mkSt h' (self st) (log st ++ [ev]), fr))
      end
  end.
Proof.
  unfold save_linear_jacobians.
  destruct (get_constraints host (Some true)) as [|c lcons]; [reflexivity|].
  cbn [length Nat.ltb Nat.leb].
  unfold bind, get_local, on_self, calc_gradient, call, out0.
  destruct (host_calc_gradient host _ _ _) as [[jacs|e] h']; reflexivity.
Qed.

Ltac bind_inv H :=
  let a := fresh "a" in
  let s := fresh "s" in
  let H1 := fresh "Hstep" in
  apply bind_Ok_inv in H as (a & s & H1 & H);
  try match type of a with unit => destruct a end.

(** What a completed set-up has done: one evaluation cycle, one group per
    parameter, the objectives, at most one gradient call for the linear
    constraints, one group per constraint, and the attributes. *)
Lemma setup_problem_inv {H} (host : Host H) st fr st' fr' :
  setup_problem host (st, fr) = (Ok tt, (st', fr')) ->
  let wrt := param_list fr ++ map fst (get_parameters host) in
  let lcons := get_constraints host (Some true) in
  let lcon_names := map (fun obj => out0 (con_pcomp_name obj)) (map snd lcons) in
  exists h1 vgroups eqg ineqg,
    host_run_iteration host (host_state st) = (Ok tt, h1) /\
    Forall2 (var_group_of h1) (get_parameters host) vgroups /\
    (match lcons with
     | [] => host_state st' = h1 /\ lin_jacs (self st') = lin_jacs (self st) /\
             log st' = log st ++ [EvRunIteration]
     | _ :: _ =>
         host_calc_gradient host wrt lcon_names h1 =
           (Ok (lin_jacs (self st')), host_state st') /\
         log st' = log st ++ [EvRunIteration; EvCalcGradient wrt lcon_names]
     end) /\
    Forall2 (con_group_of true (lin_jacs (self st')) wrt)
            (get_eq_constraints host) eqg /\
    Forall2 (con_group_of false (lin_jacs (self st')) wrt)
            (get_ineq_constraints host) ineqg /\
    op_title (opt_prob fr') = op_title (opt_prob fr) /\
    op_vars (opt_prob fr') = op_vars (opt_prob fr) ++ vgroups /\
    op_objs (opt_prob fr') = op_objs (opt_prob fr) ++
       map (fun item => out0 (obj_pcomp_name (snd item))) (get_objectives host) /\
    op_cons (opt_prob fr') = op_cons (opt_prob fr) ++ eqg ++ ineqg /\
    param_list fr' = wrt /\
    nlcons_ fr' = nlcons_ fr ++ nonlinear_names (get_eq_constraints host) ++
                  nonlinear_names (get_ineq_constraints host) /\
    self st' = mkSelf None (record_kinds vgroups ∅)
                 (Some (total_parameters host))
                 (Some (list_objective_targets host))
                 (Some (nlcons_ fr')) (lin_jacs (self st')).
Proof.
  intros Hrun wrt lcons lcon_names. unfold setup_problem in Hrun.
  destruct st as [h0 sf0 lg0].
  bind_inv Hrun. inversion Hstep; subst; clear Hstep.
  bind_inv Hrun.
  unfold on_self, run_iteration, call in Hstep. simpl in Hstep.
  destruct (host_run_iteration host h0) as [r1 h1] eqn:Hrun1.
  inversion Hstep; subst; clear Hstep.
  bind_inv Hrun. inversion Hstep; subst; clear Hstep.
  bind_inv Hrun. inversion Hstep; subst; clear Hstep.
  bind_inv Hrun. destruct s as [st2 fr2]. apply add_parameters_inv in Hstep.
  simpl in Hstep.
  destruct Hstep as (Hh2 & Hl2 & vgroups & HFv & Hsf2 & Ht2 & Hv2 & Ho2 & Hc2 & Hp2 & Hn2).
  bind_inv Hrun. rewrite add_objectives_spec in Hstep.
  inversion Hstep; subst; clear Hstep.
  bind_inv Hrun. destruct s as [st3 fr3].
  rewrite save_linear_jacobians_spec in Hstep.
  bind_inv Hrun. destruct s as [st4 fr4].
  apply (add_constraints_inv true _ eq_refl) in Hstep0.
  destruct Hstep0 as (-> & eqg & HFe & Ht4 & Hv4 & Ho4 & Hc4 & Hp4 & Hn4).
  bind_inv Hrun. destruct s as [st5 fr5].
  apply (add_constraints_inv false _ eq_refl) in Hstep0.
  destruct Hstep0 as (-> & ineqg & HFi & Ht5 & Hv5 & Ho5 & Hc5 & Hp5 & Hn5).
  bind_inv Hrun. inversion Hstep0; subst; clear Hstep0.
  bind_inv Hrun. inversion Hstep0; subst; clear Hstep0.
  inversion Hrun; subst; clear Hrun.
  destruct st2 as [h2 sf2 lg2]. simpl in Hrun1, Hl2, Hsf2, HFv. subst lg2 sf2.
  exists h2, vgroups, eqg, ineqg.
  assert (Hfr3 : opt_prob fr3 =
            mkOptimization (op_title (opt_prob fr2)) (op_vars (opt_prob fr2))
               (op_objs (opt_prob fr2) ++
                  map (fun item => out0 (obj_pcomp_name (snd item)))
                      (get_objectives host))
               (op_cons (opt_prob fr2)) /\
          param_list fr3 = param_list fr2 /\ nlcons_ fr3 = nlcons_ fr2).
  { destruct (get_constraints host (Some true)); simpl in Hstep.
    - inversion Hstep; subst. auto.
    - destruct (host_calc_gradient host _ _ _) as [[jacs|e] h'];
        inversion Hstep; subst. auto. }
  destruct Hfr3 as (Hop3 & Hp3 & Hn3).
  rewrite Hp5, Hp4, Hp3, Hp2 in *. fold wrt in HFe, HFi |- *.
  split; [exact Hrun1|]. split; [exact HFv|].
  split.
  { subst lcon_names lcons.
    destruct (get_constraints host (Some true)) as [|c cs]; simpl in Hstep.
    - inversion Hstep; subst. simpl. auto.
    - fold wrt in Hstep.
      destruct (host_calc_gradient host _ _ _) as [[jacs|e] h'];
        inversion Hstep; subst. simpl. rewrite <- app_assoc. auto. }
  simpl. split; [exact HFe|]. split; [exact HFi|].
  rewrite Ht5, Ht4, Hv5, Hv4, Ho5, Ho4, Hc5, Hc4, Hn5, Hn4, Hop3, Hn3, Hn2.
  simpl. rewrite Ho2, <- !app_assoc.
  repeat split; try assumption.
  - rewrite Hc2. reflexivity.
  - destruct (get_constraints host (Some true)); simpl in Hstep.
    + inversion Hstep; subst. reflexivity.
    + destruct (host_calc_gradient host _ _ _) as [[jacs|e] h'];
        inversion Hstep; subst. reflexivity.
Qed.

(* ===================================================================== *)
(** * The callbacks *)
(* ===================================================================== *)

Section Preserves.

Context {S : Type} (P : S -> S -> Prop).
Hypothesis P_refl : forall s, P s s.
Hypothesis P_trans : forall s1 s2 s3, P s1 s2 -> P s2 s3 -> P s1 s3.

Lemma preserves_ret {A} (a : A) : preserves P (ret a).
Proof. intros s r s' Heq. inversion Heq; subst. apply P_refl. Qed.

Lemma preserves_raise {A} e : preserves P (raise (A := A) e).
Proof. intros s r s' Heq. inversion Heq; subst. apply P_refl. Qed.

Lemma preserves_lift_res {A} (x : Res A) : preserves P (lift_res x).
Proof. intros s r s' Heq. inversion Heq; subst. apply P_refl. Qed.

Lemma preserves_gets {A} (f : S -> A) : preserves P (gets f).
Proof. intros s r s' Heq. inversion Heq; subst. apply P_refl. Qed.

Lemma preserves_getitem {A} (d : gmap string A) key : preserves P (getitem d key).
Proof.
  unfold getitem. destruct (d !! key); [apply preserves_ret | apply preserves_raise].
Qed.

Lemma preserves_bind {A B} (m : M S A) (k : A -> M S B) :
  preserves P m -> (forall a, preserves P (k a)) -> preserves P (bind m k).
Proof.
  intros Hm Hk s r s'' Heq. unfold bind in Heq.
  destruct (m s) as [[a|e] s'] eqn:Hms.
  - eapply P_trans; [eapply Hm; exact Hms | eapply Hk; exact Heq].
  - inversion Heq; subst. eapply Hm; exact Hms.
Qed.

Lemma preserves_for_each {X} (l : list X) (body : X -> M S unit) :
  (forall x, preserves P (body x)) -> preserves P (for_each l body).
Proof.
  intros Hbody s r s'. apply for_each_preserves; try assumption.
  intros x t r' t' _. apply Hbody.
Qed.

End Preserves.

Section Callbacks.

Context {H : Type}.
Variable host : Host H.
Variable array : PyVal -> PyVal.

(** The gradient callback, outcome by outcome of the host's
    differentiation. *)
Lemma gradfunc_spec dv_dict func_dict (st : St H) :
  gradfunc host dv_dict func_dict st =
  match objs (self st), nlcons (self st) with
  | Some o, Some n =>
      let ev := EvCalcGradient (keys dv_dict) (o ++ n) in
      match host_calc_gradient host (keys dv_dict) (o ++ n) (host_state st) with
      | (Ok sens_dict, h') =>
          (Ok (sens_dict, 0%Z), mkSt h' (self st) (log st ++ [ev]))
      | (Raise e, h') =>
          if is_Exception (exc_class e) then
            (Ok (∅, 1%Z), mkSt h' (self st) (log st ++ ev :: traceback_report e))
          else
            (Raise e, mkSt h' (self st) (log st ++ [ev]))
      end
  | o, n =>
      (Ok (∅, 1%Z), logged (traceback_report (list_add_error o n)) st)
  end.
Proof.
  unfold gradfunc, try_except_Exception, gradfunc_try, bind, on_self, get_self,
    gets, list_add, calc_gradient, call, set_local, print_traceback, emit,
    modify, logged, traceback_report. simpl.
  destruct (objs (self st)) as [o|], (nlcons (self st)) as [n|]; simpl;
    try reflexivity.
  destruct (host_calc_gradient host _ _ _) as [[J|e] h']; simpl;
    [reflexivity|].
  destruct (is_Exception (exc_class e)); simpl; [|reflexivity].
  rewrite <- app_assoc. reflexivity.
Qed.

End Callbacks.

(* ===================================================================== *)
(** * What the methods leave in the log and in the attributes *)
(* ===================================================================== *)

Lemma emits_refl {H} ok (st : St H) : emits ok st st.
Proof. exists []. rewrite app_nil_r. split; [reflexivity | constructor]. Qed.

Lemma emits_trans {H} ok (s1 s2 s3 : St H) :
  emits ok s1 s2 -> emits ok s2 s3 -> emits ok s1 s3.
Proof.
  intros (e1 & H1 & F1) (e2 & H2 & F2). exists (e1 ++ e2).
  rewrite H2, H1, app_assoc. split; [reflexivity | apply Forall_app; auto].
Qed.

Lemma emits_weaken {H} (ok ok' : Event -> Prop) (st st' : St H) :
  (forall ev, ok ev -> ok' ev) -> emits ok st st' -> emits ok' st st'.
Proof.
  intros Himp (evs & Hl & HF). exists evs. split; [exact Hl|].
  eapply Forall_impl; eassumption.
Qed.

Lemma on_fst_refl {S L} (P : S -> S -> Prop) :
  (forall s, P s s) -> forall a : S * L, on_fst P a a.
Proof. intros Hr a. apply Hr. Qed.

Lemma on_fst_trans {S L} (P : S -> S -> Prop) :
  (forall s1 s2 s3, P s1 s2 -> P s2 s3 -> P s1 s3) ->
  forall a b c : S * L, on_fst P a b -> on_fst P b c -> on_fst P a c.
Proof. intros Ht a b c. apply Ht. Qed.

Lemma preserves_on_self {S L A} (P : S -> S -> Prop) (m : M S A) :
  preserves P m -> preserves (on_fst (L := L) P) (on_self m).
Proof.
  intros Hm [s l] r [s' l'] Heq. unfold on_self in Heq.
  destruct (m s) as [r0 s0] eqn:Hms. inversion Heq; subst.
  eapply Hm. exact Hms.
Qed.

Lemma preserves_get_local {S L} (P : S -> S -> Prop) :
  (forall s, P s s) -> preserves (on_fst P) (get_local (S := S) (L := L)).
Proof. intros Hr [s l] r [s' l'] Heq. inversion Heq; subst. apply Hr. Qed.

Lemma preserves_set_local {S L} (P : S -> S -> Prop) (f : L -> L) :
  (forall s, P s s) -> preserves (on_fst P) (set_local (S := S) f).
Proof. intros Hr [s l] r [s' l'] Heq. inversion Heq; subst. apply Hr. Qed.

Section LogFacts.

Context {H : Type}.
Variable host : Host H.
Variable ok : Event -> Prop.

Lemma emits_call ev {A} (f : H -> Res A * H) :
  ok ev -> preserves (emits ok) (call ev f).
Proof.
  intros Hok st r st' Heq. unfold call in Heq.
  destruct (f (host_state st)) as [r0 h']. inversion Heq; subst.
  exists [ev]. split; [reflexivity | repeat constructor; exact Hok].
Qed.

Lemma emits_set_self f : preserves (emits (H := H) ok) (set_self f).
Proof.
  intros st r st' Heq. inversion Heq; subst. exists []. simpl.
  rewrite app_nil_r. split; [reflexivity | constructor].
Qed.

Lemma emits_get_self {A} (f : Self -> A) : preserves (emits (H := H) ok) (get_self f).
Proof. intros st r st' Heq. inversion Heq; subst. apply emits_refl. Qed.

Lemma emits_read {A} (f : H -> Res A) : preserves (emits ok) (read f).
Proof. intros st r st' Heq. inversion Heq; subst. apply emits_refl. Qed.

End LogFacts.

(** Closing a goal [preserves P m] by the shape of [m]. *)
Ltac preserves_step Hrefl Htrans :=
  match goal with
  | |- preserves _ (bind _ _) =>
      apply preserves_bind; [exact Htrans | | intros ?]
  | |- preserves _ (ret _) => apply preserves_ret; exact Hrefl
  | |- preserves _ (raise _) => apply preserves_raise; exact Hrefl
  | |- preserves _ (raise_exception _ _) => apply preserves_raise; exact Hrefl
  | |- preserves _ (lift_res _) => apply preserves_lift_res; exact Hrefl
  | |- preserves _ (getitem _ _) => apply preserves_getitem; exact Hrefl
  | |- preserves _ (for_each _ _) =>
      apply preserves_for_each; [exact Hrefl | exact Htrans | intros ?]
  | |- preserves _ (match ?x with _ => _ end) => destruct x
  end.

Section SetupLog.

Context {H : Type}.
Variable host : Host H.

Let quiet (ev : Event) : Prop := is_solver_event ev = false.

Let Q_refl := on_fst_refl (L := ExecuteFrame) (emits (H := H) quiet) (emits_refl quiet).
Let Q_trans := on_fst_trans (L := ExecuteFrame) (emits (H := H) quiet) (emits_trans quiet).

Ltac quiet_frame :=
  repeat first
    [ preserves_step Q_refl Q_trans
    | apply preserves_get_local; exact (emits_refl quiet)
    | apply preserves_set_local; exact (emits_refl quiet)
    | apply preserves_on_self;
      first [ apply emits_set_self | apply emits_get_self | apply emits_read
            | apply emits_call; reflexivity ] ].

(** Nothing in the set-up touches an optimizer. *)
Lemma setup_problem_quiet :
  preserves (on_fst (emits quiet)) (setup_problem host).
Proof.
  unfold setup_problem, save_linear_jacobians.
  quiet_frame.
  - unfold add_parameter. quiet_frame.
  - unfold add_objective. quiet_frame.
  - unfold add_eq_constraint. quiet_frame.
  - unfold add_ineq_constraint. quiet_frame.
Qed.

End SetupLog.

(* ===================================================================== *)
(** * Configuration errors *)
(* ===================================================================== *)

(** C1, at the input where the code departs from it: a parameter whose
    metadata gives its choices as a set (or as an array) is not
    registered as discrete.  The test of line 95 reaches [numpy.array],
    which is a function and no class, before it reaches [set], so
    [isinstance] raises a [TypeError]; [execute] ends with it after the
    first evaluation cycle, with nothing registered and no optimizer
    touched. *)
Theorem C1_choice_set_raises_TypeError :
  classify "k" {["values" := VSet [VInt 1; VInt 2; VInt 3]]} (VInt 1)
    = Raise (mkExc TypeError isinstance_msg) /\
  classify "k" {["values" := VNdarray [VInt 1; VInt 2; VInt 3]]} (VInt 1)
    = Raise (mkExc TypeError isinstance_msg) /\
  fst (execute Demo.host_with_choice_set Demo.traits Demo.installation
               Demo.array Demo.start)
    = Raise (mkExc TypeError isinstance_msg) /\
  log (snd (execute Demo.host_with_choice_set Demo.traits
                    Demo.installation Demo.array Demo.start))
    = [EvRunIteration].
Proof. repeat split; vm_compute; reflexivity. Qed.

(** C5: when the selected optimizer cannot be imported, [execute] ends
    with an exception and the log shows no optimizer instantiated, no
    option set and no optimizer called; when the problem description was
    built, the exception is the [ImportError] whose message names the
    optimizer, raised in the state the set-up left. *)
Theorem C5_unavailable_optimizer {H} (host : Host H) traits
    from_pyoptsparse_import array (st : St H) :
  from_pyoptsparse_import (optimizer traits) = None ->
  exists e st',
    execute host traits from_pyoptsparse_import array st = (Raise e, st') /\
    emits (fun ev => is_solver_event ev = false) st st' /\
    forall st1 fr1,
      setup_problem host (st, execute_frame traits) = (Ok tt, (st1, fr1)) ->
      e = mkExc ImportError (unavailable_msg (optimizer traits)) /\ st' = st1.
Proof.
  intros Himp. unfold execute, bind.
  destruct (setup_problem host (st, execute_frame traits))
    as [[[]|e] [st1 fr1]] eqn:Hsetup.
  - unfold on_self at 1, instantiate_optimizer, bind. rewrite Himp.
    cbn [raise_exception raise].
    eexists _, st1. split; [reflexivity|]. split.
    + apply (setup_problem_quiet host) in Hsetup. exact Hsetup.
    + intros st1' fr1' Heq. inversion Heq; subst. split; reflexivity.
  - exists e, st1. split; [reflexivity|]. split.
    + apply (setup_problem_quiet host) in Hsetup. exact Hsetup.
    + intros st1' fr1' Heq. discriminate.
Qed.

Lemma C5_unavailable_optimizer_witness :
  exists e st',
    execute Demo.host Demo.traits_SNOPT Demo.installation Demo.array
            Demo.start = (Raise e, st') /\
    emits (fun ev => is_solver_event ev = false) Demo.start st' /\
    forall st1 fr1,
      setup_problem Demo.host (Demo.start, execute_frame Demo.traits_SNOPT)
        = (Ok tt, (st1, fr1)) ->
      e = mkExc ImportError (unavailable_msg "SNOPT") /\ st' = st1.
Proof.
  apply (C5_unavailable_optimizer Demo.host Demo.traits_SNOPT
           Demo.installation Demo.array Demo.start).
  reflexivity.
Defined.

Example unavailable_optimizer_on_Demo :
  fst (execute Demo.host Demo.traits_SNOPT Demo.installation
               Demo.array Demo.start)
  = Raise (mkExc ImportError
             "Optimizer SNOPT is not available in this installation.").
Proof. vm_compute. reflexivity. Qed.

(* ===================================================================== *)
(** * The variable groups *)
(* ===================================================================== *)

Lemma Forall2_In_left {A B} (R : A -> B -> Prop) l l' x :
  Forall2 R l l' -> In x l -> exists y, In y l' /\ R x y.
Proof.
  induction 1 as [|a b l l' Hab HF IH]; intros Hin; [destruct Hin|].
  destruct Hin as [->|Hin].
  - exists b. split; [left; reflexivity | exact Hab].
  - destruct (IH Hin) as (y & Hy & HR). exists y. split; [right|]; assumption.
Qed.

(** C10: for a parameter without ['values'] in its metadata whose value
    vector is [v :: rest], one round of the loop over the parameters
    decides on [v] alone: the outcome of the [elif] chain on [v] is the
    kind of the whole group, which is registered with all of
    [v :: rest] as its value and their number as its size; the elements
    of [rest] play no part in the kind, and a vector of mixed classes is
    registered all the same. *)
Theorem C10_kind_from_first_value {H} name (param : ParameterObj H)
    (st : St H) fr v rest :
  get_metadata param !! "values" = None ->
  par_evaluate param (host_state st) = Ok (v :: rest) ->
  add_parameter (name, param) (st, fr) =
  match classify_by_value name v with
  | Ok (kind, choices) =>
      (Ok tt, registered name param (v :: rest) kind choices st fr)
  | Raise e => (Raise e, (st, fr))
  end.
Proof.
  intros Hmeta Hvalues. rewrite add_parameter_spec, Hvalues.
  cbn [first_value]. rewrite classify_no_values by exact Hmeta.
  destruct (classify_by_value name v) as [[kind choices]|e]; reflexivity.
Qed.

Lemma C10_kind_from_first_value_witness :
  add_parameter ("mixed", Demo.mixed)
                (Demo.start, execute_frame Demo.traits) =
  match classify_by_value "mixed" (Demo.float_of 1) with
  | Ok (kind, choices) =>
      (Ok tt, registered "mixed" Demo.mixed
                [Demo.float_of 1; VStr "abc"] kind choices
                Demo.start (execute_frame Demo.traits))
  | Raise e => (Raise e, (Demo.start, execute_frame Demo.traits))
  end.
Proof.
  apply (C10_kind_from_first_value "mixed" Demo.mixed Demo.start
           (execute_frame Demo.traits) (Demo.float_of 1) [VStr "abc"]);
    reflexivity.
Defined.

(** The mixed vector of the model is registered as continuous. *)
Example mixed_vector_is_continuous :
  classify_by_value "mixed" (Demo.float_of 1) = Ok (vt_c, VList []).
Proof. reflexivity. Qed.

(** C7: when the set-up of [execute] completes, every parameter that is
    continuous (no ['values'] in its metadata, a first value of a
    floating-point class) has its variable group among those of the
    problem: kind ['c'], the parameter's own lower and upper bounds, the
    values read after the first evaluation cycle, and as many variables
    as there are values. *)
Theorem C7_continuous_group {H} (host : Host H) traits (st st' : St H) fr'
    h1 name param values val :
  setup_problem host (st, execute_frame traits) = (Ok tt, (st', fr')) ->
  host_run_iteration host (host_state st) = (Ok tt, h1) ->
  In (name, param) (get_parameters host) ->
  par_evaluate param h1 = Ok values ->
  first_value values = Ok val ->
  get_metadata param !! "values" = None ->
  is_float_type (type_ val) = true ->
  In (mkVarGroup name (length values) vt_c (get_low param) (get_high param)
                 values (VList []))
     (op_vars (opt_prob fr')).
Proof.
  intros Hsetup Hrun Hin Hvalues Hval Hmeta Hfloat.
  apply setup_problem_inv in Hsetup.
  destruct Hsetup as (h1' & vgroups & eqg & ineqg & Hrun' & HFv & _ & _ & _ & _
                      & Hvars & _).
  rewrite Hrun in Hrun'. inversion Hrun'; subst h1'.
  destruct (Forall2_In_left _ _ _ _ HFv Hin) as (g & Hg & Hof).
  destruct Hof as (values' & val' & kind & choices & Hev & Hfv & Hk & ->).
  simpl in Hev, Hfv, Hk |- *.
  rewrite Hvalues in Hev. inversion Hev; subst values'.
  rewrite Hval in Hfv. inversion Hfv; subst val'.
  rewrite (classify_float _ _ _ Hmeta Hfloat) in Hk. inversion Hk; subst.
  rewrite Hvars. simpl. exact Hg.
Qed.

Lemma C7_continuous_group_witness :
  In (mkVarGroup "x" 1 vt_c (Demo.float_of (-50)) (Demo.float_of 50)
                 [Demo.float_of 1] (VList []))
     (op_vars (opt_prob (snd Demo.after_setup))).
Proof.
  apply (C7_continuous_group Demo.host Demo.traits Demo.start
           (fst Demo.after_setup) (snd Demo.after_setup)
           (host_state Demo.start) "x" Demo.x
           [Demo.float_of 1] (Demo.float_of 1)).
  - vm_compute. reflexivity.
  - reflexivity.
  - left. reflexivity.
  - vm_compute. reflexivity.
  - reflexivity.
  - reflexivity.
  - reflexivity.
Defined.

(* ===================================================================== *)
(** * The constraint groups *)
(* ===================================================================== *)

Lemma con_group_of_fields {H} equality jacs wrt (item : string * ConstraintObj H) g :
  con_group_of equality jacs wrt item g ->
  cg_name g = out0 (con_pcomp_name (snd item)) /\
  cg_nCon g = con_size (snd item) /\
  cg_lower g = (if equality then Some (zero_vector (con_size (snd item)))
                else None) /\
  cg_upper g = Some (zero_vector (con_size (snd item))) /\
  cg_linear g = is_True (con_linear (snd item)) /\
  (if is_True (con_linear (snd item)) then
     cg_wrt g = Some wrt /\
     exists jac, jacs !! out0 (con_pcomp_name (snd item)) = Some jac /\
                 cg_jac g = Some jac
   else cg_wrt g = None /\ cg_jac g = None).
Proof.
  unfold con_group_of. destruct (is_True (con_linear (snd item))).
  - intros (jac & Hj & ->). simpl. repeat split. exists jac. auto.
  - intros ->. simpl. repeat split.
Qed.

Lemma nonlinear_names_In {H} (cons : list (string * ConstraintObj H)) item :
  In item cons -> is_True (con_linear (snd item)) = false ->
  In (out0 (con_pcomp_name (snd item))) (nonlinear_names cons).
Proof.
  intros Hin Hlin. unfold nonlinear_names.
  apply (in_map (fun item => out0 (con_pcomp_name (snd item)))).
  apply filter_In. split; [exact Hin|]. rewrite Hlin. reflexivity.
Qed.

(** C9: when the set-up of [execute] completes, every equality
    constraint of size [n] has a group in the problem, under its output
    name and of size [n], whose lower and upper bounds are both the
    length-[n] zero vector, and every inequality constraint of size [n]
    has a group with no lower bound and the length-[n] zero vector as
    upper bound. *)
Theorem C9_constraint_bounds {H} (host : Host H) traits (st st' : St H) fr' :
  setup_problem host (st, execute_frame traits) = (Ok tt, (st', fr')) ->
  (forall key con, In (key, con) (get_eq_constraints host) ->
     exists g, In g (op_cons (opt_prob fr')) /\
       cg_name g = out0 (con_pcomp_name con) /\
       cg_nCon g = con_size con /\
       cg_lower g = Some (zero_vector (con_size con)) /\
       cg_upper g = Some (zero_vector (con_size con))) /\
  (forall key con, In (key, con) (get_ineq_constraints host) ->
     exists g, In g (op_cons (opt_prob fr')) /\
       cg_name g = out0 (con_pcomp_name con) /\
       cg_nCon g = con_size con /\
       cg_lower g = None /\
       cg_upper g = Some (zero_vector (con_size con))).
Proof.
  intros Hsetup. apply setup_problem_inv in Hsetup.
  destruct Hsetup as (h1 & vgroups & eqg & ineqg & _ & _ & _ & HFe & HFi & _
                      & _ & _ & Hcons & _).
  simpl in Hcons. split; intros key con Hin.
  - destruct (Forall2_In_left _ _ _ _ HFe Hin) as (g & Hg & Hof).
    apply con_group_of_fields in Hof. simpl in Hof.
    destruct Hof as (Hn & Hs & Hlo & Hup & _).
    exists g. rewrite Hcons. repeat split; try assumption.
    apply in_or_app. left. exact Hg.
  - destruct (Forall2_In_left _ _ _ _ HFi Hin) as (g & Hg & Hof).
    apply con_group_of_fields in Hof. simpl in Hof.
    destruct Hof as (Hn & Hs & Hlo & Hup & _).
    exists g. rewrite Hcons. repeat split; try assumption.
    apply in_or_app. right. exact Hg.
Qed.

Lemma C9_constraint_bounds_witness :
  (forall key con, In (key, con) (get_eq_constraints Demo.host) ->
     exists g,
       In g (op_cons (opt_prob (snd Demo.after_setup))) /\
       cg_name g = out0 (con_pcomp_name con) /\
       cg_nCon g = con_size con /\
       cg_lower g = Some (zero_vector (con_size con)) /\
       cg_upper g = Some (zero_vector (con_size con))) /\
  (forall key con, In (key, con) (get_ineq_constraints Demo.host) ->
     exists g,
       In g (op_cons (opt_prob (snd Demo.after_setup))) /\
       cg_name g = out0 (con_pcomp_name con) /\
       cg_nCon g = con_size con /\
       cg_lower g = None /\
       cg_upper g = Some (zero_vector (con_size con))).
Proof.
  apply (C9_constraint_bounds Demo.host Demo.traits Demo.start
           (fst Demo.after_setup)).
  vm_compute. reflexivity.
Defined.

(** C6: when the set-up of [execute] completes on a host whose
    [get_constraints(linear=True)] lists the constraints flagged linear,
    then for every registered constraint:
    - if it is flagged linear, the set-up has made exactly two calls into
      the host, the first evaluation cycle and one gradient call with
      respect to the parameters whose outputs include the constraint,
      and the constraint's entry of that gradient is the Jacobian of its
      group, registered as linear with respect to the parameters;
    - otherwise its group has no Jacobian and its name is in
      [self.nlcons].
    And every call of [gradfunc] in the state the set-up leaves asks the
    host for the gradient of [self.objs + self.nlcons], so of every
    nonlinear constraint, with respect to the keys of its design point. *)
Theorem C6_linear_jacobians {H} (host : Host H) traits (st st' : St H) fr' :
  setup_problem host (st, execute_frame traits) = (Ok tt, (st', fr')) ->
  lists_linear_constraints host ->
  (forall item,
     In item (get_eq_constraints host ++ get_ineq_constraints host) ->
     let name := out0 (con_pcomp_name (snd item)) in
     let wrt := map fst (get_parameters host) in
     if is_True (con_linear (snd item)) then
       exists of_ h1 jacs jac g,
         log st' = log st ++ [EvRunIteration; EvCalcGradient wrt of_] /\
         In name of_ /\
         host_run_iteration host (host_state st) = (Ok tt, h1) /\
         host_calc_gradient host wrt of_ h1 = (Ok jacs, host_state st') /\
         jacs !! name = Some jac /\
         In g (op_cons (opt_prob fr')) /\ cg_name g = name /\
         cg_linear g = true /\ cg_wrt g = Some wrt /\ cg_jac g = Some jac
     else
       exists g nl,
         In g (op_cons (opt_prob fr')) /\ cg_name g = name /\
         cg_linear g = false /\ cg_wrt g = None /\ cg_jac g = None /\
         nlcons (self st') = Some nl /\ In name nl) /\
  (exists o nl,
     objs (self st') = Some o /\ nlcons (self st') = Some nl /\
     forall dv_dict func_dict (st2 : St H),
       self st2 = self st' ->
       exists evs,
         log (snd (gradfunc host dv_dict func_dict st2)) =
         log st2 ++ EvCalcGradient (keys dv_dict) (o ++ nl) :: evs).
Proof.
  intros Hsetup Hcontract. apply setup_problem_inv in Hsetup.
  destruct Hsetup as (h1 & vgroups & eqg & ineqg & Hrun & _ & Hlin & HFe & HFi
                      & _ & _ & _ & Hcons & Hwrt & Hnl & Hself).
  simpl in Hcons, Hnl, Hwrt. split.
  - intros item Hin name wrt.
    assert (Hg : exists equality g,
               In g (op_cons (opt_prob fr')) /\
               con_group_of equality (lin_jacs (self st'))
                 (map fst (get_parameters host)) item g).
    { rewrite Hcons. apply in_app_or in Hin. destruct Hin as [Hin|Hin].
      - destruct (Forall2_In_left _ _ _ _ HFe Hin) as (g & Hg & Hof).
        exists true, g. split; [apply in_or_app; left|]; assumption.
      - destruct (Forall2_In_left _ _ _ _ HFi Hin) as (g & Hg & Hof).
        exists false, g. split; [apply in_or_app; right|]; assumption. }
    destruct Hg as (equality & g & Hg & Hof).
    apply con_group_of_fields in Hof.
    destruct Hof as (Hname & _ & _ & _ & Hl & Hjac).
    destruct (is_True (con_linear (snd item))) eqn:Hflag.
    + destruct Hjac as (Hw & jac & Hj & Hgj).
      pose proof (Hcontract item Hin Hflag) as Hlisted.
      destruct (get_constraints host (Some true)) as [|c lcons] eqn:Hlcons;
        [destruct Hlisted|].
      destruct Hlin as (Hcg & Hlog).
      eexists _, h1, (lin_jacs (self st')), jac, g.
      split; [exact Hlog|]. split.
      { apply (in_map snd) in Hlisted.
        apply (in_map (fun obj => out0 (con_pcomp_name obj))) in Hlisted.
        exact Hlisted. }
      repeat split; assumption.
    + destruct Hjac as (Hw & Hgj).
      exists g, (nlcons_ fr'). repeat split; try assumption.
      * rewrite Hself. reflexivity.
      * rewrite Hnl. apply in_app_or in Hin.
        apply in_or_app. destruct Hin as [Hin|Hin]; [left|right];
          apply (nonlinear_names_In _ item Hin Hflag).
  - clear Hlin HFe HFi Hrun.
    exists (list_objective_targets host), (nlcons_ fr').
    split; [rewrite Hself; reflexivity|]. split; [rewrite Hself; reflexivity|].
    intros dv_dict func_dict st2 Hst2. rewrite gradfunc_spec, Hst2, Hself.
    cbn [objs nlcons].
    destruct (host_calc_gradient host _ _ _) as [[J|e] h']; simpl.
    + exists []. reflexivity.
    + destruct (is_Exception (exc_class e)); simpl; eexists; reflexivity.
Qed.

Lemma Demo_lists_linear_constraints : lists_linear_constraints Demo.host.
Proof.
  intros item [<-|[<-|[]]] Hflag; [left; reflexivity | discriminate].
Qed.

Lemma C6_linear_jacobians_witness :
  (forall item,
     In item (get_eq_constraints Demo.host ++ get_ineq_constraints Demo.host) ->
     let name := out0 (con_pcomp_name (snd item)) in
     let wrt := map fst (get_parameters Demo.host) in
     if is_True (con_linear (snd item)) then
       exists of_ h1 jacs jac g,
         log (fst Demo.after_setup) =
           log Demo.start ++ [EvRunIteration; EvCalcGradient wrt of_] /\
         In name of_ /\
         host_run_iteration Demo.host (host_state Demo.start) = (Ok tt, h1) /\
         host_calc_gradient Demo.host wrt of_ h1 =
           (Ok jacs, host_state (fst Demo.after_setup)) /\
         jacs !! name = Some jac /\
         In g (op_cons (opt_prob (snd Demo.after_setup))) /\ cg_name g = name /\
         cg_linear g = true /\ cg_wrt g = Some wrt /\ cg_jac g = Some jac
     else
       exists g nl,
         In g (op_cons (opt_prob (snd Demo.after_setup))) /\ cg_name g = name /\
         cg_linear g = false /\ cg_wrt g = None /\ cg_jac g = None /\
         nlcons (self (fst Demo.after_setup)) = Some nl /\ In name nl) /\
  (exists o nl,
     objs (self (fst Demo.after_setup)) = Some o /\
     nlcons (self (fst Demo.after_setup)) = Some nl /\
     forall dv_dict func_dict (st2 : St (gmap string PyVal)),
       self st2 = self (fst Demo.after_setup) ->
       exists evs,
         log (snd (gradfunc Demo.host dv_dict func_dict st2)) =
         log st2 ++ EvCalcGradient (keys dv_dict) (o ++ nl) :: evs).
Proof.
  apply (C6_linear_jacobians Demo.host Demo.traits Demo.start
           (fst Demo.after_setup) (snd Demo.after_setup)).
  - vm_compute. reflexivity.
  - exact Demo_lists_linear_constraints.
Defined.

(* ===================================================================== *)
(** * The objective callback *)
(* ===================================================================== *)

Lemma frame_kept_refl {S L} (a : S * L) : frame_kept a a.
Proof. reflexivity. Qed.

Lemma frame_kept_trans {S L} (a b c : S * L) :
  frame_kept a b -> frame_kept b c -> frame_kept a c.
Proof. unfold frame_kept. congruence. Qed.

Lemma on_self_frame_kept {S L A} (m : M S A) :
  preserves (frame_kept (L := L)) (on_self m).
Proof.
  intros [s l] r [s' l'] Heq. unfold on_self in Heq.
  destruct (m s) as [r0 s0]. inversion Heq; subst. reflexivity.
Qed.

Section ObjfuncFacts.

Context {H : Type}.
Variable host : Host H.
Variable array : PyVal -> PyVal.

Lemma store_output_spec pcomp_name evaluate (st : St H) l :
  store_output array pcomp_name evaluate (st, l) =
  match evaluate (host_state st) with
  | Ok v => (Ok tt, (st, mkCallbackFrame
                           (<[out0 pcomp_name := array v]> (cb_dict l))
                           (cb_fail l)))
  | Raise e => (Raise e, (st, l))
  end.
Proof.
  unfold store_output, bind, on_self, read, set_local.
  destruct (evaluate (host_state st)); reflexivity.
Qed.

(** A loop of [store_output]: the object is left alone, the flag too,
    and when the loop completes the dictionary has gained the names. *)
Lemma store_outputs_inv {X} (name_of : X -> string) (eval_of : X -> H -> Res PyVal)
    (body : X -> M (St H * CallbackFrame (gmap string PyVal)) unit) :
  (forall x, body x = store_output array (name_of x) (eval_of x)) ->
  forall items (st : St H) l r st' l',
  for_each items body (st, l) = (r, (st', l')) ->
  st' = st /\ cb_fail l' = cb_fail l /\
  (r = Ok tt ->
   dom (cb_dict l') =
   dom (cb_dict l) ∪ list_to_set (map (fun x => out0 (name_of x)) items)).
Proof.
  intros Hbody. induction items as [|x items IH]; intros st l r st' l' Hrun.
  - inversion Hrun; subst. repeat split. intros _. simpl.
    rewrite union_empty_r_L. reflexivity.
  - rewrite for_each_cons, Hbody, store_output_spec in Hrun.
    destruct (eval_of x (host_state st)) as [v|e].
    + apply IH in Hrun. simpl in Hrun. destruct Hrun as (-> & Hf & Hd).
      repeat split; [exact Hf|]. intros Hr. rewrite (Hd Hr).
      rewrite dom_insert_L. simpl.
      rewrite (comm_L (∪) {[out0 (name_of x)]} (dom (cb_dict l))).
      rewrite <- (assoc_L (∪)). reflexivity.
    + inversion Hrun; subst. repeat split. intros Hr. discriminate.
Qed.

End ObjfuncFacts.

Section ObjfuncContract.

Context {H : Type}.
Variable host : Host H.
Variable array : PyVal -> PyVal.

(** The body of the [try]: the flag is set to 0 by its last statement
    only, and by then the dictionary has one entry per output name. *)
Lemma objfunc_try_frame dv_dict (st : St H) l r st' l' :
  objfunc_try host array dv_dict (st, l) = (r, (st', l')) ->
  match r with
  | Ok _ => cb_fail l' = 0%Z /\
            dom (cb_dict l') = dom (cb_dict l) ∪ list_to_set (output_names host)
  | Raise _ => cb_fail l' = cb_fail l
  end.
Proof.
  unfold objfunc_try. unfold bind at 1. cbn [on_self get_self gets].
  unfold bind at 1.
  destruct (for_each (get_parameters host) _ (st, l)) as [r1 [s1 l1]] eqn:H1.
  assert (Hl1 : l1 = l).
  { eapply (preserves_for_each frame_kept frame_kept_refl frame_kept_trans)
      in H1; [exact H1|]. intros x. apply on_self_frame_kept. }
  subst l1. destruct r1 as [[]|e]; [|intros Heq; inversion Heq; subst; reflexivity].
  unfold bind at 1.
  destruct (on_self (run_iteration host) (s1, l)) as [r2 [s2 l2]] eqn:H2.
  apply on_self_frame_kept in H2. unfold frame_kept in H2. simpl in H2. subst l2.
  destruct r2 as [[]|e]; [|intros Heq; inversion Heq; subst; reflexivity].
  unfold bind at 1.
  destruct (for_each (get_objectives host) _ (s2, l)) as [r3 [s3 l3]] eqn:H3.
  apply (store_outputs_inv array (fun item => obj_pcomp_name (snd item))
           (fun item => obj_evaluate (snd item))) in H3;
    [|intros [key obj]; reflexivity].
  destruct H3 as (-> & Hf3 & Hd3).
  destruct r3 as [[]|e]; [|intros Heq; inversion Heq; subst; exact Hf3].
  unfold bind at 1.
  destruct (for_each (get_constraints host None) _ (s2, l3)) as [r4 [s4 l4]] eqn:H4.
  apply (store_outputs_inv array (fun item => con_pcomp_name (snd item))
           (fun item => con_evaluate (snd item))) in H4;
    [|intros [key con]; reflexivity].
  destruct H4 as (-> & Hf4 & Hd4).
  destruct r4 as [[]|e]; [|intros Heq; inversion Heq; subst; congruence].
  intros Heq. inversion Heq; subst. simpl. split; [reflexivity|].
  rewrite (Hd4 eq_refl), (Hd3 eq_refl). unfold output_names.
  rewrite list_to_set_app_L, (assoc_L (∪)). reflexivity.
Qed.


(** C2, as amended: [objfunc] has three outcomes, decided by the body of
    its [try].
    - The body completes: the flag is 0 and the dictionary has exactly
      the output names of the registered objectives and constraints as
      keys.
    - The body raises an instance of [Exception]: the exception is
      caught, the handler prints its message and the traceback between
      two rules, and the flag is 1.
    - The body raises an exception that is no instance of [Exception]
      ([KeyboardInterrupt], [SystemExit]): it leaves the callback. *)
Theorem C2_objfunc_contract dv_dict (st : St H) :
  match objfunc host array dv_dict st with
  | (Ok (func_dict, fail), st') =>
      (fail = 0%Z /\
       dom func_dict = list_to_set (output_names host) /\
       objfunc_try host array dv_dict (st, mkCallbackFrame ∅ 1%Z) =
         (Ok tt, (st', mkCallbackFrame func_dict 0%Z))) \/
      (fail = 1%Z /\
       exists e st1,
         is_Exception (exc_class e) = true /\
         objfunc_try host array dv_dict (st, mkCallbackFrame ∅ 1%Z) =
           (Raise e, (st1, mkCallbackFrame func_dict 1%Z)) /\
         st' = logged (traceback_report e) st1)
  | (Raise e, st') =>
      is_Exception (exc_class e) = false /\
      exists l,
        objfunc_try host array dv_dict (st, mkCallbackFrame ∅ 1%Z) =
          (Raise e, (st', l))
  end.
Proof.
  unfold objfunc, try_except_Exception.
  destruct (objfunc_try host array dv_dict (st, mkCallbackFrame ∅ 1%Z))
    as [r [st1 l1]] eqn:Htry.
  pose proof (objfunc_try_frame _ _ _ _ _ _ Htry) as Hframe.
  destruct r as [[]|e].
  - left. destruct Hframe as (Hfail & Hdom). simpl in Hdom.
    rewrite dom_empty_L, union_empty_l_L in Hdom.
    destruct l1 as [func_dict fail]. simpl in *. subst fail. auto.
  - destruct (is_Exception (exc_class e)) eqn:Hexc.
    + right. simpl. destruct l1 as [func_dict fail]. simpl in *. subst fail.
      split; [reflexivity|]. exists e, st1. auto.
    + split; [exact Hexc|]. exists l1. reflexivity.
Qed.

End ObjfuncContract.

(** C2, as stated, fails: a [KeyboardInterrupt] raised while the model
    runs leaves [objfunc]; the callback returns no pair at all. *)
Lemma C2_exception_escapes_objfunc :
  fst (objfunc Demo.interrupted_host Demo.array Demo.probe Demo.running)
    = Raise (mkExc KeyboardInterrupt "") /\
  ~ exists func_dict fail st',
      objfunc Demo.interrupted_host Demo.array Demo.probe Demo.running
      = (Ok (func_dict, fail), st').
Proof.
  assert (Hfst : fst (objfunc Demo.interrupted_host Demo.array Demo.probe
                              Demo.running)
                 = Raise (mkExc KeyboardInterrupt "")).
  { vm_compute. reflexivity. }
  split; [exact Hfst|].
  intros (func_dict & fail & st' & Heq). rewrite Heq in Hfst. discriminate.
Qed.

(* ===================================================================== *)
(** * The gradient callback *)
(* ===================================================================== *)

(** C8, as amended.  Every call of [gradfunc] makes one request to the
    host's [calc_gradient], for the outputs [self.objs + self.nlcons]
    with respect to the keys of the design point, and has one of three
    outcomes, decided by the host's computation:
    - it returns: flag 0, with the dictionary of dictionaries that it
      returned;
    - it raises an instance of [Exception]: the exception is caught, the
      handler prints its message and the traceback between two rules,
      and the flag is 1 with an empty dictionary;
    - it raises an exception that is no instance of [Exception]
      ([KeyboardInterrupt], [SystemExit]): the exception leaves the
      callback.
    As long as [execute] has not set [self.objs] and [self.nlcons], the
    request cannot be made: the sum raises a [TypeError], which is
    handled as in the second case.  Once the set-up of [execute] has
    completed, the outputs requested are the objective targets of the
    host followed by the names of all its nonlinear constraints, the
    equality constraints first; this holds in every state with the
    attributes that the set-up left, as are all the states in which the
    optimizer calls. *)
Theorem C8_gradfunc_contract {H} (host : Host H) :
  (forall dv_dict func_dict (st : St H),
     gradfunc host dv_dict func_dict st =
     match objs (self st), nlcons (self st) with
     | Some o, Some n =>
         let wrt := keys dv_dict in
         let of_ := o ++ n in
         match host_calc_gradient host wrt of_ (host_state st) with
         | (Ok sens_dict, h') =>
             (Ok (sens_dict, 0%Z),
              mkSt h' (self st) (log st ++ [EvCalcGradient wrt of_]))
         | (Raise e, h') =>
             if is_Exception (exc_class e) then
               (Ok (∅, 1%Z),
                mkSt h' (self st)
                     (log st ++ EvCalcGradient wrt of_ :: traceback_report e))
             else
               (Raise e, mkSt h' (self st) (log st ++ [EvCalcGradient wrt of_]))
         end
     | o, n =>
         (Ok (∅, 1%Z), logged (traceback_report (list_add_error o n)) st)
     end) /\
  (forall traits (st0 st1 : St H) fr1 dv_dict func_dict (st : St H),
     setup_problem host (st0, execute_frame traits) = (Ok tt, (st1, fr1)) ->
     self st = self st1 ->
     let wrt := keys dv_dict in
     let of_ := list_objective_targets host ++
                nonlinear_names (get_eq_constraints host) ++
                nonlinear_names (get_ineq_constraints host) in
     gradfunc host dv_dict func_dict st =
     match host_calc_gradient host wrt of_ (host_state st) with
     | (Ok sens_dict, h') =>
         (Ok (sens_dict, 0%Z),
          mkSt h' (self st) (log st ++ [EvCalcGradient wrt of_]))
     | (Raise e, h') =>
         if is_Exception (exc_class e) then
           (Ok (∅, 1%Z),
            mkSt h' (self st)
                 (log st ++ EvCalcGradient wrt of_ :: traceback_report e))
         else
           (Raise e, mkSt h' (self st) (log st ++ [EvCalcGradient wrt of_]))
     end).
Proof.
  split.
  - intros dv_dict func_dict st. rewrite gradfunc_spec.
    destruct (objs (self st)), (nlcons (self st)); reflexivity.
  - intros traits st0 st1 fr1 dv_dict func_dict st Hsetup Hself.
    apply setup_problem_inv in Hsetup.
    destruct Hsetup as (h1 & vgroups & eqg & ineqg & _ & _ & _ & _ & _
                        & _ & _ & _ & _ & _ & Hnl & Hst1).
    simpl in Hnl. rewrite gradfunc_spec, Hself, Hst1. cbn [objs nlcons].
    rewrite Hnl. reflexivity.
Qed.

Lemma C8_gradfunc_contract_witness :
  let wrt := keys Demo.probe in
  let of_ := list_objective_targets Demo.host ++
             nonlinear_names (get_eq_constraints Demo.host) ++
             nonlinear_names (get_ineq_constraints Demo.host) in
  gradfunc Demo.host Demo.probe Cases.probe_dict Demo.running =
  match host_calc_gradient Demo.host wrt of_ (host_state Demo.running) with
  | (Ok sens_dict, h') =>
      (Ok (sens_dict, 0%Z),
       mkSt h' (self Demo.running)
            (log Demo.running ++ [EvCalcGradient wrt of_]))
  | (Raise e, h') =>
      if is_Exception (exc_class e) then
        (Ok (∅, 1%Z),
         mkSt h' (self Demo.running)
              (log Demo.running ++ EvCalcGradient wrt of_ :: traceback_report e))
      else
        (Raise e, mkSt h' (self Demo.running)
                       (log Demo.running ++ [EvCalcGradient wrt of_]))
  end.
Proof.
  apply (proj2 (C8_gradfunc_contract Demo.host) Demo.traits Demo.start
           (fst Demo.after_setup) (snd Demo.after_setup)).
  - vm_compute. reflexivity.
  - vm_compute. reflexivity.
Defined.

(** On the model, the request is for the objective and the nonlinear
    inequality constraint, with respect to the two parameters. *)
Example gradfunc_on_Demo :
  log (snd (gradfunc Demo.host Demo.probe Cases.probe_dict Demo.running))
  = log Demo.running ++
    [EvCalcGradient (keys Demo.probe) ["_pseudo_0.out0"; "_pseudo_2.out0"]] /\
  (exists sens_dict,
     fst (gradfunc Demo.host Demo.probe Cases.probe_dict Demo.running)
     = Ok (sens_dict, 0%Z)).
Proof. split; [|eexists]; vm_compute; reflexivity. Qed.

(** C8, as stated, fails: a [KeyboardInterrupt] raised while the host
    differentiates leaves [gradfunc]. *)
Lemma C8_exception_escapes_gradfunc :
  fst (gradfunc Demo.interrupted_gradient_host Demo.probe ∅ Demo.running)
    = Raise (mkExc KeyboardInterrupt "") /\
  ~ exists sens_dict fail st',
      gradfunc Demo.interrupted_gradient_host Demo.probe ∅ Demo.running
      = (Ok (sens_dict, fail), st').
Proof.
  assert (Hfst : fst (gradfunc Demo.interrupted_gradient_host Demo.probe ∅
                               Demo.running)
                 = Raise (mkExc KeyboardInterrupt "")).
  { vm_compute. reflexivity. }
  split; [exact Hfst|].
  intros (sens_dict & fail & st' & Heq). rewrite Heq in Hfst. discriminate.
Qed.

(* ===================================================================== *)
(** * Rounding *)
(* ===================================================================== *)



Lemma Qtruncate_inject_Z z : Qtruncate (inject_Z z) = z.
Proof.
  unfold Qtruncate. destruct (Qle_bool 0 (inject_Z z)).
  - apply Qfloor_Z.
  - apply Qceiling_Z.
Qed.


(* ===================================================================== *)
(** * Writing the design variables into the host *)
(* ===================================================================== *)

Lemma only_logs_refl {H} ok (st : St H) : only_logs ok st st.
Proof. split; [reflexivity | apply emits_refl]. Qed.

Lemma only_logs_trans {H} ok (s1 s2 s3 : St H) :
  only_logs ok s1 s2 -> only_logs ok s2 s3 -> only_logs ok s1 s3.
Proof.
  intros [K1 E1] [K2 E2]. split.
  - unfold self_kept in *. congruence.
  - eapply emits_trans; eassumption.
Qed.

Lemma only_logs_weaken {H} (ok ok' : Event -> Prop) (st st' : St H) :
  (forall ev, ok ev -> ok' ev) -> only_logs ok st st' -> only_logs ok' st st'.
Proof. intros Himp [K E]. split; [exact K | eapply emits_weaken; eassumption]. Qed.

Lemma only_logs_logged {H} (ok : Event -> Prop) evs (st : St H) :
  Forall ok evs -> only_logs ok st (logged evs st).
Proof. intros Hok. split; [reflexivity | exists evs; auto]. Qed.

Section WriteBack.

Context {H : Type}.
Variable host : Host H.

Lemma only_logs_call ok ev {A} (f : H -> Res A * H) :
  ok ev -> preserves (only_logs ok) (call ev f).
Proof.
  intros Hok st r st' Heq. split; [|eapply emits_call; eassumption].
  unfold call in Heq. destruct (f (host_state st)) as [r0 h'].
  inversion Heq; subst. reflexivity.
Qed.

Lemma only_logs_read ok {A} (f : H -> Res A) : preserves (only_logs ok) (read f).
Proof. intros st r st' Heq. inversion Heq; subst. apply only_logs_refl. Qed.

Lemma only_logs_emit ok evs :
  Forall ok evs -> preserves (only_logs (H := H) ok) (emit evs).
Proof.
  intros Hok st r st' Heq. inversion Heq; subst.
  apply (only_logs_logged ok evs st Hok).
Qed.

(** One round of the loop that pulls the design variables, lines
    192-197; the loop of lines 230-235 is the same text. *)
Lemma execute_set_parameter_spec dv_dict types name p (st : St H) :
  execute_set_parameter host dv_dict types (name, p) st =
  match dv_dict !! name with
  | None => (Raise (mkExc KeyError ("'" +:+ name +:+ "'")), st)
  | Some v =>
      match types !! name with
      | None => (Raise (mkExc KeyError ("'" +:+ name +:+ "'")), st)
      | Some kind =>
          match (if vartype_eqb kind vt_i then int_round v else Ok v) with
          | Raise e => (Raise e, st)
          | Ok w =>
              let '(r, h') :=
                host_set_parameter_by_name host name w (host_state st) in
              (r, mkSt h' (self st) (log st ++ [EvSetParameter name w]))
          end
      end
  end.
Proof.
  unfold execute_set_parameter, bind, getitem.
  destruct (dv_dict !! name) as [v|]; [|reflexivity]. cbn [ret].
  destruct (types !! name) as [kind|]; [|reflexivity]. cbn [ret].
  destruct (vartype_eqb kind vt_i); cbn [lift_res ret].
  - destruct (int_round v); reflexivity.
  - reflexivity.
Qed.

Lemma objfunc_set_parameter_same :
  objfunc_set_parameter host = execute_set_parameter host.
Proof. reflexivity. Qed.

Lemma execute_set_parameter_logs dv_dict types item :
  preserves (only_logs (writes_pulled dv_dict types))
            (execute_set_parameter host dv_dict types item).
Proof.
  destruct item as [name p]. intros st r st' Heq.
  rewrite execute_set_parameter_spec in Heq.
  destruct (dv_dict !! name) as [v|] eqn:Hv;
    [|inversion Heq; subst; apply only_logs_refl].
  destruct (types !! name) as [kind|] eqn:Hk;
    [|inversion Heq; subst; apply only_logs_refl].
  destruct (if vartype_eqb kind vt_i then int_round v else Ok v) as [w|e] eqn:Hw;
    [|inversion Heq; subst; apply only_logs_refl].
  destruct (host_set_parameter_by_name host name w (host_state st)) as [r0 h'].
  inversion Heq; subst. split; [reflexivity|].
  exists [EvSetParameter name w]. split; [reflexivity|].
  repeat constructor. exists v, kind. repeat split; try assumption.
  destruct (vartype_eqb kind vt_i); [exact Hw | congruence].
Qed.

(** The loop that pulls the design variables, when it completes on a
    host that keeps the contract of [current]. *)
Lemma pull_loop_inv dv_dict types current :
  observes_parameters host current ->
  forall params (st st' : St H),
  List.NoDup (map fst params) ->
  for_each params (execute_set_parameter host dv_dict types) st = (Ok tt, st') ->
  self st' = self st /\
  exists vals,
    Forall2 (fun item w => pulled dv_dict types (fst item) w /\
                           current (host_state st') (fst item) = Some w)
            params vals /\
    log st' = log st ++ write_events (map fst params) vals /\
    forall other, ~ In other (map fst params) ->
                  current (host_state st') other = current (host_state st) other.
Proof.
  intros [Hset Hrun_law]. induction params as [|[name p] params IH];
    intros st st' Hnodup Hrun.
  - inversion Hrun; subst. split; [reflexivity|]. exists [].
    split; [constructor|]. split; [simpl; rewrite app_nil_r; reflexivity|].
    reflexivity.
  - rewrite for_each_cons, execute_set_parameter_spec in Hrun.
    destruct (dv_dict !! name) as [v|] eqn:Hv; [|discriminate].
    destruct (types !! name) as [kind|] eqn:Hk; [|discriminate].
    destruct (if vartype_eqb kind vt_i then int_round v else Ok v) as [w|e] eqn:Hw;
      [|discriminate].
    destruct (host_set_parameter_by_name host name w (host_state st))
      as [[[]|e] h1] eqn:Hhost; [|discriminate].
    simpl in Hnodup. inversion Hnodup as [|? ? Hnotin Hnodup']; subst.
    apply IH in Hrun; [|exact Hnodup']. simpl in Hrun.
    destruct Hrun as (Hself & vals & HF & Hlog & Hother).
    destruct (Hset _ _ _ _ Hhost) as (Hnow & Hrest).
    split; [exact Hself|]. exists (w :: vals). split; [|split].
    + constructor; [|exact HF]. simpl. split.
      * exists v, kind. repeat split; try assumption.
        destruct (vartype_eqb kind vt_i); [exact Hw | congruence].
      * rewrite (Hother name Hnotin). exact Hnow.
    + rewrite Hlog, <- app_assoc. reflexivity.
    + intros other Hnot. simpl in Hnot.
      rewrite Hother by tauto. apply Hrest. intros ->. tauto.
Qed.

End WriteBack.

Section Runs.

Context {H : Type}.
Variable host : Host H.
Variable traits : Traits.
Variable from_pyoptsparse_import : string -> option Optimizer.
Variable array : PyVal -> PyVal.

(** Whatever its outcome, [objfunc] leaves the attributes alone and only
    writes what it pulled from the design point. *)
Lemma objfunc_only_logs dv_dict (st : St H) r st' :
  objfunc host array dv_dict st = (r, st') ->
  only_logs (writes_pulled dv_dict (param_type (self st))) st st'.
Proof.
  set (ok := writes_pulled dv_dict (param_type (self st))).
  pose proof (on_fst_refl (L := CallbackFrame (gmap string PyVal))
                (only_logs (H := H) ok) (only_logs_refl ok)) as OL_refl.
  pose proof (on_fst_trans (L := CallbackFrame (gmap string PyVal))
                (only_logs (H := H) ok) (only_logs_trans ok)) as OL_trans.
  unfold objfunc, try_except_Exception.
  destruct (objfunc_try host array dv_dict (st, mkCallbackFrame ∅ 1%Z))
    as [r0 [s1 l1]] eqn:Htry.
  assert (Hbody : only_logs ok st s1).
  { unfold objfunc_try in Htry. unfold bind at 1 in Htry.
    cbn [on_self get_self gets] in Htry.
    match type of Htry with
    | ?m _ = _ => assert (Hp : preserves (on_fst (only_logs ok)) m)
    end.
    { repeat first
        [ preserves_step OL_refl OL_trans
        | apply preserves_set_local; exact (only_logs_refl ok)
        | apply preserves_on_self;
          first [ apply execute_set_parameter_logs
                | apply only_logs_call; exact I
                | apply only_logs_read ]
        | progress unfold store_output ]. }
    apply Hp in Htry. exact Htry. }
  destruct r0 as [[]|e].
  - intros Heq. inversion Heq; subst. exact Hbody.
  - destruct (is_Exception (exc_class e)).
    + unfold print_traceback, on_self, emit, modify. intros Heq.
      inversion Heq; subst. eapply only_logs_trans; [exact Hbody|].
      apply (only_logs_logged ok (traceback_report e) s1).
      repeat constructor.
    + intros Heq. inversion Heq; subst. exact Hbody.
Qed.

(** Whatever its outcome, the end of [execute] only writes what it
    pulled from the solution. *)
Lemma finish_run_emits sol (st : St H) r st' :
  finish_run host traits sol st = (r, st') ->
  emits (writes_pulled (getDVs sol) (param_type (self st))) st st'.
Proof.
  set (ok := writes_pulled (getDVs sol) (param_type (self st))).
  assert (Hp : forall types, types = param_type (self st) ->
            preserves (emits (H := H) ok)
              (let* _ := for_each (get_parameters host)
                           (execute_set_parameter host (getDVs sol) types) in
               let* _ := run_iteration host in
               set_self (set_pyOpt_solution (Some sol)))).
  { intros types ->.
    repeat first
      [ preserves_step (emits_refl (H := H) ok) (emits_trans (H := H) ok)
      | apply emits_set_self
      | apply emits_call; exact I ].
    intros s r1 s' Heq. apply execute_set_parameter_logs in Heq. apply Heq. }
  unfold finish_run. unfold bind at 1.
  destruct (print_results traits); cbn [emit modify ret].
  - unfold bind at 1. cbn [get_self gets]. intros Heq.
    apply (Hp _ eq_refl) in Heq. eapply emits_trans; [|exact Heq].
    exists [EvPrintSolution sol]. split; [reflexivity | repeat constructor].
  - unfold bind at 1. cbn [get_self gets]. intros Heq.
    apply (Hp _ eq_refl) in Heq. exact Heq.
Qed.

(** The end of [execute] when it completes, on a host that keeps the
    contract of [current]. *)
Lemma finish_run_inv current sol (st st' : St H) :
  observes_parameters host current ->
  List.NoDup (map fst (get_parameters host)) ->
  finish_run host traits sol st = (Ok tt, st') ->
  pyOpt_solution (self st') = Some sol /\
  param_type (self st') = param_type (self st) /\
  exists vals,
    Forall2 (fun item w =>
               pulled (getDVs sol) (param_type (self st')) (fst item) w /\
               current (host_state st') (fst item) = Some w)
            (get_parameters host) vals /\
    log st' = log st ++
              (if print_results traits then [EvPrintSolution sol] else []) ++
              write_events (map fst (get_parameters host)) vals ++
              [EvRunIteration].
Proof.
  intros Hlaws Hnodup Hrun. unfold finish_run in Hrun.
  bind_inv Hrun.
  assert (Hs : s = logged (if print_results traits then [EvPrintSolution sol]
                           else []) st).
  { destruct (print_results traits); inversion Hstep; subst.
    - reflexivity.
    - unfold logged. rewrite app_nil_r. destruct s; reflexivity. }
  subst s. clear Hstep.
  bind_inv Hrun. inversion Hstep; subst; clear Hstep.
  bind_inv Hrun. apply (pull_loop_inv host _ _ current Hlaws) in Hstep;
    [|exact Hnodup].
  destruct Hstep as (Hself & vals & HF & Hlog & _).
  bind_inv Hrun. unfold run_iteration, call in Hstep.
  destruct (host_run_iteration host (host_state s)) as [r5 h5] eqn:Hhost.
  inversion Hstep; subst; clear Hstep.
  inversion Hrun; subst; clear Hrun. simpl in *.
  rewrite Hself. repeat split.
  exists vals. split.
  - eapply Forall2_impl; [exact HF|]. intros item w [Hp Hc]. split; [exact Hp|].
    destruct Hlaws as [_ Hrun_law]. rewrite (Hrun_law _ _ Hhost). exact Hc.
  - rewrite Hlog, <- !app_assoc. reflexivity.
Qed.

Lemma on_self_inv {S L A} (m : M S A) s (l : L) r s' l' :
  on_self m (s, l) = (r, (s', l')) -> m s = (r, s') /\ l' = l.
Proof.
  unfold on_self. destruct (m s) as [r0 s0]. intros Heq.
  inversion Heq; subst. split; reflexivity.
Qed.

(** A completed [execute] is a completed set-up, an optimizer that was
    found and that returned a solution, and a completed end. *)
Lemma execute_inv (st st' : St H) :
  execute host traits from_pyoptsparse_import array st = (Ok tt, st') ->
  exists st1 fr1 opt st2 sol st3,
    setup_problem host (st, execute_frame traits) = (Ok tt, (st1, fr1)) /\
    instantiate_optimizer traits from_pyoptsparse_import st1 = (Ok opt, st2) /\
    run_optimizer host traits array opt (opt_prob fr1) st2 = (Ok sol, st3) /\
    finish_run host traits sol st3 = (Ok tt, st').
Proof.
  unfold execute.
  match goal with
  | |- (let '(_, _) := ?m ?x in _) = _ -> _ =>
      destruct (m x) as [r [st0 l0]] eqn:Hrun
  end.
  intros Heq. inversion Heq; subst.
  bind_inv Hrun. destruct s as [st1 fr1].
  bind_inv Hrun. destruct s as [st2 fr2].
  apply on_self_inv in Hstep0. destruct Hstep0 as [Hinst ->].
  bind_inv Hrun. inversion Hstep0; subst; clear Hstep0.
  bind_inv Hrun. destruct s as [st3 fr3].
  apply on_self_inv in Hstep0. destruct Hstep0 as [Hopt ->].
  apply on_self_inv in Hrun. destruct Hrun as [Hfin _].
  eauto 10.
Qed.

End Runs.

(* ===================================================================== *)
(** * The optimizer's run *)
(* ===================================================================== *)

Section OptimizerRun.

Context {H : Type}.
Variable host : Host H.
Variable traits : Traits.
Variable from_pyoptsparse_import : string -> option Optimizer.
Variable array : PyVal -> PyVal.

Let any (ev : Event) : Prop := True.

Lemma gradfunc_only_logs dv_dict func_dict (st : St H) r st' :
  gradfunc host dv_dict func_dict st = (r, st') -> only_logs any st st'.
Proof.
  rewrite gradfunc_spec.
  destruct (objs (self st)) as [o|], (nlcons (self st)) as [n|];
    try (intros Heq; inversion Heq; subst;
         apply only_logs_logged; repeat constructor).
  cbv zeta.
  destruct (host_calc_gradient host _ _ _) as [[J|e] h'];
    [|destruct (is_Exception (exc_class e))];
    intros Heq; inversion Heq; subst;
    (split; [reflexivity|]; eexists; split; [reflexivity|]; repeat constructor).
Qed.

(** The callbacks never touch the attributes of the driver, so the
    optimizer's run leaves them as the set-up made them. *)
Lemma run_solver_only_logs {G} (t : SolverRun G) :
  preserves (only_logs any) (run_solver host array t).
Proof.
  induction t as [sol | e | dv_dict k IH | g dv_dict func_dict k IH];
    intros st r st' Heq; simpl in Heq.
  - inversion Heq; subst. apply only_logs_refl.
  - inversion Heq; subst. apply only_logs_refl.
  - destruct (objfunc host array dv_dict st) as [[r1|e] s1] eqn:Hcall;
      apply objfunc_only_logs in Hcall;
      apply (only_logs_weaken _ any) in Hcall; try (intros; exact I).
    + eapply only_logs_trans; [exact Hcall | eapply IH; exact Heq].
    + inversion Heq; subst. exact Hcall.
  - destruct (gradfunc host dv_dict func_dict st) as [[r1|e] s1] eqn:Hcall;
      apply gradfunc_only_logs in Hcall.
    + eapply only_logs_trans; [exact Hcall | eapply IH; exact Heq].
    + inversion Heq; subst. exact Hcall.
Qed.

Lemma run_optimizer_only_logs opt prob :
  preserves (only_logs any) (run_optimizer host traits array opt prob).
Proof.
  unfold run_optimizer. destruct (pyopt_diff traits);
    (apply preserves_bind; [exact (only_logs_trans any) | | intros ?];
     [apply only_logs_emit; repeat constructor | apply run_solver_only_logs]).
Qed.

Lemma instantiate_optimizer_only_logs :
  preserves (only_logs (H := H) any)
            (instantiate_optimizer traits from_pyoptsparse_import).
Proof.
  unfold instantiate_optimizer.
  repeat first
    [ preserves_step (only_logs_refl (H := H) any)
                     (only_logs_trans (H := H) any)
    | apply only_logs_emit; repeat constructor ].
Qed.

(** The optimizer call is logged with the problem and the [sens]
    argument before the optimizer does anything. *)
Lemma run_optimizer_log opt prob (st : St H) r st' :
  run_optimizer host traits array opt prob st = (r, st') ->
  exists evs,
    log st' = log st ++
      EvSolve prob (if pyopt_diff traits then sens_FD (fd_step traits)
                    else sens_gradfunc) :: evs.
Proof.
  unfold run_optimizer. destruct (pyopt_diff traits);
    unfold bind at 1; cbn [emit modify]; intros Heq;
    apply run_solver_only_logs in Heq; destruct Heq as [_ (evs & Hlog & _)];
    exists evs; rewrite Hlog; simpl; rewrite <- app_assoc; reflexivity.
Qed.

Lemma finish_run_kinds sol (st : St H) r st' :
  finish_run host traits sol st = (r, st') ->
  param_type (self st') = param_type (self st).
Proof.
  set (K := fun a b : St H => param_type (self b) = param_type (self a)).
  assert (K_refl : forall a, K a a) by reflexivity.
  assert (K_trans : forall a b c, K a b -> K b c -> K a c).
  { unfold K. intros a b c Hab Hbc. congruence. }
  assert (Hp : preserves K (finish_run host traits sol)).
  { unfold finish_run.
    repeat first
      [ preserves_step K_refl K_trans
      | apply preserves_gets; exact K_refl ].
    - intros s r1 s' Heq. inversion Heq; subst. reflexivity.
    - intros s r1 s' Heq. apply execute_set_parameter_logs in Heq.
      destruct Heq as [Hk _]. unfold K. rewrite Hk. reflexivity.
    - intros s r1 s' Heq. apply (only_logs_call any) in Heq; [|exact I].
      destruct Heq as [Hk _]. unfold K. rewrite Hk. reflexivity.
    - intros s r1 s' Heq. inversion Heq; subst. reflexivity. }
  intros Heq. apply Hp in Heq. exact Heq.
Qed.

(** From the set-up to the return of the optimizer the attributes are
    kept. *)
Lemma attributes_kept_by_the_optimizer opt prob (st1 st2 st3 : St H) sol :
  instantiate_optimizer traits from_pyoptsparse_import st1 = (Ok opt, st2) ->
  run_optimizer host traits array opt prob st2 = (Ok sol, st3) ->
  self st3 = self st1.
Proof.
  intros Hinst Hopt.
  apply instantiate_optimizer_only_logs in Hinst. destruct Hinst as [Hk2 _].
  apply run_optimizer_only_logs in Hopt. destruct Hopt as [Hk3 _].
  unfold self_kept in *. congruence.
Qed.

(** A completed [execute] has handed the problem that its set-up built
    to the optimizer, and has pulled the optimum with the kinds that the
    set-up recorded. *)
Lemma execute_uses_the_setup (st st' : St H) :
  execute host traits from_pyoptsparse_import array st = (Ok tt, st') ->
  exists st1 fr1,
    setup_problem host (st, execute_frame traits) = (Ok tt, (st1, fr1)) /\
    param_type (self st') = param_type (self st1) /\
    In (EvSolve (opt_prob fr1)
                (if pyopt_diff traits then sens_FD (fd_step traits)
                 else sens_gradfunc))
       (log st').
Proof.
  intros Hrun. apply execute_inv in Hrun.
  destruct Hrun as (st1 & fr1 & opt & st2 & sol & st3 & Hsetup & Hinst & Hopt
                    & Hfin).
  exists st1, fr1. split; [exact Hsetup|].
  apply instantiate_optimizer_only_logs in Hinst. destruct Hinst as [Hk2 _].
  pose proof (run_optimizer_log _ _ _ _ _ Hopt) as (evs & Hlog3).
  apply run_optimizer_only_logs in Hopt. destruct Hopt as [Hk3 _].
  pose proof (finish_run_kinds _ _ _ _ Hfin) as Hkinds.
  apply finish_run_emits in Hfin. destruct Hfin as (evs' & Hlog' & _).
  split.
  - rewrite Hkinds, Hk3, Hk2. reflexivity.
  - rewrite Hlog', Hlog3. apply in_or_app. left. apply in_or_app. right.
    left. reflexivity.
Qed.

End OptimizerRun.

(* ===================================================================== *)
(** * Integer parameters, and the state after a run *)
(* ===================================================================== *)


(** On the model, the probe 2.6 is written as 3 and the optimum 2.5 as
    3 too, halfway cases going away from zero. *)
Example rounding_on_Demo :
  List.filter
    (fun ev => match ev with EvSetParameter _ _ => true | _ => false end)
    (log Demo.finished)
  = [EvSetParameter "x" (VNdarray [VFloat64 (Fin (3 # 2))]);
     EvSetParameter "n" (VInt 3);
     EvSetParameter "x" (VNdarray [VFloat64 (Fin (7 # 4))]);
     EvSetParameter "n" (VInt 3)].
Proof. vm_compute. reflexivity. Qed.

(** C4: on a host that keeps the contract of [current] and whose
    parameters have distinct names, a completed [execute] has saved the
    solution [sol] that the optimizer returned, and for every parameter
    the host holds the value that [sol.getDVs()] has for it, rounded to a
    Python [int] if the kind that the set-up recorded for it is ['i'];
    the log ends with the print of the solution (if asked for), one write
    per parameter and then one more evaluation cycle. *)
Theorem C4_optimum_written_back {H} (host : Host H) traits
    from_pyoptsparse_import array
    (current : H -> string -> option PyVal) (st st' : St H) :
  observes_parameters host current ->
  List.NoDup (map fst (get_parameters host)) ->
  execute host traits from_pyoptsparse_import array st = (Ok tt, st') ->
  exists st1 fr1 opt st2 sol st3 vals,
    setup_problem host (st, execute_frame traits) = (Ok tt, (st1, fr1)) /\
    instantiate_optimizer traits from_pyoptsparse_import st1 = (Ok opt, st2) /\
    run_optimizer host traits array opt (opt_prob fr1) st2 = (Ok sol, st3) /\
    pyOpt_solution (self st') = Some sol /\
    Forall2 (fun item w =>
               pulled (getDVs sol) (param_type (self st1)) (fst item) w /\
               current (host_state st') (fst item) = Some w)
            (get_parameters host) vals /\
    log st' = log st3 ++
              (if print_results traits then [EvPrintSolution sol] else []) ++
              write_events (map fst (get_parameters host)) vals ++
              [EvRunIteration].
Proof.
  intros Hlaws Hnodup Hrun. apply execute_inv in Hrun.
  destruct Hrun as (st1 & fr1 & opt & st2 & sol & st3 & Hsetup & Hinst & Hopt
                    & Hfin).
  apply (finish_run_inv host traits current sol st3 st' Hlaws Hnodup) in Hfin.
  destruct Hfin as (Hsol & Hkinds & vals & HF & Hlog).
  rewrite Hkinds in HF.
  rewrite (attributes_kept_by_the_optimizer host traits
             from_pyoptsparse_import array _ _ _ _ _ _ Hinst Hopt) in HF.
  exists st1, fr1, opt, st2, sol, st3, vals. auto 10.
Qed.

Lemma Demo_observes_parameters :
  observes_parameters Demo.host Demo.stored.
Proof.
  split.
  - intros name v h h' Heq. inversion Heq; subst. unfold Demo.stored. split.
    + apply lookup_insert_eq.
    + intros other Hne. apply lookup_insert_ne. congruence.
  - intros h h' Heq. inversion Heq; subst. reflexivity.
Qed.

Lemma Demo_distinct_parameters :
  List.NoDup (map fst (get_parameters Demo.host)).
Proof.
  repeat constructor; simpl; intuition discriminate.
Qed.

Lemma C4_optimum_written_back_witness :
  exists st1 fr1 opt st2 sol st3 vals,
    setup_problem Demo.host (Demo.start, execute_frame Demo.traits)
      = (Ok tt, (st1, fr1)) /\
    instantiate_optimizer Demo.traits Demo.installation st1 = (Ok opt, st2) /\
    run_optimizer Demo.host Demo.traits Demo.array opt (opt_prob fr1) st2
      = (Ok sol, st3) /\
    pyOpt_solution (self Demo.finished) = Some sol /\
    Forall2 (fun item w =>
               pulled (getDVs sol) (param_type (self st1)) (fst item) w /\
               Demo.stored (host_state Demo.finished) (fst item) = Some w)
            (get_parameters Demo.host) vals /\
    log Demo.finished =
      log st3 ++
      (if print_results Demo.traits then [EvPrintSolution sol] else []) ++
      write_events (map fst (get_parameters Demo.host)) vals ++
      [EvRunIteration].
Proof.
  apply (C4_optimum_written_back Demo.host Demo.traits Demo.installation
           Demo.array Demo.stored Demo.start Demo.finished).
  - exact Demo_observes_parameters.
  - exact Demo_distinct_parameters.
  - vm_compute. reflexivity.
Defined.

(** On the model, the host ends with the optimum, the integer rounded. *)
Example optimum_on_Demo :
  Demo.stored (host_state Demo.finished) "x"
    = Some (VNdarray [VFloat64 (Fin (7 # 4))]) /\
  Demo.stored (host_state Demo.finished) "n" = Some (VInt 3).
Proof. split; vm_compute; reflexivity. Qed.

(* ===================================================================== *)
(** * The import probe *)
(* ===================================================================== *)

Lemma list_remove_middle x l1 l2 :
  ~ In x l1 -> list_remove x (l1 ++ x :: l2) = Ok (l1 ++ l2).
Proof.
  induction l1 as [|y l1 IH]; intros Hnot; simpl.
  - rewrite String.eqb_refl. reflexivity.
  - destruct (String.eqb x y) eqn:Heq.
    + apply String.eqb_eq in Heq. subst y. exfalso. apply Hnot. left. reflexivity.
    + rewrite IH; [reflexivity|]. intros Hin. apply Hnot. right. exact Hin.
Qed.

(** The loop on any list without repetitions: when [done] has been
    run over and [rest] is still to come, the list holds what was kept
    of [done], and all of [rest]. *)
Lemma remove_unavailable_spec (imp : string -> bool) rest :
  forall done,
  List.NoDup (done ++ rest) ->
  remove_unavailable imp rest (List.filter imp done ++ rest)
  = Ok (List.filter imp done ++ List.filter imp rest).
Proof.
  induction rest as [|x rest IH]; intros done Hnodup.
  - reflexivity.
  - assert (Hnodup' : List.NoDup ((done ++ [x]) ++ rest)).
    { rewrite <- app_assoc. exact Hnodup. }
    specialize (IH (done ++ [x]) Hnodup').
    rewrite List.filter_app in IH. simpl in IH |- *.
    destruct (imp x) eqn:Himp.
    + rewrite <- !app_assoc in IH. exact IH.
    + rewrite app_nil_r in IH. rewrite list_remove_middle; [exact IH|].
      intros Hin. apply List.filter_In in Hin. destruct Hin as [Hin _].
      apply List.NoDup_remove_2 in Hnodup. apply Hnodup.
      apply in_or_app. left. exact Hin.
Qed.

Lemma optlist_NoDup : List.NoDup optlist.
Proof.
  unfold optlist.
  repeat (constructor; [simpl; intuition discriminate|]). constructor.
Qed.

Lemma check_imports_is_filter imp :
  _check_imports imp = List.filter imp optlist.
Proof.
  unfold _check_imports. fold optlist.
  induction optlist as [|x l IH]; [reflexivity|].
  rewrite filter_cons. simpl. rewrite IH.
  destruct (imp x); reflexivity.
Qed.

(** X1: the loop of [_check_imports], which removes from the list while
    it runs over a copy of it, never fails on a removal, and what it
    returns is the list of exactly those of the ten names that can be
    imported, in their original order. *)
Theorem X1_check_imports_loop (from_pyOpt_import : string -> bool) :
  check_imports_loop from_pyOpt_import = Ok (_check_imports from_pyOpt_import) /\
  (forall name,
     In name (_check_imports from_pyOpt_import) <->
     In name optlist /\ from_pyOpt_import name = true) /\
  sublist (_check_imports from_pyOpt_import) optlist.
Proof.
  rewrite check_imports_is_filter. split; [|split].
  - unfold check_imports_loop.
    apply (remove_unavailable_spec from_pyOpt_import optlist []).
    exact optlist_NoDup.
  - intros name. apply List.filter_In.
  - generalize optlist. intros l. induction l as [|x l IH]; simpl.
    + constructor.
    + destruct (from_pyOpt_import x); constructor; exact IH.
Qed.

(* ===================================================================== *)
(** * The callbacks, outside the claims *)
(* ===================================================================== *)

(** X2: as long as [self.objs] or [self.nlcons] is still [None], as
    [__init__] leaves them until [execute] has built the problem,
    [gradfunc] returns an empty dictionary with flag 1: the sum of line
    290 raises a [TypeError] that the handler reports, and the host is
    not called at all. *)
Theorem X2_gradfunc_before_execute {H} (host : Host H) dv_dict func_dict
    (st : St H) :
  objs (self st) = None \/ nlcons (self st) = None ->
  exists msg,
    gradfunc host dv_dict func_dict st =
    (Ok (∅, 1%Z), logged (traceback_report (mkExc TypeError msg)) st).
Proof.
  intros Hnone. rewrite gradfunc_spec.
  destruct (objs (self st)) as [o|], (nlcons (self st)) as [n|];
    try (eexists; reflexivity).
  destruct Hnone; discriminate.
Qed.

Lemma X2_gradfunc_before_execute_witness :
  exists msg,
    gradfunc Demo.host Demo.probe ∅ Demo.start =
    (Ok (∅, 1%Z),
     logged (traceback_report (mkExc TypeError msg)) Demo.start).
Proof.
  apply (X2_gradfunc_before_execute Demo.host Demo.probe ∅ Demo.start).
  left. reflexivity.
Defined.

(** X3: [gradfunc] uses the design point for its keys only: two calls
    with dictionaries that have the same keys, whatever their values and
    whatever the second argument, do the same.  The gradient is the
    host's, at the point the host is at. *)
Theorem X3_gradfunc_reads_keys_only {H} (host : Host H)
    dv_dict dv_dict' func_dict func_dict' (st : St H) :
  keys dv_dict = keys dv_dict' ->
  gradfunc host dv_dict func_dict st = gradfunc host dv_dict' func_dict' st.
Proof.
  intros Hkeys. rewrite !gradfunc_spec, Hkeys. reflexivity.
Qed.

Lemma X3_gradfunc_reads_keys_only_witness :
  gradfunc Demo.host Demo.probe ∅ Demo.running =
  gradfunc Demo.host Demo.optimum Demo.probe Demo.running.
Proof.
  apply (X3_gradfunc_reads_keys_only Demo.host Demo.probe Demo.optimum
           ∅ Demo.probe Demo.running).
  vm_compute. reflexivity.
Defined.

(** X4: neither callback assigns to an attribute of the driver, whatever
    its outcome, and so a whole run of the optimizer, with all the calls
    it makes, leaves the attributes as it found them. *)
Theorem X4_callbacks_keep_attributes {H} (host : Host H) array :
  (forall dv_dict (st : St H),
     self (snd (objfunc host array dv_dict st)) = self st) /\
  (forall dv_dict func_dict (st : St H),
     self (snd (gradfunc host dv_dict func_dict st)) = self st) /\
  (forall G (t : SolverRun G) (st : St H),
     self (snd (run_solver host array t st)) = self st).
Proof.
  split; [|split].
  - intros dv_dict st.
    destruct (objfunc host array dv_dict st) as [r st'] eqn:Hrun.
    apply objfunc_only_logs in Hrun. apply Hrun.
  - intros dv_dict func_dict st.
    destruct (gradfunc host dv_dict func_dict st) as [r st'] eqn:Hrun.
    apply gradfunc_only_logs in Hrun. apply Hrun.
  - intros G t st.
    destruct (run_solver host array t st) as [r st'] eqn:Hrun.
    apply run_solver_only_logs in Hrun. apply Hrun.
Qed.

Lemma for_each_on_self {S L X} (f : X -> M S unit) (l : list X) :
  forall (s : S) (l0 : L) r s' l',
  for_each l (fun x => on_self (f x)) (s, l0) = (r, (s', l')) ->
  for_each l f s = (r, s') /\ l' = l0.
Proof.
  induction l as [|x l IH]; intros s l0 r s' l' Hrun.
  - inversion Hrun; subst. split; reflexivity.
  - cbn [for_each] in Hrun |- *. unfold bind at 1 in Hrun. unfold bind at 1.
    unfold on_self at 1 in Hrun.
    destruct (f x s) as [[[]|e] s1].
    + apply IH in Hrun. exact Hrun.
    + inversion Hrun; subst. split; reflexivity.
Qed.

Section ObjfuncMore.

Context {H : Type}.
Variable host : Host H.
Variable array : PyVal -> PyVal.

(** A loop of [store_output], whatever its outcome: an entry of the
    dictionary was there before, or it is the evaluation of one of the
    items, in the state the loop runs in. *)
Lemma store_outputs_entries {X} (name_of : X -> string)
    (eval_of : X -> H -> Res PyVal)
    (body : X -> M (St H * CallbackFrame (gmap string PyVal)) unit) :
  (forall x, body x = store_output array (name_of x) (eval_of x)) ->
  forall items (st : St H) l r st' l',
  for_each items body (st, l) = (r, (st', l')) ->
  forall name v,
    cb_dict l' !! name = Some v ->
    cb_dict l !! name = Some v \/
    exists x u, In x items /\ name = out0 (name_of x) /\
                eval_of x (host_state st) = Ok u /\ v = array u.
Proof.
  intros Hbody. induction items as [|x items IH];
    intros st l r st' l' Hrun name v Hv.
  - inversion Hrun; subst. left. exact Hv.
  - rewrite for_each_cons, Hbody, store_output_spec in Hrun.
    destruct (eval_of x (host_state st)) as [u|e] eqn:Hu.
    + destruct (IH _ _ _ _ _ Hrun name v Hv) as [Hold | (y & u' & Hin & Hn & He & Ha)].
      * simpl in Hold. rewrite lookup_insert in Hold.
        destruct (decide (out0 (name_of x) = name)) as [Heq|Hne].
        -- inversion Hold; subst. right. exists x, u.
           repeat split; [left; reflexivity | exact Hu].
        -- left. exact Hold.
      * right. exists y, u'. repeat split; try assumption. right. exact Hin.
    + inversion Hrun; subst. left. exact Hv.
Qed.

(** The body of the [try] when it completes: the design point was
    pushed, then the model was run, and the evaluations that follow
    leave the host as the run left it. *)
Lemma objfunc_try_Ok_inv dv_dict (st : St H) l st' l' :
  objfunc_try host array dv_dict (st, l) = (Ok tt, (st', l')) ->
  exists s1 h2,
    for_each (get_parameters host)
      (objfunc_set_parameter host dv_dict (param_type (self st))) st
      = (Ok tt, s1) /\
    host_run_iteration host (host_state s1) = (Ok tt, h2) /\
    st' = mkSt h2 (self s1) (log s1 ++ [EvRunIteration]).
Proof.
  intros Hrun. unfold objfunc_try in Hrun.
  bind_inv Hrun. inversion Hstep; subst; clear Hstep.
  bind_inv Hrun. destruct s as [s1 l1].
  apply for_each_on_self in Hstep. destruct Hstep as [Hloop ->].
  bind_inv Hrun. destruct s as [s2 l2].
  apply on_self_inv in Hstep. destruct Hstep as [Hmodel ->].
  unfold run_iteration, call in Hmodel.
  destruct (host_run_iteration host (host_state s1)) as [r2 h2] eqn:Hhost.
  inversion Hmodel; subst; clear Hmodel.
  bind_inv Hrun. destruct s as [s3 l3].
  apply (store_outputs_inv array (fun item => obj_pcomp_name (snd item))
           (fun item => obj_evaluate (snd item))) in Hstep;
    [|intros [key obj]; reflexivity].
  destruct Hstep as (-> & _).
  bind_inv Hrun. destruct s as [s4 l4].
  apply (store_outputs_inv array (fun item => con_pcomp_name (snd item))
           (fun item => con_evaluate (snd item))) in Hstep;
    [|intros [key con]; reflexivity].
  destruct Hstep as (-> & _).
  inversion Hrun; subst. exists s1, h2. auto.
Qed.

(** The entries of the dictionary, whatever the outcome of the body. *)
Lemma objfunc_try_entries dv_dict (st : St H) l r st' l' :
  objfunc_try host array dv_dict (st, l) = (r, (st', l')) ->
  forall name v,
    cb_dict l' !! name = Some v ->
    cb_dict l !! name = Some v \/ output_at host array (host_state st') name v.
Proof.
  unfold objfunc_try. unfold bind at 1. cbn [on_self get_self gets].
  unfold bind at 1.
  destruct (for_each (get_parameters host) _ (st, l)) as [r1 [s1 l1]] eqn:H1.
  apply for_each_on_self in H1. destruct H1 as [_ ->].
  destruct r1 as [[]|e];
    [|intros Heq name v Hv; inversion Heq; subst; left; exact Hv].
  unfold bind at 1.
  destruct (on_self (run_iteration host) (s1, l)) as [r2 [s2 l2]] eqn:H2.
  apply on_self_inv in H2. destruct H2 as [_ ->].
  destruct r2 as [[]|e];
    [|intros Heq name v Hv; inversion Heq; subst; left; exact Hv].
  unfold bind at 1.
  destruct (for_each (get_objectives host) _ (s2, l)) as [r3 [s3 l3]] eqn:H3.
  assert (Hobj : forall name v, cb_dict l3 !! name = Some v ->
            cb_dict l !! name = Some v \/
            exists x u, In x (get_objectives host) /\
              name = out0 (obj_pcomp_name (snd x)) /\
              obj_evaluate (snd x) (host_state s2) = Ok u /\ v = array u).
  { eapply (store_outputs_entries (fun item => obj_pcomp_name (snd item))
              (fun item => obj_evaluate (snd item))); [|exact H3].
    intros [key obj]; reflexivity. }
  apply (store_outputs_inv array (fun item => obj_pcomp_name (snd item))
           (fun item => obj_evaluate (snd item))) in H3;
    [|intros [key obj]; reflexivity].
  destruct H3 as (-> & _ & _).
  assert (Hobj' : forall name v, cb_dict l3 !! name = Some v ->
            cb_dict l !! name = Some v \/ output_at host array (host_state s2) name v).
  { intros name v Hv. destruct (Hobj name v Hv) as [Hold | (x & u & Hin & Hn & He & Ha)];
      [left; exact Hold|]. right. exists (obj_evaluate (snd x)), u.
    repeat split; try assumption. unfold outputs. apply in_or_app. left.
    subst name.
    apply (in_map (fun item => (out0 (obj_pcomp_name (snd item)),
                                obj_evaluate (snd item)))) in Hin. exact Hin. }
  destruct r3 as [[]|e];
    [|intros Heq name v Hv; inversion Heq; subst; apply Hobj'; exact Hv].
  unfold bind at 1.
  destruct (for_each (get_constraints host None) _ (s2, l3)) as [r4 [s4 l4]] eqn:H4.
  assert (Hcon : forall name v, cb_dict l4 !! name = Some v ->
            cb_dict l3 !! name = Some v \/
            exists x u, In x (get_constraints host None) /\
              name = out0 (con_pcomp_name (snd x)) /\
              con_evaluate (snd x) (host_state s2) = Ok u /\ v = array u).
  { eapply (store_outputs_entries (fun item => con_pcomp_name (snd item))
              (fun item => con_evaluate (snd item))); [|exact H4].
    intros [key con]; reflexivity. }
  apply (store_outputs_inv array (fun item => con_pcomp_name (snd item))
           (fun item => con_evaluate (snd item))) in H4;
    [|intros [key con]; reflexivity].
  destruct H4 as (-> & _ & _).
  assert (Hcon' : forall name v, cb_dict l4 !! name = Some v ->
            cb_dict l !! name = Some v \/ output_at host array (host_state s2) name v).
  { intros name v Hv. destruct (Hcon name v Hv) as [Hold | (x & u & Hin & Hn & He & Ha)];
      [apply Hobj'; exact Hold|]. right. exists (con_evaluate (snd x)), u.
    repeat split; try assumption. unfold outputs. apply in_or_app. right.
    subst name.
    apply (in_map (fun item => (out0 (con_pcomp_name (snd item)),
                                con_evaluate (snd item)))) in Hin. exact Hin. }
  destruct r4 as [[]|e]; intros Heq name v Hv; inversion Heq; subst;
    apply Hcon'; exact Hv.
Qed.

(** X5: whichever flag [objfunc] returns, every entry of the dictionary
    it returns is [array(evaluate())] of a registered objective or
    constraint of that output name, evaluated in the host state that the
    callback leaves; after a failure the dictionary may hold only some
    of the outputs, but never anything else. *)
Theorem X5_objfunc_entries dv_dict (st : St H) :
  match objfunc host array dv_dict st with
  | (Ok (func_dict, fail), st') =>
      forall name v, func_dict !! name = Some v ->
                     output_at host array (host_state st') name v
  | (Raise _, _) => True
  end.
Proof.
  unfold objfunc, try_except_Exception.
  destruct (objfunc_try host array dv_dict (st, mkCallbackFrame ∅ 1%Z))
    as [r [s1 l1]] eqn:Htry.
  pose proof (objfunc_try_entries _ _ _ _ _ _ Htry) as Hentries.
  assert (Hout : forall name v, cb_dict l1 !! name = Some v ->
                   output_at host array (host_state s1) name v).
  { intros name v Hv. destruct (Hentries name v Hv) as [Hold|Hnew];
      [|exact Hnew]. simpl in Hold. rewrite lookup_empty in Hold. discriminate. }
  destruct r as [[]|e]; [exact Hout|].
  destruct (is_Exception (exc_class e)); [|exact I].
  exact Hout.
Qed.

End ObjfuncMore.

Section PullMore.

Context {H : Type}.
Variable host : Host H.

(** The loop that pulls the design variables, whatever its outcome: it
    only writes parameters, and it completes only if every registered
    parameter has a value to pull. *)
Lemma set_parameters_loop dv_dict types params :
  forall (st : St H) r st',
  for_each params (execute_set_parameter host dv_dict types) st = (r, st') ->
  emits is_write st st' /\
  (r = Ok tt ->
   Forall (fun item => exists w, pulled dv_dict types (fst item) w) params).
Proof.
  induction params as [|[name p] params IH]; intros st r st' Hrun.
  - inversion Hrun; subst. split; [apply emits_refl | constructor].
  - rewrite for_each_cons, execute_set_parameter_spec in Hrun.
    destruct (dv_dict !! name) as [v|] eqn:Hv;
      [|inversion Hrun; subst; split; [apply emits_refl | discriminate]].
    destruct (types !! name) as [kind|] eqn:Hk;
      [|inversion Hrun; subst; split; [apply emits_refl | discriminate]].
    destruct (if vartype_eqb kind vt_i then int_round v else Ok v) as [w|e] eqn:Hw;
      [|inversion Hrun; subst; split; [apply emits_refl | discriminate]].
    destruct (host_set_parameter_by_name host name w (host_state st))
      as [[[]|e] h1] eqn:Hhost.
    + apply IH in Hrun. destruct Hrun as [Hemits Hall]. split.
      * eapply emits_trans; [|exact Hemits].
        exists [EvSetParameter name w]. split; [reflexivity|].
        repeat constructor.
      * intros Hr. constructor; [|exact (Hall Hr)].
        exists w, v, kind. simpl. repeat split; try assumption.
        destruct (vartype_eqb kind vt_i); [exact Hw | congruence].
    + inversion Hrun; subst. split; [|discriminate].
      exists [EvSetParameter name w]. split; [reflexivity|].
      repeat constructor.
Qed.

End PullMore.

Section ObjfuncEdges.

Context {H : Type}.
Variable host : Host H.
Variable array : PyVal -> PyVal.

(** X6: when some registered parameter has no value to pull from the
    design point (its name is missing from the dictionary or from the
    recorded kinds, or its kind is ['i'] and the value does not round to
    an integer), [objfunc] never runs the model: the only calls that
    reach the host are writes of parameters that come before it in the
    loop, and what comes back is an empty dictionary with flag 1 (or an
    exception that is no instance of [Exception], from such a write). *)
Theorem X6_objfunc_unpullable dv_dict (st : St H) :
  (exists item, In item (get_parameters host) /\
     forall w, ~ pulled dv_dict (param_type (self st)) (fst item) w) ->
  emits (fun ev => ev <> EvRunIteration) st
        (snd (objfunc host array dv_dict st)) /\
  match fst (objfunc host array dv_dict st) with
  | Ok (func_dict, fail) => fail = 1%Z /\ func_dict = ∅
  | Raise e => is_Exception (exc_class e) = false
  end.
Proof.
  intros (item & Hin & Hnone).
  unfold objfunc, try_except_Exception.
  destruct (objfunc_try host array dv_dict (st, mkCallbackFrame ∅ 1%Z))
    as [r [s1 l1]] eqn:Htry.
  unfold objfunc_try in Htry. unfold bind at 1 in Htry.
  cbn [on_self get_self gets] in Htry. unfold bind at 1 in Htry.
  destruct (for_each (get_parameters host) _ (st, mkCallbackFrame ∅ 1%Z))
    as [r1 [s2 l2]] eqn:Hloop.
  apply for_each_on_self in Hloop. destruct Hloop as [Hloop ->].
  apply set_parameters_loop in Hloop. destruct Hloop as [Hemits Hall].
  destruct r1 as [[]|e].
  - exfalso. specialize (Hall eq_refl).
    rewrite Forall_forall in Hall.
    destruct (Hall item (proj2 (list_elem_of_In _ _) Hin)) as [w Hw].
    exact (Hnone w Hw).
  - inversion Htry; subst. clear Htry.
    assert (Hquiet : emits (fun ev => ev <> EvRunIteration) st s1).
    { eapply emits_weaken; [|exact Hemits].
      intros ev Hw. destruct ev; try destruct Hw. discriminate. }
    destruct (is_Exception (exc_class e)) eqn:Hexc; simpl.
    + split; [|split; reflexivity].
      eapply emits_trans; [exact Hquiet|].
      exists (traceback_report e). split; [reflexivity|].
      repeat constructor; discriminate.
    + split; [exact Hquiet | exact Hexc].
Qed.

End ObjfuncEdges.

Lemma X6_objfunc_unpullable_witness :
  emits (fun ev => ev <> EvRunIteration) Demo.running
        (snd (objfunc Demo.host Demo.array {["x" := Demo.float_of 2]}
                      Demo.running)) /\
  match fst (objfunc Demo.host Demo.array {["x" := Demo.float_of 2]}
                     Demo.running) with
  | Ok (func_dict, fail) => fail = 1%Z /\ func_dict = ∅
  | Raise e => is_Exception (exc_class e) = false
  end.
Proof.
  apply (X6_objfunc_unpullable Demo.host Demo.array
           {["x" := Demo.float_of 2]} Demo.running).
  exists ("n", Demo.n). split.
  - right. left. reflexivity.
  - intros w (v & kind & Hv & _). vm_compute in Hv. discriminate.
Defined.

Lemma writes_pulled_verbatim dv_dict types ev :
  writes_pulled dv_dict types ev -> writes_verbatim dv_dict types ev.
Proof.
  destruct ev; simpl; auto.
  intros (v & kind & Hv & Hk & Hw) kind' Hk' Hne.
  rewrite Hk in Hk'. inversion Hk'; subst kind'.
  destruct kind; simpl in Hw; try congruence.
Qed.

Section ObjfuncPoint.

Context {H : Type}.
Variable host : Host H.
Variable array : PyVal -> PyVal.

(** Flag 0 is only returned when the body of the [try] has completed. *)
Lemma objfunc_success_inv dv_dict (st : St H) func_dict st' :
  objfunc host array dv_dict st = (Ok (func_dict, 0%Z), st') ->
  objfunc_try host array dv_dict (st, mkCallbackFrame ∅ 1%Z)
  = (Ok tt, (st', mkCallbackFrame func_dict 0%Z)).
Proof.
  unfold objfunc, try_except_Exception.
  destruct (objfunc_try host array dv_dict (st, mkCallbackFrame ∅ 1%Z))
    as [r [s1 l1]] eqn:Htry.
  pose proof (objfunc_try_frame _ _ _ _ _ _ _ _ Htry) as Hframe.
  destruct r as [[]|e].
  - intros Heq. inversion Heq; subst. destruct l1; simpl in *. reflexivity.
  - destruct (is_Exception (exc_class e)).
    + unfold print_traceback, on_self, emit, modify. intros Heq.
      inversion Heq; subst. simpl in Hframe. congruence.
    + discriminate.
Qed.

(** X8: when [objfunc] returns flag 0 on a host that keeps the contract
    of [current] and whose parameters have distinct names, the host
    holds for every parameter the value of the design point (rounded for
    kind ['i']), the calls it has made into the host are one write per
    parameter, in order, and then one evaluation cycle, and every entry
    of the dictionary is an output evaluated in that state: the values
    are those of the probed point. *)
Theorem X8_objfunc_probes_the_point
    (current : H -> string -> option PyVal) dv_dict (st : St H)
    func_dict st' :
  observes_parameters host current ->
  List.NoDup (map fst (get_parameters host)) ->
  objfunc host array dv_dict st = (Ok (func_dict, 0%Z), st') ->
  exists vals,
    Forall2 (fun item w =>
               pulled dv_dict (param_type (self st)) (fst item) w /\
               current (host_state st') (fst item) = Some w)
            (get_parameters host) vals /\
    log st' = log st ++ write_events (map fst (get_parameters host)) vals ++
              [EvRunIteration] /\
    forall name v, func_dict !! name = Some v ->
                   output_at host array (host_state st') name v.
Proof.
  intros Hlaws Hnodup Hrun. apply objfunc_success_inv in Hrun.
  pose proof (objfunc_try_entries _ _ _ _ _ _ _ _ Hrun) as Hentries.
  apply objfunc_try_Ok_inv in Hrun.
  destruct Hrun as (s1 & h2 & Hloop & Hmodel & ->).
  rewrite objfunc_set_parameter_same in Hloop.
  apply (pull_loop_inv host _ _ current Hlaws) in Hloop; [|exact Hnodup].
  destruct Hloop as (_ & vals & HF & Hlog & _).
  exists vals. simpl. split; [|split].
  - eapply Forall2_impl; [exact HF|]. intros item w [Hp Hc]. split; [exact Hp|].
    destruct Hlaws as [_ Hrun_law]. rewrite (Hrun_law _ _ Hmodel). exact Hc.
  - rewrite Hlog, <- app_assoc. reflexivity.
  - intros name v Hv. destruct (Hentries name v Hv) as [Hold|Hnew];
      [|exact Hnew]. simpl in Hold. rewrite lookup_empty in Hold. discriminate.
Qed.

End ObjfuncPoint.

Lemma X8_objfunc_probes_the_point_witness :
  exists vals,
    Forall2 (fun item w =>
               pulled Demo.probe (param_type (self Demo.running)) (fst item) w /\
               Demo.stored (host_state Cases.probe_state) (fst item) = Some w)
            (get_parameters Demo.host) vals /\
    log Cases.probe_state =
      log Demo.running ++
      write_events (map fst (get_parameters Demo.host)) vals ++
      [EvRunIteration] /\
    forall name v,
      Cases.probe_dict !! name = Some v ->
      output_at Demo.host Demo.array (host_state Cases.probe_state) name v.
Proof.
  apply (X8_objfunc_probes_the_point Demo.host Demo.array Demo.stored
           Demo.probe Demo.running Cases.probe_dict Cases.probe_state).
  - exact Demo_observes_parameters.
  - exact Demo_distinct_parameters.
  - vm_compute. reflexivity.
Defined.

(* ===================================================================== *)
(** * [execute], outside the claims *)
(* ===================================================================== *)

Section ExecuteMore.

Context {H : Type}.
Variable host : Host H.
Variable traits : Traits.
Variable from_pyoptsparse_import : string -> option Optimizer.
Variable array : PyVal -> PyVal.

(** [execute] phase by phase: the first phase that raises ends it. *)
Lemma execute_cases (st : St H) :
  execute host traits from_pyoptsparse_import array st =
  match setup_problem host (st, execute_frame traits) with
  | (Raise e, (s1, _)) => (Raise e, s1)
  | (Ok _, (s1, fr1)) =>
      match instantiate_optimizer traits from_pyoptsparse_import s1 with
      | (Raise e, s2) => (Raise e, s2)
      | (Ok opt, s2) =>
          match run_optimizer host traits array opt (opt_prob fr1) s2 with
          | (Raise e, s3) => (Raise e, s3)
          | (Ok sol, s3) => finish_run host traits sol s3
          end
      end
  end.
Proof.
  unfold execute, bind.
  destruct (setup_problem host (st, execute_frame traits))
    as [[[]|e] [s1 fr1]]; [|reflexivity].
  unfold on_self at 1.
  destruct (instantiate_optimizer traits from_pyoptsparse_import s1)
    as [[opt|e] s2]; [|reflexivity].
  cbn [get_local]. unfold on_self at 1.
  destruct (run_optimizer host traits array opt (opt_prob fr1) s2)
    as [[sol|e] s3]; [|reflexivity].
  unfold on_self.
  destruct (finish_run host traits sol s3) as [r s4]. reflexivity.
Qed.

Let K := solution_kept (H := H).

Lemma solution_kept_refl (s : St H) : K s s.
Proof. reflexivity. Qed.

Lemma solution_kept_trans (a b c : St H) : K a b -> K b c -> K a c.
Proof. unfold K, solution_kept. congruence. Qed.

Lemma solution_kept_set_self f :
  (forall s, pyOpt_solution (f s) = pyOpt_solution s) ->
  preserves K (set_self (H := H) f).
Proof. intros Hf st r st' Heq. inversion Heq; subst. apply Hf. Qed.

Lemma solution_kept_only_logs ok (st st' : St H) :
  only_logs ok st st' -> K st st'.
Proof. intros [Hk _]. unfold K, solution_kept. rewrite Hk. reflexivity. Qed.

(** After its first statement the set-up does not assign to
    [self.pyOpt_solution] again: it is [None] however the set-up ends. *)
Lemma setup_problem_no_solution (st : St H) fr r st' fr' :
  setup_problem host (st, fr) = (r, (st', fr')) ->
  pyOpt_solution (self st') = None.
Proof.
  pose proof (on_fst_refl (L := ExecuteFrame) K solution_kept_refl) as K_refl.
  pose proof (on_fst_trans (L := ExecuteFrame) K solution_kept_trans) as K_trans.
  unfold setup_problem, save_linear_jacobians. unfold bind at 1.
  cbn [on_self set_self modify].
  match goal with
  | |- ?m _ = _ -> _ => assert (Hp : preserves (on_fst K) m)
  end.
  { repeat first
      [ preserves_step K_refl K_trans
      | apply preserves_get_local; exact solution_kept_refl
      | apply preserves_set_local; exact solution_kept_refl
      | apply preserves_on_self;
        first [ apply solution_kept_set_self; intros ?; reflexivity
              | unfold get_self; apply preserves_gets;
                exact solution_kept_refl
              | intros s1 r1 s1' Heq;
                apply (solution_kept_only_logs (fun _ => True));
                first [ eapply only_logs_call; [exact I | exact Heq]
                      | eapply only_logs_read; exact Heq ] ]
      | progress unfold add_parameter, add_objective, add_eq_constraint,
                        add_ineq_constraint ]. }
  intros Heq. apply Hp in Heq. unfold on_fst, K, solution_kept in Heq.
  simpl in Heq. exact Heq.
Qed.

(** The end of [execute]: the solution is saved by its last statement,
    and not before. *)
Lemma finish_run_solution sol (st : St H) r st' :
  finish_run host traits sol st = (r, st') ->
  match r with
  | Ok _ => pyOpt_solution (self st') = Some sol
  | Raise _ => self st' = self st
  end.
Proof.
  unfold finish_run. unfold bind at 1.
  set (st0 := snd ((if print_results traits then emit [EvPrintSolution sol]
                    else ret tt) st)).
  assert (Hst0 : (if print_results traits then emit [EvPrintSolution sol]
                  else ret tt) st = (Ok tt, st0) /\ self st0 = self st).
  { subst st0. destruct (print_results traits); split; reflexivity. }
  destruct Hst0 as [-> Hself0].
  unfold bind at 1. cbn [get_self gets]. unfold bind at 1.
  destruct (for_each (get_parameters host) _ st0) as [r1 s1] eqn:Hloop.
  assert (Hself1 : self s1 = self st0).
  { eapply (preserves_for_each (only_logs (writes_pulled (getDVs sol)
                                             (param_type (self st0)))))
      in Hloop.
    - apply Hloop.
    - apply only_logs_refl.
    - apply only_logs_trans.
    - intros x. apply execute_set_parameter_logs. }
  destruct r1 as [[]|e]; [|intros Heq; inversion Heq; subst; congruence].
  unfold bind at 1. unfold run_iteration, call.
  destruct (host_run_iteration host (host_state s1)) as [[[]|e] h2].
  - intros Heq. inversion Heq; subst. reflexivity.
  - intros Heq. inversion Heq; subst. simpl. congruence.
Qed.

(** X9: [self.pyOpt_solution] tells how the last [execute] ended: it
    holds the solution of the optimizer when [execute] has returned, and
    it is [None], not the solution of an earlier run, whenever [execute]
    has raised, in whichever phase. *)
Theorem X9_solution_attribute (st : St H) :
  match execute host traits from_pyoptsparse_import array st with
  | (Ok _, st') => exists sol, pyOpt_solution (self st') = Some sol
  | (Raise _, st') => pyOpt_solution (self st') = None
  end.
Proof.
  rewrite execute_cases.
  destruct (setup_problem host (st, execute_frame traits))
    as [r1 [s1 fr1]] eqn:Hsetup.
  apply setup_problem_no_solution in Hsetup.
  destruct r1 as [[]|e]; [|exact Hsetup].
  destruct (instantiate_optimizer traits from_pyoptsparse_import s1)
    as [r2 s2] eqn:Hinst.
  apply instantiate_optimizer_only_logs in Hinst. destruct Hinst as [Hk2 _].
  destruct r2 as [opt|e]; [|rewrite Hk2; exact Hsetup].
  destruct (run_optimizer host traits array opt (opt_prob fr1) s2)
    as [r3 s3] eqn:Hopt.
  apply run_optimizer_only_logs in Hopt. destruct Hopt as [Hk3 _].
  destruct r3 as [sol|e]; [|rewrite Hk3, Hk2; exact Hsetup].
  destruct (finish_run host traits sol s3) as [r4 s4] eqn:Hfin.
  apply finish_run_solution in Hfin.
  destruct r4 as [[]|e].
  - exists sol. exact Hfin.
  - rewrite Hfin, Hk3, Hk2. exact Hsetup.
Qed.

End ExecuteMore.

Section BadParameter.

Context {H : Type}.
Variable host : Host H.
Variable traits : Traits.
Variable from_pyoptsparse_import : string -> option Optimizer.
Variable array : PyVal -> PyVal.

Lemma add_parameter_kind (item : string * ParameterObj H) (st : St H) fr :
  match kind_of_parameter (host_state st) item with
  | Raise e => add_parameter item (st, fr) = (Raise e, (st, fr))
  | Ok _ =>
      exists st' fr',
        add_parameter item (st, fr) = (Ok tt, (st', fr')) /\
        host_state st' = host_state st /\ log st' = log st
  end.
Proof.
  destruct item as [name param]. rewrite add_parameter_spec.
  unfold kind_of_parameter, res_bind. simpl.
  destruct (par_evaluate param (host_state st)) as [values|e]; [|reflexivity].
  destruct (first_value values) as [val|e]; [|reflexivity].
  destruct (classify name (get_metadata param) val) as [[kind choices]|e];
    [|reflexivity].
  unfold registered. eexists _, _. split; [reflexivity|]. split; reflexivity.
Qed.

(** The loop over the parameters stops at the first parameter whose kind
    cannot be decided, with that parameter's exception. *)
Lemma add_parameters_raise pre item post e :
  forall (st : St H) fr,
  Forall (fun it => exists kc, kind_of_parameter (host_state st) it = Ok kc) pre ->
  kind_of_parameter (host_state st) item = Raise e ->
  exists st' fr',
    for_each (pre ++ item :: post) add_parameter (st, fr)
      = (Raise e, (st', fr')) /\
    host_state st' = host_state st /\ log st' = log st.
Proof.
  induction pre as [|it pre IH]; intros st fr Hpre Hbad.
  - simpl app. rewrite for_each_cons.
    pose proof (add_parameter_kind item st fr) as Hstep.
    rewrite Hbad in Hstep. rewrite Hstep. exists st, fr. auto.
  - simpl app. rewrite for_each_cons.
    inversion Hpre as [|? ? [kc Hkc] Hpre']; subst.
    pose proof (add_parameter_kind it st fr) as Hstep.
    rewrite Hkc in Hstep. destruct Hstep as (st1 & fr1 & Hstep & Hh & Hl).
    rewrite Hstep.
    destruct (IH st1 fr1) as (st' & fr' & Hrun & Hh' & Hl').
    + rewrite Hh. exact Hpre'.
    + rewrite Hh. exact Hbad.
    + exists st', fr'. split; [exact Hrun|]. split; congruence.
Qed.

(** [execute] ends with the exception of the first parameter whose kind
    cannot be decided; the first evaluation cycle is all that has
    reached the host. *)
Lemma execute_bad_parameter (st : St H) h1 pre item post e :
  host_run_iteration host (host_state st) = (Ok tt, h1) ->
  get_parameters host = pre ++ item :: post ->
  Forall (fun it => exists kc, kind_of_parameter h1 it = Ok kc) pre ->
  kind_of_parameter h1 item = Raise e ->
  exists st',
    execute host traits from_pyoptsparse_import array st = (Raise e, st') /\
    host_state st' = h1 /\ log st' = log st ++ [EvRunIteration].
Proof.
  intros Hrun Hparams Hpre Hbad. rewrite execute_cases.
  unfold setup_problem. unfold bind at 1. cbn [on_self set_self modify].
  unfold bind at 1. unfold on_self at 1, run_iteration, call.
  cbn [host_state self log]. rewrite Hrun.
  unfold bind at 1. cbn [on_self set_self modify].
  unfold bind at 1. cbn [on_self set_self modify].
  unfold bind at 1. rewrite Hparams.
  match goal with
  | |- context [for_each (pre ++ item :: post) add_parameter (?s, ?f)] =>
      destruct (add_parameters_raise pre item post e s f Hpre Hbad)
        as (st' & fr' & Hloop & Hh & Hl)
  end.
  rewrite Hloop. exists st'. split; [reflexivity|]. split; assumption.
Qed.

(** X10: a parameter without ['values'] in its metadata whose first
    value is of none of the classes of lines 98-103 (a string, [None], a
    sequence) is a fatal error: if the parameters before it are fine,
    [execute] ends with the [ValueError] whose message names the
    parameter and the class, and the first evaluation cycle is all that
    has reached the host. *)
Theorem X10_unsupported_class (st : St H) h1 pre name param post val rest :
  host_run_iteration host (host_state st) = (Ok tt, h1) ->
  get_parameters host = pre ++ (name, param) :: post ->
  Forall (fun it => exists kc, kind_of_parameter h1 it = Ok kc) pre ->
  par_evaluate param h1 = Ok (val :: rest) ->
  get_metadata param !! "values" = None ->
  type_ val <> ty_bool ->
  is_int_type (type_ val) = false ->
  is_float_type (type_ val) = false ->
  exists st',
    execute host traits from_pyoptsparse_import array st
      = (Raise (mkExc ValueError (unsupported_msg name val)), st') /\
    host_state st' = h1 /\ log st' = log st ++ [EvRunIteration].
Proof.
  intros Hrun Hparams Hpre Hvalues Hmeta Hb Hi Hf.
  apply (execute_bad_parameter st h1 pre (name, param) post); try assumption.
  unfold kind_of_parameter. simpl. rewrite Hvalues. simpl.
  apply classify_other; assumption.
Qed.

(** X11: a parameter whose value vector is empty is a fatal error too:
    line 92 takes [values[0]], and if the parameters before it are fine,
    [execute] ends with the [IndexError], after the first evaluation
    cycle and nothing else. *)
Theorem X11_empty_value_vector (st : St H) h1 pre name param post :
  host_run_iteration host (host_state st) = (Ok tt, h1) ->
  get_parameters host = pre ++ (name, param) :: post ->
  Forall (fun it => exists kc, kind_of_parameter h1 it = Ok kc) pre ->
  par_evaluate param h1 = Ok [] ->
  exists msg st',
    execute host traits from_pyoptsparse_import array st
      = (Raise (mkExc IndexError msg), st') /\
    host_state st' = h1 /\ log st' = log st ++ [EvRunIteration].
Proof.
  intros Hrun Hparams Hpre Hvalues. eexists.
  apply (execute_bad_parameter st h1 pre (name, param) post); try assumption.
  unfold kind_of_parameter. simpl. rewrite Hvalues. reflexivity.
Qed.

End BadParameter.

Lemma X10_unsupported_class_witness :
  exists st',
    execute Cases.host_with_label Demo.traits Demo.installation Demo.array
            Demo.start
      = (Raise (mkExc ValueError (unsupported_msg "label" (VStr "abc"))), st') /\
    host_state st' = host_state Demo.start /\
    log st' = log Demo.start ++ [EvRunIteration].
Proof.
  apply (X10_unsupported_class Cases.host_with_label Demo.traits
           Demo.installation Demo.array Demo.start (host_state Demo.start)
           [("x", Demo.x)] "label" Cases.label [("n", Demo.n)] (VStr "abc") []).
  - reflexivity.
  - reflexivity.
  - repeat constructor. eexists. vm_compute. reflexivity.
  - reflexivity.
  - reflexivity.
  - discriminate.
  - reflexivity.
  - reflexivity.
Defined.

Lemma X11_empty_value_vector_witness :
  exists msg st',
    execute Cases.host_with_nothing Demo.traits Demo.installation Demo.array
            Demo.start
      = (Raise (mkExc IndexError msg), st') /\
    host_state st' = host_state Demo.start /\
    log st' = log Demo.start ++ [EvRunIteration].
Proof.
  apply (X11_empty_value_vector Cases.host_with_nothing Demo.traits
           Demo.installation Demo.array Demo.start (host_state Demo.start)
           [("x", Demo.x)] "nothing" Cases.nothing []).
  - reflexivity.
  - reflexivity.
  - repeat constructor. eexists. vm_compute. reflexivity.
  - reflexivity.
Defined.

(* ===================================================================== *)
(** * The problem and the attributes, taken together *)
(* ===================================================================== *)

Lemma record_kinds_other groups :
  forall types name,
  ~ In name (map vg_name groups) ->
  record_kinds groups types !! name = types !! name.
Proof.
  induction groups as [|g groups IH]; intros types name Hnot; [reflexivity|].
  simpl in Hnot |- *. unfold record_kinds in *. simpl.
  rewrite IH by tauto. apply lookup_insert_ne. intros Heq. apply Hnot. left.
  exact Heq.
Qed.

Lemma record_kinds_lookup groups :
  forall types g,
  List.NoDup (map vg_name groups) -> In g groups ->
  record_kinds groups types !! vg_name g = Some (vg_type g).
Proof.
  induction groups as [|g0 groups IH]; intros types g Hnodup Hin;
    [destruct Hin|].
  simpl in Hnodup. inversion Hnodup as [|? ? Hnotin Hnodup']; subst.
  unfold record_kinds in *. simpl. destruct Hin as [->|Hin].
  - fold (record_kinds groups (<[vg_name g := vg_type g]> types)).
    rewrite record_kinds_other by exact Hnotin. apply lookup_insert_eq.
  - apply IH; assumption.
Qed.

Lemma var_groups_names {H} (h : H) params groups :
  Forall2 (var_group_of h) params groups ->
  map vg_name groups = map fst params.
Proof.
  induction 1 as [|item g params groups Hg HF IH]; [reflexivity|].
  simpl. rewrite IH. destruct Hg as (values & val & kind & choices & _ & _ & _ & ->).
  reflexivity.
Qed.

(** X12: when the set-up of [execute] completes and the parameters have
    distinct names, [self.param_type] and the problem agree: every
    variable group of the problem has its registered kind recorded under
    its name, and the recorded names are exactly the names of the
    parameters.  So the look-up [param_types[name]] of the callbacks and
    of the write-back cannot miss, and it rounds exactly the groups that
    were registered as ['i']. *)
Theorem X12_recorded_kinds {H} (host : Host H) traits (st st' : St H) fr' :
  setup_problem host (st, execute_frame traits) = (Ok tt, (st', fr')) ->
  List.NoDup (map fst (get_parameters host)) ->
  (forall g, In g (op_vars (opt_prob fr')) ->
             param_type (self st') !! vg_name g = Some (vg_type g)) /\
  (forall name, is_Some (param_type (self st') !! name) <->
                In name (map fst (get_parameters host))).
Proof.
  intros Hsetup Hnodup. apply setup_problem_inv in Hsetup.
  destruct Hsetup as (h1 & vgroups & eqg & ineqg & _ & HFv & _ & _ & _ & _
                      & Hvars & _ & _ & _ & _ & Hself).
  simpl in Hvars. pose proof (var_groups_names _ _ _ HFv) as Hnames.
  rewrite Hself. cbn [param_type]. rewrite Hvars, <- Hnames. split.
  - intros g Hin. apply record_kinds_lookup; [|exact Hin].
    rewrite Hnames. exact Hnodup.
  - intros name. split.
    + intros Hsome. destruct (in_dec string_dec name (map vg_name vgroups))
        as [Hin|Hnot]; [exact Hin|].
      rewrite record_kinds_other in Hsome by exact Hnot.
      rewrite lookup_empty in Hsome. destruct Hsome as [? Hsome]. discriminate.
    + intros Hin. apply in_map_iff in Hin. destruct Hin as (g & <- & Hin).
      rewrite record_kinds_lookup; [eexists; reflexivity | | exact Hin].
      rewrite Hnames. exact Hnodup.
Qed.

Lemma X12_recorded_kinds_witness :
  (forall g, In g (op_vars (opt_prob (snd Demo.after_setup))) ->
             param_type (self (fst Demo.after_setup)) !! vg_name g
             = Some (vg_type g)) /\
  (forall name, is_Some (param_type (self (fst Demo.after_setup)) !! name) <->
                In name (map fst (get_parameters Demo.host))).
Proof.
  apply (X12_recorded_kinds Demo.host Demo.traits Demo.start
           (fst Demo.after_setup) (snd Demo.after_setup)).
  - vm_compute. reflexivity.
  - exact Demo_distinct_parameters.
Defined.

(** X13: the callback and the problem agree on the names.  When the
    set-up of [execute] has completed, on a host whose
    [get_constraints()] lists all its constraints, every objective and
    every constraint group that the problem registers has an entry, under
    the same name, in every dictionary that [objfunc] returns with flag
    0. *)
Theorem X13_dictionary_covers_problem {H} (host : Host H) traits array
    (st st1 : St H) fr1 dv_dict (st2 st3 : St H) func_dict :
  setup_problem host (st, execute_frame traits) = (Ok tt, (st1, fr1)) ->
  lists_all_constraints host ->
  objfunc host array dv_dict st2 = (Ok (func_dict, 0%Z), st3) ->
  (forall name, In name (op_objs (opt_prob fr1)) -> is_Some (func_dict !! name)) /\
  (forall g, In g (op_cons (opt_prob fr1)) -> is_Some (func_dict !! cg_name g)).
Proof.
  intros Hsetup Hall Hcall. apply objfunc_success_inv in Hcall.
  apply objfunc_try_frame in Hcall. destruct Hcall as [_ Hdom]. simpl in Hdom.
  rewrite dom_empty_L, union_empty_l_L in Hdom.
  assert (Hkey : forall name, In name (output_names host) ->
                              is_Some (func_dict !! name)).
  { intros name Hin. apply elem_of_dom. rewrite Hdom.
    apply list_elem_of_In in Hin. apply elem_of_list_to_set. exact Hin. }
  apply setup_problem_inv in Hsetup.
  destruct Hsetup as (h1 & vgroups & eqg & ineqg & _ & _ & _ & HFe & HFi & _
                      & _ & Hobjs & Hcons & _).
  simpl in Hobjs, Hcons. split.
  - intros name Hin. apply Hkey. unfold output_names. apply in_or_app. left.
    rewrite Hobjs in Hin. exact Hin.
  - intros g Hin. rewrite Hcons in Hin.
    assert (Hitem : exists item,
              In item (get_eq_constraints host ++ get_ineq_constraints host) /\
              cg_name g = out0 (con_pcomp_name (snd item))).
    { apply in_app_or in Hin. destruct Hin as [Hin|Hin].
      - apply Forall2_flip in HFe.
        destruct (Forall2_In_left _ _ _ _ HFe Hin) as (item & Hitem & Hof).
        apply con_group_of_fields in Hof. exists item.
        split; [apply in_or_app; left; exact Hitem | apply Hof].
      - apply Forall2_flip in HFi.
        destruct (Forall2_In_left _ _ _ _ HFi Hin) as (item & Hitem & Hof).
        apply con_group_of_fields in Hof. exists item.
        split; [apply in_or_app; right; exact Hitem | apply Hof]. }
    destruct Hitem as (item & Hitem & ->). apply Hkey. unfold output_names.
    apply in_or_app. right.
    apply (in_map (fun item => out0 (con_pcomp_name (snd item)))).
    apply Hall. exact Hitem.
Qed.

Lemma Demo_lists_all_constraints : lists_all_constraints Demo.host.
Proof. intros item Hin. exact Hin. Qed.

Lemma X13_dictionary_covers_problem_witness :
  (forall name, In name (op_objs (opt_prob (snd Demo.after_setup))) ->
                is_Some (Cases.probe_dict !! name)) /\
  (forall g, In g (op_cons (opt_prob (snd Demo.after_setup))) ->
             is_Some (Cases.probe_dict !! cg_name g)).
Proof.
  apply (X13_dictionary_covers_problem Demo.host Demo.traits Demo.array
           Demo.start (fst Demo.after_setup) (snd Demo.after_setup)
           Demo.probe Demo.running Cases.probe_state Cases.probe_dict).
  - vm_compute. reflexivity.
  - exact Demo_lists_all_constraints.
  - vm_compute. reflexivity.
Defined.

(* ===================================================================== *)
(** * What reaches the host and the optimizer, and when *)
(* ===================================================================== *)

Section Traffic.

Context {H : Type}.
Variable host : Host H.
Variable traits : Traits.
Variable from_pyoptsparse_import : string -> option Optimizer.
Variable array : PyVal -> PyVal.

Lemma execute_set_parameter_writes dv_dict types item :
  preserves (emits is_write) (execute_set_parameter host dv_dict types item).
Proof.
  intros st r st' Heq.
  assert (Hloop : for_each [item] (execute_set_parameter host dv_dict types) st
                  = (r, st')).
  { rewrite for_each_cons. rewrite Heq. destruct r as [[]|e]; reflexivity. }
  apply set_parameters_loop in Hloop. apply Hloop.
Qed.

Lemma objfunc_emits dv_dict (st : St H) r st' :
  objfunc host array dv_dict st = (r, st') -> emits objfunc_event st st'.
Proof.
  set (ok := objfunc_event).
  pose proof (on_fst_refl (L := CallbackFrame (gmap string PyVal))
                (emits (H := H) ok) (emits_refl ok)) as E_refl.
  pose proof (on_fst_trans (L := CallbackFrame (gmap string PyVal))
                (emits (H := H) ok) (emits_trans ok)) as E_trans.
  unfold objfunc, try_except_Exception.
  destruct (objfunc_try host array dv_dict (st, mkCallbackFrame ∅ 1%Z))
    as [r0 [s1 l1]] eqn:Htry.
  assert (Hbody : emits ok st s1).
  { assert (Hp : preserves (on_fst (emits ok)) (objfunc_try host array dv_dict)).
    { unfold objfunc_try.
      repeat first
        [ preserves_step E_refl E_trans
        | apply preserves_set_local; exact (emits_refl ok)
        | apply preserves_on_self;
          first [ apply emits_get_self
                | apply emits_call; exact I
                | apply emits_read
                | intros s r1 s' Heq;
                  apply execute_set_parameter_writes in Heq;
                  eapply emits_weaken; [|exact Heq];
                  intros ev Hw; destruct ev; try destruct Hw; exact I ]
        | progress unfold store_output ]. }
    apply Hp in Htry. exact Htry. }
  destruct r0 as [[]|e].
  - intros Heq. inversion Heq; subst. exact Hbody.
  - destruct (is_Exception (exc_class e)).
    + unfold print_traceback, on_self, emit, modify. intros Heq.
      inversion Heq; subst. eapply emits_trans; [exact Hbody|].
      exists (traceback_report e). split; [reflexivity|]. repeat constructor.
    + intros Heq. inversion Heq; subst. exact Hbody.
Qed.

Lemma gradfunc_emits dv_dict func_dict (st : St H) r st' :
  gradfunc host dv_dict func_dict st = (r, st') -> emits gradfunc_event st st'.
Proof.
  rewrite gradfunc_spec.
  destruct (objs (self st)) as [o|], (nlcons (self st)) as [n|];
    try (intros Heq; inversion Heq; subst; eexists; split; [reflexivity|];
         repeat constructor).
  cbv zeta.
  destruct (host_calc_gradient host _ _ _) as [[J|e] h'];
    [|destruct (is_Exception (exc_class e))];
    intros Heq; inversion Heq; subst;
    (eexists; split; [reflexivity|]; repeat constructor).
Qed.

(** X14: the two callbacks keep to their own calls.  Whatever its
    outcome, [objfunc] only writes parameters and runs the model (and
    prints in its handler): it never asks the host for a gradient; and
    [gradfunc] only asks for gradients (and prints in its handler): it
    never writes a parameter and never runs the model.  Neither touches
    an optimizer. *)
Theorem X14_callback_traffic :
  (forall dv_dict (st : St H),
     emits objfunc_event st (snd (objfunc host array dv_dict st))) /\
  (forall dv_dict func_dict (st : St H),
     emits gradfunc_event st (snd (gradfunc host dv_dict func_dict st))).
Proof.
  split.
  - intros dv_dict st.
    destruct (objfunc host array dv_dict st) as [r st'] eqn:Hrun.
    apply objfunc_emits in Hrun. exact Hrun.
  - intros dv_dict func_dict st.
    destruct (gradfunc host dv_dict func_dict st) as [r st'] eqn:Hrun.
    apply gradfunc_emits in Hrun. exact Hrun.
Qed.

(** A run of the optimizer leaves in the log what its calls of the
    callbacks leave. *)
Lemma run_solver_emits {G} (ok : Event -> Prop) (t : SolverRun G) :
  (forall ev, objfunc_event ev -> ok ev) ->
  (G -> forall ev, gradfunc_event ev -> ok ev) ->
  preserves (emits ok) (run_solver host array t).
Proof.
  intros Hobj Hgrad.
  induction t as [sol | e | dv_dict k IH | g dv_dict func_dict k IH];
    intros st r st' Heq; simpl in Heq.
  - inversion Heq; subst. apply emits_refl.
  - inversion Heq; subst. apply emits_refl.
  - destruct (objfunc host array dv_dict st) as [[r1|e] s1] eqn:Hcall;
      apply objfunc_emits in Hcall;
      apply (emits_weaken _ ok _ _ Hobj) in Hcall.
    + eapply emits_trans; [exact Hcall | eapply IH; exact Heq].
    + inversion Heq; subst. exact Hcall.
  - destruct (gradfunc host dv_dict func_dict st) as [[r1|e] s1] eqn:Hcall;
      apply gradfunc_emits in Hcall;
      apply (emits_weaken _ ok _ _ (Hgrad g)) in Hcall.
    + eapply emits_trans; [exact Hcall | eapply IH; exact Heq].
    + inversion Heq; subst. exact Hcall.
Qed.

Lemma run_optimizer_emits (ok : Event -> Prop) opt prob (st : St H) r st' :
  (forall ev, objfunc_event ev -> ok ev) ->
  (pyopt_diff traits = false -> forall ev, gradfunc_event ev -> ok ev) ->
  run_optimizer host traits array opt prob st = (r, st') ->
  exists evs, log st' = log st ++ EvSolve prob (sens_of traits) :: evs /\
              Forall ok evs.
Proof.
  intros Hobj Hgrad. unfold run_optimizer, sens_of.
  destruct (pyopt_diff traits); unfold bind at 1; cbn [emit modify];
    intros Heq; apply (run_solver_emits ok) in Heq; try exact Hobj.
  - destruct Heq as (evs & Hlog & Hok). exists evs. split; [|exact Hok].
    rewrite Hlog. simpl. rewrite <- app_assoc. reflexivity.
  - intros g. destruct g.
  - destruct Heq as (evs & Hlog & Hok). exists evs. split; [|exact Hok].
    rewrite Hlog. simpl. rewrite <- app_assoc. reflexivity.
  - intros _. apply Hgrad. reflexivity.
Qed.

(** X15: with [pyopt_diff] set, the optimizer is called with
    [sens='FD'] and is given no gradient callback, so however the call
    ends, nothing after it in the log is a gradient call: the host's
    differentiator is not used while the optimizer runs, and the host
    only sees the writes and the model runs of [objfunc]. *)
Theorem X15_finite_differences opt prob (st : St H) :
  pyopt_diff traits = true ->
  exists evs,
    log (snd (run_optimizer host traits array opt prob st)) =
      log st ++ EvSolve prob (sens_FD (fd_step traits)) :: evs /\
    Forall objfunc_event evs.
Proof.
  intros Hfd.
  destruct (run_optimizer host traits array opt prob st) as [r st'] eqn:Hrun.
  apply (run_optimizer_emits objfunc_event) in Hrun.
  - unfold sens_of in Hrun. rewrite Hfd in Hrun. exact Hrun.
  - auto.
  - rewrite Hfd. discriminate.
Qed.

Lemma set_options_log (opts : list (string * PyVal)) :
  forall st : St H,
  exists st',
    for_each opts (fun '(option, value) => emit [EvSetOption option value]) st
      = (Ok tt, st') /\
    log st' = log st ++ option_events opts.
Proof.
  induction opts as [|[option value] opts IH]; intros st.
  - exists st. split; [reflexivity|]. simpl. rewrite app_nil_r. reflexivity.
  - rewrite for_each_cons. cbn [emit modify].
    destruct (IH (mkSt (host_state st) (self st)
                       (log st ++ [EvSetOption option value])))
      as (st' & Hrun & Hlog).
    exists st'. rewrite Hrun. split; [reflexivity|].
    rewrite Hlog. simpl. rewrite <- app_assoc. reflexivity.
Qed.

Lemma instantiate_optimizer_log (st : St H) opt st' :
  instantiate_optimizer traits from_pyoptsparse_import st = (Ok opt, st') ->
  from_pyoptsparse_import (optimizer traits) = Some opt /\
  log st' = log st ++ EvInstantiate (optimizer traits)
                   :: option_events (options traits).
Proof.
  unfold instantiate_optimizer.
  destruct (from_pyoptsparse_import (optimizer traits)) as [cls|];
    [|discriminate].
  unfold bind at 1. cbn [ret]. unfold bind at 1. cbn [emit modify].
  unfold bind.
  destruct (set_options_log (options traits)
              (mkSt (host_state st) (self st)
                    (log st ++ [EvInstantiate (optimizer traits)])))
    as (s2 & Hrun & Hlog).
  rewrite Hrun. cbn [ret]. intros Heq. inversion Heq; subst.
  split; [reflexivity|]. rewrite Hlog. simpl. rewrite <- app_assoc.
  reflexivity.
Qed.

Lemma finish_run_traffic sol :
  preserves (emits finish_event) (finish_run host traits sol).
Proof.
  unfold finish_run.
  apply preserves_bind; [exact (emits_trans finish_event) | | intros ?].
  { intros st r st' Heq. destruct (print_results traits);
      inversion Heq; subst; [|apply emits_refl].
    exists [EvPrintSolution sol]. split; [reflexivity|]. repeat constructor. }
  apply preserves_bind; [exact (emits_trans finish_event) | | intros ?].
  { apply emits_get_self. }
  apply preserves_bind; [exact (emits_trans finish_event) | | intros ?].
  { intros st r st' Heq. apply set_parameters_loop in Heq.
    eapply emits_weaken; [|apply Heq].
    intros ev Hw. destruct ev; try destruct Hw; exact I. }
  apply preserves_bind; [exact (emits_trans finish_event) | | intros ?].
  { apply emits_call. exact I. }
  apply emits_set_self.
Qed.

(** X16: the order of a completed run.  After the set-up, which calls
    no optimizer, [execute] instantiates the optimizer named by
    [self.optimizer] once, sets every item of [self.options] on it, once
    each and in the order of [self.options], and then calls it once, on
    the problem that the set-up built and with the [sens] argument that
    [self.pyopt_diff] selects.  All the callbacks run after that call,
    and the optimum is printed and written back after them. *)
Theorem X16_order_of_a_run (st st' : St H) :
  execute host traits from_pyoptsparse_import array st = (Ok tt, st') ->
  exists st1 fr1 before during after,
    setup_problem host (st, execute_frame traits) = (Ok tt, (st1, fr1)) /\
    log st' = log st ++ before
                ++ EvInstantiate (optimizer traits)
                :: option_events (options traits)
                ++ EvSolve (opt_prob fr1) (sens_of traits)
                :: during ++ after /\
    Forall (fun ev => is_solver_event ev = false) before /\
    Forall (fun ev => objfunc_event ev \/ gradfunc_event ev) during /\
    Forall finish_event after.
Proof.
  intros Hrun.
  apply execute_inv in Hrun.
  destruct Hrun as (st1 & fr1 & opt & st2 & sol & st3 &
                    Hsetup & Hinst & Hopt & Hfin).
  exists st1, fr1.
  pose proof (setup_problem_quiet host _ _ _ Hsetup) as (before & Hl1 & Hb).
  cbn [fst] in Hl1.
  apply instantiate_optimizer_log in Hinst. destruct Hinst as [_ Hl2].
  apply (run_optimizer_emits
           (fun ev => objfunc_event ev \/ gradfunc_event ev)) in Hopt;
    [|intros ev Hev; left; exact Hev | intros _ ev Hev; right; exact Hev].
  destruct Hopt as (during & Hl3 & Hd).
  apply finish_run_traffic in Hfin. destruct Hfin as (after & Hl4 & Ha).
  exists before, during, after.
  split; [exact Hsetup|]. split; [|auto].
  rewrite Hl4, Hl3, Hl2, Hl1.
  repeat (rewrite <- ?app_assoc; cbn [app]). reflexivity.
Qed.

Lemma finish_run_pulls sol (st st' : St H) :
  finish_run host traits sol st = (Ok tt, st') ->
  param_type (self st') = param_type (self st) /\
  Forall (fun item => exists w,
            pulled (getDVs sol) (param_type (self st)) (fst item) w)
         (get_parameters host).
Proof.
  unfold finish_run. unfold bind at 1.
  set (st0 := snd ((if print_results traits then emit [EvPrintSolution sol]
                    else ret tt) st)).
  assert (Hst0 : (if print_results traits then emit [EvPrintSolution sol]
                  else ret tt) st = (Ok tt, st0) /\ self st0 = self st).
  { subst st0. destruct (print_results traits); split; reflexivity. }
  destruct Hst0 as [-> Hself0].
  unfold bind at 1. cbn [get_self gets]. unfold bind at 1.
  destruct (for_each (get_parameters host) _ st0) as [r1 s1] eqn:Hloop.
  pose proof (set_parameters_loop host _ _ _ _ _ _ Hloop) as [_ Hall].
  assert (Hself1 : self s1 = self st0).
  { eapply (preserves_for_each (only_logs (writes_pulled (getDVs sol)
                                             (param_type (self st0)))))
      in Hloop.
    - apply Hloop.
    - apply only_logs_refl.
    - apply only_logs_trans.
    - intros x. apply execute_set_parameter_logs. }
  destruct r1 as [[]|e]; [|discriminate].
  specialize (Hall eq_refl). rewrite Hself0 in Hall.
  unfold bind at 1. unfold run_iteration, call.
  destruct (host_run_iteration host (host_state s1)) as [[[]|e] h2];
    [|discriminate].
  intros Heq. inversion Heq; subst. cbn. rewrite Hself1, Hself0.
  split; [reflexivity | exact Hall].
Qed.

(** X17: a completed [execute] has a value for every parameter.  The
    solution that it saves in [self.pyOpt_solution] holds a value for
    each parameter of the host, the set-up recorded a kind for each of
    them, and each value of a parameter of kind ['i'] is one that
    [int(round(...))] accepts: had the optimizer left one out, or
    reported a NaN or an infinity for an integer variable, [execute]
    would not have returned. *)
Theorem X17_solution_covers_parameters (st st' : St H) :
  execute host traits from_pyoptsparse_import array st = (Ok tt, st') ->
  exists sol,
    pyOpt_solution (self st') = Some sol /\
    forall name, In name (map fst (get_parameters host)) ->
      exists v kind,
        getDVs sol !! name = Some v /\
        param_type (self st') !! name = Some kind /\
        (kind = vt_i -> exists w, int_round v = Ok w).
Proof.
  intros Hrun.
  apply execute_inv in Hrun.
  destruct Hrun as (st1 & fr1 & opt & st2 & sol & st3 &
                    Hsetup & Hinst & Hopt & Hfin).
  exists sol.
  pose proof (finish_run_solution host traits _ _ _ _ Hfin) as Hsol.
  cbn in Hsol. split; [exact Hsol|].
  pose proof (finish_run_pulls _ _ _ Hfin) as Htypes.
  destruct Htypes as [Ht Hall].
  intros name Hin. apply in_map_iff in Hin.
  destruct Hin as (item & <- & Hin).
  rewrite Forall_forall in Hall. 
  destruct (Hall item) as (w & v & kind & Hv & Hk & Hw).
  { apply list_elem_of_In. exact Hin. }
  exists v, kind. rewrite Ht. split; [exact Hv|]. split; [exact Hk|].
  intros ->. exists w. exact Hw.
Qed.

End Traffic.

Lemma X15_finite_differences_witness :
  exists evs,
    log (snd (run_optimizer Demo.host Cases.traits_FD Demo.array Demo.SLSQP
                (opt_prob (snd Demo.after_setup)) (fst Demo.after_setup))) =
      log (fst Demo.after_setup)
        ++ EvSolve (opt_prob (snd Demo.after_setup))
             (sens_FD (fd_step Cases.traits_FD)) :: evs /\
    Forall objfunc_event evs.
Proof.
  apply (X15_finite_differences Demo.host Cases.traits_FD Demo.array
           Demo.SLSQP (opt_prob (snd Demo.after_setup))
           (fst Demo.after_setup)).
  reflexivity.
Defined.

Lemma X16_order_of_a_run_witness :
  exists st1 fr1 before during after,
    setup_problem Demo.host (Demo.start, execute_frame Demo.traits)
      = (Ok tt, (st1, fr1)) /\
    log Demo.finished =
      log Demo.start ++ before
        ++ EvInstantiate (optimizer Demo.traits)
        :: option_events (options Demo.traits)
        ++ EvSolve (opt_prob fr1) (sens_of Demo.traits)
        :: during ++ after /\
    Forall (fun ev => is_solver_event ev = false) before /\
    Forall (fun ev => objfunc_event ev \/ gradfunc_event ev) during /\
    Forall finish_event after.
Proof.
  apply (X16_order_of_a_run Demo.host Demo.traits Demo.installation
           Demo.array Demo.start Demo.finished).
  vm_compute. reflexivity.
Defined.

Lemma X17_solution_covers_parameters_witness :
  exists sol,
    pyOpt_solution (self Demo.finished) = Some sol /\
    forall name, In name (map fst (get_parameters Demo.host)) ->
      exists v kind,
        getDVs sol !! name = Some v /\
        param_type (self Demo.finished) !! name = Some kind /\
        (kind = vt_i -> exists w, int_round v = Ok w).
Proof.
  apply (X17_solution_covers_parameters Demo.host Demo.traits
           Demo.installation Demo.array Demo.start Demo.finished).
  vm_compute. reflexivity.
Defined.

(* ===================================================================== *)
(** * What the callback reads of the design point *)
(* ===================================================================== *)

Lemma for_each_ext_in {S X} (l : list X) (f g : X -> M S unit) :
  (forall x, In x l -> forall s, f x s = g x s) ->
  forall s, for_each l f s = for_each l g s.
Proof.
  induction l as [|x l IH]; intros Hfg s; [reflexivity|].
  rewrite !for_each_cons. rewrite (Hfg x (or_introl eq_refl)).
  destruct (g x s) as [[[]|e] s1]; [|reflexivity].
  apply IH. intros y Hy. apply Hfg. right; exact Hy.
Qed.

Lemma bind_ext {S A B} (m : M S A) (k k' : A -> M S B) s :
  (forall a s', k a s' = k' a s') -> bind m k s = bind m k' s.
Proof.
  intros Hk. unfold bind. destruct (m s) as [[a|e] s']; [apply Hk | reflexivity].
Qed.

Lemma bind_ext_l {S A B} (m m' : M S A) (k : A -> M S B) s :
  m s = m' s -> bind m k s = bind m' k s.
Proof. intros Hm. unfold bind. rewrite Hm. reflexivity. Qed.

(** X18: [objfunc] reads the design point at the names of the host's
    parameters and nowhere else: two design points that agree there get
    the same answer and leave the same state, whatever else they hold. *)
Theorem X18_objfunc_reads_parameters_only {H} (host : Host H) array
    dv_dict dv_dict' (st : St H) :
  (forall name, In name (map fst (get_parameters host)) ->
                dv_dict !! name = dv_dict' !! name) ->
  objfunc host array dv_dict st = objfunc host array dv_dict' st.
Proof.
  intros Hagree.
  assert (Htry : forall s,
            objfunc_try host array dv_dict s = objfunc_try host array dv_dict' s).
  { intros s. unfold objfunc_try.
    apply bind_ext. intros types s0. apply bind_ext_l.
    apply for_each_ext_in.
    intros [name p] Hin [s1 l1].
    unfold on_self, objfunc_set_parameter, bind, getitem.
    rewrite (Hagree name); [reflexivity|].
    apply in_map_iff. exists (name, p). split; [reflexivity | exact Hin]. }
  unfold objfunc, try_except_Exception. rewrite Htry. reflexivity.
Qed.

Lemma X18_objfunc_reads_parameters_only_witness :
  objfunc Demo.host Demo.array Demo.probe Demo.running =
  objfunc Demo.host Demo.array Cases.probe_and_more Demo.running.
Proof.
  apply (X18_objfunc_reads_parameters_only Demo.host Demo.array Demo.probe
           Cases.probe_and_more Demo.running).
  intros name Hin. simpl in Hin.
  destruct Hin as [<-|[<-|[]]]; vm_compute; reflexivity.
Defined.

(* ===================================================================== *)
(** * Whole numbers under [int(round(val))] *)
(* ===================================================================== *)

Lemma round_half_away_inject_Z z : round_half_away (inject_Z z) = z.
Proof.
  unfold round_half_away.
  destruct (Qle_bool 0 (inject_Z z)).
  - unfold Qfloor, Qplus, inject_Z. cbn [Qnum Qden].
    change (Z.pos (1 * 2)) with 2%Z. change (Z.pos 1) with 1%Z.
    change (Z.pos 2) with 2%Z.
    symmetry. apply (Z.div_unique_pos _ _ _ 1); lia.
  - unfold Qceiling, Qfloor, Qminus, Qplus, Qopp, inject_Z. cbn [Qnum Qden].
    change (Z.pos (1 * 2)) with 2%Z. change (Z.pos 1) with 1%Z.
    change (Z.pos 2) with 2%Z.
    assert (Hd : ((- (z * 2 + - (1) * 1)) / 2 = - z)%Z).
    { symmetry. apply (Z.div_unique_pos _ _ _ 1); lia. }
    rewrite Hd. lia.
Qed.

Lemma double_of_Z_small z :
  (Z.abs z < 2 ^ 53)%Z -> double_of_Z z = z.
Proof.
  intros Hsmall. unfold double_of_Z.
  assert (Hk : (Z.log2 (Z.abs z) - 52 <= 0)%Z).
  { destruct (Z.eq_dec (Z.abs z) 0%Z) as [->|Hne]; [simpl; lia|].
    assert (Z.log2 (Z.abs z) < 53)%Z; [|lia].
    apply Z.log2_lt_pow2; lia. }
  apply Z.leb_le in Hk. rewrite Hk. reflexivity.
Qed.

Lemma float_of_integer_small z :
  (Z.abs z < 2 ^ 53)%Z -> float_of_integer z = Ok (Fin (inject_Z z)).
Proof.
  intros Hsmall. unfold float_of_integer.
  rewrite double_of_Z_small by exact Hsmall.
  assert (Hlt : (Z.abs z <? 2 ^ 1024)%Z = true).
  { apply Z.ltb_lt. eapply Z.lt_trans; [exact Hsmall|].
    apply Z.pow_lt_mono_r; lia. }
  rewrite Hlt. reflexivity.
Qed.

(** X19: rounding keeps whole numbers.  When the optimizer supplies, for
    a parameter of kind ['i'], a value that denotes the whole number [z]
    (a float, a numpy scalar or a one-element array of one), the value
    written to the host is the Python integer [z] itself, whatever the
    class of the value supplied; and an integer of any of the three
    integer classes below [2 ** 53] in magnitude is such a value. *)
Theorem X19_whole_numbers_kept dv_dict types name v z w :
  types !! name = Some vt_i ->
  dv_dict !! name = Some v ->
  float_ v = Ok (Fin (inject_Z z)) \/
    ((Z.abs z < 2 ^ 53)%Z /\ (v = VInt z \/ v = VInt32 z \/ v = VInt64 z)) ->
  pulled dv_dict types name w <-> w = VInt z.
Proof.
  intros Hkind Hv Hwhole.
  assert (Hfloat : float_ v = Ok (Fin (inject_Z z))).
  { destruct Hwhole as [Hf | [Hsmall [-> | [-> | ->]]]];
      [exact Hf | | |]; apply float_of_integer_small; exact Hsmall. }
  assert (Hround : int_round v = Ok (VInt z)).
  { unfold int_round, round_, res_bind. rewrite Hfloat. simpl.
    rewrite round_half_away_inject_Z, Qtruncate_inject_Z. reflexivity. }
  split.
  - intros (v' & kind & Hv' & Hk' & Hw).
    rewrite Hv in Hv'. inversion Hv'; subst v'.
    rewrite Hkind in Hk'. inversion Hk'; subst kind.
    simpl in Hw. rewrite Hround in Hw. inversion Hw. reflexivity.
  - intros ->. exists v, vt_i. repeat split; try assumption.
Qed.

Lemma X19_whole_numbers_kept_witness :
  pulled Cases.whole_optimum (param_type (self Demo.running)) "n" (VInt 3)
  <-> VInt 3 = VInt 3.
Proof.
  apply (X19_whole_numbers_kept Cases.whole_optimum
           (param_type (self Demo.running)) "n"
           (VNdarray [VFloat64 (Fin (inject_Z 3))]) 3 (VInt 3)).
  - vm_compute. reflexivity.
  - vm_compute. reflexivity.
  - left. reflexivity.
Defined.

(* ===================================================================== *)
(** * The writes of the two loops over the parameters *)
(* ===================================================================== *)


Lemma pulled_verbatim dv_dict types name w :
  pulled dv_dict types name w ->
  forall kind, types !! name = Some kind -> kind <> vt_i ->
               dv_dict !! name = Some w.
Proof.
  intros Hp. apply (writes_pulled_verbatim dv_dict types (EvSetParameter name w)).
  exact Hp.
Qed.

Section Writes.

Context {H : Type}.
Variable host : Host H.
Variable traits : Traits.
Variable from_pyoptsparse_import : string -> option Optimizer.
Variable array : PyVal -> PyVal.

(** The loop over the parameters, when it completes: one write per
    parameter, in order, of the value pulled for it. *)
Lemma pull_loop_writes dv_dict types params :
  forall (st st' : St H),
  for_each params (execute_set_parameter host dv_dict types) st = (Ok tt, st') ->
  self st' = self st /\
  exists vals,
    Forall2 (fun item w => pulled dv_dict types (fst item) w) params vals /\
    log st' = log st ++ write_events (map fst params) vals.
Proof.
  induction params as [|[name p] params IH]; intros st st' Hrun.
  - inversion Hrun; subst. split; [reflexivity|]. exists [].
    split; [constructor|]. simpl. rewrite app_nil_r. reflexivity.
  - rewrite for_each_cons, execute_set_parameter_spec in Hrun.
    destruct (dv_dict !! name) as [v|] eqn:Hv; [|discriminate].
    destruct (types !! name) as [kind|] eqn:Hk; [|discriminate].
    destruct (if vartype_eqb kind vt_i then int_round v else Ok v) as [w|e] eqn:Hw;
      [|discriminate].
    destruct (host_set_parameter_by_name host name w (host_state st))
      as [[[]|e] h1] eqn:Hhost; [|discriminate].
    apply IH in Hrun. simpl in Hrun. destruct Hrun as (Hself & vals & HF & Hlog).
    split; [exact Hself|]. exists (w :: vals). split.
    + constructor; [|exact HF]. exists v, kind. repeat split; try assumption.
      destruct (vartype_eqb kind vt_i); [exact Hw | congruence].
    + rewrite Hlog, <- app_assoc. reflexivity.
Qed.

(** A probe that [objfunc] completes has written every parameter once,
    in order, and then run the model. *)
Lemma objfunc_writes dv_dict (st : St H) func_dict st' :
  objfunc host array dv_dict st = (Ok (func_dict, 0%Z), st') ->
  exists vals,
    Forall2 (fun item w => pulled dv_dict (param_type (self st)) (fst item) w)
            (get_parameters host) vals /\
    log st' = log st ++ write_events (map fst (get_parameters host)) vals ++
              [EvRunIteration].
Proof.
  intros Hrun. apply objfunc_success_inv in Hrun.
  apply objfunc_try_Ok_inv in Hrun.
  destruct Hrun as (s1 & h2 & Hloop & Hmodel & ->).
  rewrite objfunc_set_parameter_same in Hloop.
  apply pull_loop_writes in Hloop. destruct Hloop as (_ & vals & HF & Hlog).
  exists vals. split; [exact HF|]. simpl. rewrite Hlog, <- app_assoc.
  reflexivity.
Qed.

(** The end of [execute], when it completes: the print, one write per
    parameter, in order, and one evaluation cycle. *)
Lemma finish_run_writes sol (st st' : St H) :
  finish_run host traits sol st = (Ok tt, st') ->
  exists vals,
    Forall2 (fun item w =>
               pulled (getDVs sol) (param_type (self st)) (fst item) w)
            (get_parameters host) vals /\
    log st' = log st ++
              (if print_results traits then [EvPrintSolution sol] else []) ++
              write_events (map fst (get_parameters host)) vals ++
              [EvRunIteration].
Proof.
  unfold finish_run. unfold bind at 1.
  set (evs := if print_results traits then [EvPrintSolution sol] else []).
  set (st0 := snd ((if print_results traits then emit [EvPrintSolution sol]
                    else ret tt) st)).
  assert (Hst0 : (if print_results traits then emit [EvPrintSolution sol]
                  else ret tt) st = (Ok tt, st0) /\
                 self st0 = self st /\ log st0 = log st ++ evs).
  { subst st0 evs. destruct (print_results traits); repeat split.
    simpl. rewrite app_nil_r. reflexivity. }
  destruct Hst0 as (-> & Hself0 & Hlog0).
  unfold bind at 1. cbn [get_self gets]. unfold bind at 1.
  destruct (for_each (get_parameters host) _ st0) as [[[]|e] s1] eqn:Hloop;
    [|discriminate].
  apply pull_loop_writes in Hloop. destruct Hloop as (_ & vals & HF & Hlog1).
  unfold bind at 1. unfold run_iteration, call.
  destruct (host_run_iteration host (host_state s1)) as [[[]|e] h2];
    [|discriminate].
  intros Heq. inversion Heq; subst. exists vals. rewrite Hself0 in HF.
  split; [exact HF|]. simpl. rewrite Hlog1, Hlog0, <- !app_assoc. reflexivity.
Qed.


(** X7: a value that the optimizer supplies for a parameter whose
    recorded kind is ['c'] or ['d'] is written into the host as it is,
    not rounded and not converted.  Every probe that [objfunc] completes
    and every write-back that the end of [execute] completes has made
    exactly one write per parameter, in order, before the evaluation
    cycle, and the value written for such a parameter is the one
    supplied; and whatever the outcome, no other value is ever written
    for it. *)
Theorem X7_other_kinds_verbatim :
  (forall dv_dict (st : St H) func_dict st',
     objfunc host array dv_dict st = (Ok (func_dict, 0%Z), st') ->
     exists vals,
       Forall2 (fun item w =>
                  forall kind,
                    param_type (self st) !! fst item = Some kind ->
                    kind <> vt_i -> dv_dict !! fst item = Some w)
               (get_parameters host) vals /\
       log st' = log st ++
                 write_events (map fst (get_parameters host)) vals ++
                 [EvRunIteration]) /\
  (forall sol (st st' : St H),
     finish_run host traits sol st = (Ok tt, st') ->
     exists vals,
       Forall2 (fun item w =>
                  forall kind,
                    param_type (self st) !! fst item = Some kind ->
                    kind <> vt_i -> getDVs sol !! fst item = Some w)
               (get_parameters host) vals /\
       log st' = log st ++
                 (if print_results traits then [EvPrintSolution sol] else []) ++
                 write_events (map fst (get_parameters host)) vals ++
                 [EvRunIteration]) /\
  (forall dv_dict (st : St H),
     emits (writes_verbatim dv_dict (param_type (self st)))
           st (snd (objfunc host array dv_dict st))) /\
  (forall sol (st : St H),
     emits (writes_verbatim (getDVs sol) (param_type (self st)))
           st (snd (finish_run host traits sol st))).
Proof.
  split; [|split; [|split]].
  - intros dv_dict st func_dict st' Hrun.
    apply objfunc_writes in Hrun. destruct Hrun as (vals & HF & Hlog).
    exists vals. split; [|exact Hlog].
    eapply Forall2_impl; [exact HF|]. intros item w Hp.
    apply (pulled_verbatim _ _ _ _ Hp).
  - intros sol st st' Hrun.
    apply finish_run_writes in Hrun. destruct Hrun as (vals & HF & Hlog).
    exists vals. split; [|exact Hlog].
    eapply Forall2_impl; [exact HF|]. intros item w Hp.
    apply (pulled_verbatim _ _ _ _ Hp).
  - intros dv_dict st.
    destruct (objfunc host array dv_dict st) as [r st'] eqn:Hrun.
    apply objfunc_only_logs in Hrun. destruct Hrun as [_ Hemits].
    eapply emits_weaken; [apply writes_pulled_verbatim | exact Hemits].
  - intros sol st.
    destruct (finish_run host traits sol st) as [r st'] eqn:Hrun.
    apply finish_run_emits in Hrun.
    eapply emits_weaken; [apply writes_pulled_verbatim | exact Hrun].
Qed.

End Writes.



Lemma X7_other_kinds_verbatim_witness :
  (exists vals,
     Forall2 (fun item w =>
                forall kind,
                  param_type (self Demo.running) !! fst item = Some kind ->
                  kind <> vt_i -> Demo.probe !! fst item = Some w)
             (get_parameters Demo.host) vals /\
     log Cases.probe_state =
       log Demo.running ++
       write_events (map fst (get_parameters Demo.host)) vals ++
       [EvRunIteration]) /\
  (exists vals,
     Forall2 (fun item w =>
                forall kind,
                  param_type (self Demo.running) !! fst item = Some kind ->
                  kind <> vt_i ->
                  getDVs (mkSolution Demo.optimum "done") !! fst item = Some w)
             (get_parameters Demo.host) vals /\
     log Cases.written_back =
       log Demo.running ++
       (if print_results Demo.traits
        then [EvPrintSolution (mkSolution Demo.optimum "done")] else []) ++
       write_events (map fst (get_parameters Demo.host)) vals ++
       [EvRunIteration]).
Proof.
  split.
  - apply (proj1 (X7_other_kinds_verbatim Demo.host Demo.traits Demo.array)
             Demo.probe Demo.running Cases.probe_dict Cases.probe_state).
    vm_compute. reflexivity.
  - apply (proj1 (proj2 (X7_other_kinds_verbatim Demo.host Demo.traits
                           Demo.array))
             (mkSolution Demo.optimum "done") Demo.running Cases.written_back).
    vm_compute. reflexivity.
Defined.

(** A [long] is none of the classes of line 101, and a [long] beyond the
    range of the doubles cannot be rounded. *)
Example long_values :
  classify "n" ∅ (VLong 3)
    = Raise (mkExc ValueError
        "Only continuous, discrete, or enumerated variables are supported. n is <type 'long'>.") /\
  int_round (VLong 3) = Ok (VInt 3) /\
  int_round (VLong (2 ^ 1024))
    = Raise (mkExc OverflowError "long int too large to convert to float").
Proof. repeat split; vm_compute; reflexivity. Qed.
